(** * Recommendation pipeline and decision-metric engine

    A shallow embedding of the recommendation backend
    ([backend/main.py]) and of its scoring companion
    ([backend/rdm_calculator.py]).

    Conventions of the embedding.
    - Python [str] values are Rocq [string]s, read as sequences of bytes;
      [str.lower], [str.upper], [str.strip], [\d], [\s] and [\w] act on
      the ASCII range only.
    - Python [int] is [Z]; Python [float] is an exact rational [Q]
      (rounding error, infinities and NaN are outside the model).
    - [None] is [option]'s [None]; exceptions are the [Raise] constructor
      of [result].
    - Library calls ([re.search], [re.findall], [json.loads], the
      generative client) are modelled next to the code that uses them.
    - What the source leaves to code outside of these files is a
      parameter: the answers of the provider, the results of the
      searches, the message and the conversions of the validation of
      [Product], and the reading of a price text as a float. *)

From Stdlib Require Import String Ascii List Bool Arith ZArith QArith Qround.
From Stdlib Require Import Lia Lqa Permutation Sorted.
Import ListNotations.

Local Close Scope Q_scope.
Local Open Scope string_scope.
Local Open Scope list_scope.
Local Open Scope nat_scope.

Set Implicit Arguments.

(* ================================================================== *)
(** ** Python strings *)
(* ================================================================== *)

Module PyStr.

Definition chars (s : string) : list ascii := list_ascii_of_string s.
Definition of_chars (l : list ascii) : string := string_of_list_ascii l.

Definition code (c : ascii) : nat := nat_of_ascii c.

(** The double quote character. *)
Definition dquote : ascii := ascii_of_nat 34.

Definition is_upper (c : ascii) : bool := (65 <=? code c) && (code c <=? 90).
Definition is_lower (c : ascii) : bool := (97 <=? code c) && (code c <=? 122).
Definition is_digit (c : ascii) : bool := (48 <=? code c) && (code c <=? 57).
Definition is_alpha (c : ascii) : bool := is_upper c || is_lower c.
(** [\w]: letters, digits and the underscore. *)
Definition is_word (c : ascii) : bool :=
  is_alpha c || is_digit c || (code c =? 95).
(** [\s] and [str.strip]: space, \t, \n, \v, \f, \r. *)
Definition is_space (c : ascii) : bool :=
  (code c =? 32) || ((9 <=? code c) && (code c <=? 13)).

Definition lower_char (c : ascii) : ascii :=
  if is_upper c then ascii_of_nat (code c + 32) else c.
Definition upper_char (c : ascii) : ascii :=
  if is_lower c then ascii_of_nat (code c - 32) else c.

Fixpoint lower (s : string) : string :=
  match s with
  | EmptyString => EmptyString
  | String c r => String (lower_char c) (lower r)
  end.

Fixpoint upper (s : string) : string :=
  match s with
  | EmptyString => EmptyString
  | String c r => String (upper_char c) (upper r)
  end.

(** [sub in s]. *)
Fixpoint contains (sub s : string) : bool :=
  prefix sub s ||
  match s with
  | EmptyString => false
  | String _ r => contains sub r
  end.

(** [any(k in s for k in keys)]. *)
Definition any_in (keys : list string) (s : string) : bool :=
  existsb (fun k => contains k s) keys.

(** [s.find(sub)], [None] for -1. *)
Fixpoint find (sub s : string) : option nat :=
  if prefix sub s then Some 0%nat
  else match s with
       | EmptyString => None
       | String _ r => option_map S (find sub r)
       end.

(** [s.count(c)] for a one-character [c]. *)
Fixpoint count_char (c : ascii) (s : string) : nat :=
  match s with
  | EmptyString => 0
  | String d r => (if Ascii.eqb c d then 1 else 0) + count_char c r
  end.

(** [s[i:]] and [s[:n]] for non-negative bounds. *)
Fixpoint drop (i : nat) (s : string) : string :=
  match i, s with
  | O, _ => s
  | S i', String _ r => drop i' r
  | S _, EmptyString => EmptyString
  end.

Fixpoint take (n : nat) (s : string) : string :=
  match n, s with
  | S n', String c r => String c (take n' r)
  | _, _ => EmptyString
  end.

Fixpoint lstrip (s : string) : string :=
  match s with
  | String c r => if is_space c then lstrip r else s
  | EmptyString => EmptyString
  end.

Definition rev (s : string) : string := of_chars (List.rev (chars s)).
Definition rstrip (s : string) : string := rev (lstrip (rev s)).
Definition strip (s : string) : string := rstrip (lstrip s).

(** [sep.join(l)]. *)
Fixpoint join (sep : string) (l : list string) : string :=
  match l with
  | [] => EmptyString
  | [x] => x
  | x :: r => x ++ sep ++ join sep r
  end.

(** [c * n]. *)
Fixpoint repeat_char (c : ascii) (n : nat) : string :=
  match n with
  | O => EmptyString
  | S n' => String c (repeat_char c n')
  end.

(** [int(s)] for a string of decimal digits. *)
Definition digit_val (c : ascii) : Z := Z.of_nat (code c - 48).

Definition int_of_digits (s : string) : Z :=
  fold_left (fun acc c => 10 * acc + digit_val c)%Z (chars s) 0%Z.

(** [float(s)] for [digits] or [digits.digits]. *)
Fixpoint split_dot (s : string) : string * option string :=
  match s with
  | EmptyString => (EmptyString, None)
  | String c r =>
      if Ascii.eqb c "."%char then (EmptyString, Some r)
      else let '(a, b) := split_dot r in (String c a, b)
  end.

Definition float_of_decimal (s : string) : Q :=
  match split_dot s with
  | (a, None) => inject_Z (int_of_digits a)
  | (a, Some b) =>
      inject_Z (int_of_digits a)
      + inject_Z (int_of_digits b) / inject_Z (10 ^ Z.of_nat (String.length b))
  end.

(** [str(n)] for a natural number. *)
Fixpoint digits_of (fuel n : nat) (acc : string) : string :=
  match fuel with
  | O => acc
  | S f =>
      let acc' := String (ascii_of_nat (48 + n mod 10)) acc in
      if n <? 10 then acc' else digits_of f (n / 10) acc'
  end.

Definition str_of_nat (n : nat) : string := digits_of (S n) n EmptyString.

(** [s.replace(old, '')]: the occurrences of [old] are taken out, from
    left to right; nothing changes when [old] is empty. *)
Fixpoint remove_from (fuel : nat) (old s : string) : string :=
  match fuel with
  | O => s
  | S f =>
      match s with
      | EmptyString => EmptyString
      | String c r =>
          if prefix old s then remove_from f old (drop (String.length old) s)
          else String c (remove_from f old r)
      end
  end.

Definition remove_all (old s : string) : string :=
  match old with
  | EmptyString => s
  | _ => remove_from (String.length s) old s
  end.

(** [s.replace(a, b)] for one-character [a] and [b]. *)
Fixpoint replace_char (a b : ascii) (s : string) : string :=
  match s with
  | EmptyString => EmptyString
  | String c r => String (if Ascii.eqb c a then b else c) (replace_char a b r)
  end.

(** [s.split()[0]], [None] when [s.split()] is empty. *)
Fixpoint take_word (s : string) : string :=
  match s with
  | EmptyString => EmptyString
  | String c r => if is_space c then EmptyString else String c (take_word r)
  end.

Definition first_word (s : string) : option string :=
  match lstrip s with
  | EmptyString => None
  | w => Some (take_word w)
  end.

(** [s.rfind(c)] for a one-character [c]; [None] is -1. *)
Fixpoint rfind_char (c : ascii) (s : string) : option nat :=
  match s with
  | EmptyString => None
  | String d r =>
      match rfind_char c r with
      | Some i => Some (S i)
      | None => if Ascii.eqb c d then Some 0 else None
      end
  end.

End PyStr.

(* ================================================================== *)
(** ** Regular expressions ([re.search], [re.findall], [re.sub])

    A backtracking matcher with Python's priorities: alternatives are
    tried left to right, quantifiers are greedy (the star with a
    question mark takes as little as it can), the leftmost match
    wins.  Patterns are written as syntax trees next to the source
    pattern they translate. *)
(* ================================================================== *)

Module Regex.

Inductive regex : Type :=
| Eps : regex
| Chr : (ascii -> bool) -> regex          (* one character of a class *)
| Seq : regex -> regex -> regex
| Alt : regex -> regex -> regex
| Star : regex -> regex                   (* r*  *)
| Rep : nat -> nat -> regex -> regex      (* r{lo,hi} *)
| Group : nat -> regex -> regex           (* capturing group number n *)
| Eos : regex                             (* $ *)
| LazyStar : regex -> regex.              (* r*?  *)

Definition captures := list (nat * list ascii).

Fixpoint get_cap (n : nat) (cs : captures) : option (list ascii) :=
  match cs with
  | [] => None
  | (m, v) :: r => if Nat.eqb n m then Some v else get_cap n r
  end.

Section Match.
Variable A : Type.

(** [rmatch r s cs k]: match [r] at the head of [s], then continue with
    [k] on the rest; [None] makes the matcher backtrack. *)
Fixpoint rmatch (r : regex) (s : list ascii) (cs : captures)
  (k : list ascii -> captures -> option A) {struct r} : option A :=
  match r with
  | Eps => k s cs
  | Chr p =>
      match s with
      | c :: s' => if p c then k s' cs else None
      | [] => None
      end
  | Seq a b => rmatch a s cs (fun s1 cs1 => rmatch b s1 cs1 k)
  | Alt a b =>
      match rmatch a s cs k with
      | Some x => Some x
      | None => rmatch b s cs k
      end
  | Star a =>
      (fix loop (fuel : nat) (s : list ascii) (cs : captures) : option A :=
         match fuel with
         | O => k s cs
         | S f =>
             match rmatch a s cs
                     (fun s1 cs1 =>
                        if length s1 <? length s then loop f s1 cs1 else None)
             with
             | Some x => Some x
             | None => k s cs
             end
         end) (length s) s cs
  | Rep lo hi a =>
      let upto :=
        fix upto (n : nat) (s : list ascii) (cs : captures) : option A :=
          match n with
          | O => k s cs
          | S n' =>
              match rmatch a s cs (fun s1 cs1 => upto n' s1 cs1) with
              | Some x => Some x
              | None => k s cs
              end
          end in
      (fix exactly (n : nat) (s : list ascii) (cs : captures) : option A :=
         match n with
         | O => upto (hi - lo) s cs
         | S n' => rmatch a s cs (fun s1 cs1 => exactly n' s1 cs1)
         end) lo s cs
  | Group n a =>
      rmatch a s cs
        (fun s1 cs1 => k s1 ((n, firstn (length s - length s1) s) :: cs1))
  | Eos =>
      match s with
      | [] => k s cs
      | [c] => if Nat.eqb (PyStr.code c) 10 then k s cs else None
      | _ => None
      end
  | LazyStar a =>
      (fix loop (fuel : nat) (s : list ascii) (cs : captures) : option A :=
         match k s cs with
         | Some x => Some x
         | None =>
             match fuel with
             | O => None
             | S f =>
                 rmatch a s cs
                   (fun s1 cs1 =>
                      if length s1 <? length s then loop f s1 cs1 else None)
             end
         end) (length s) s cs
  end.

End Match.

(** A match object: the offset of the match, the matched text and the
    groups. *)
Record match_obj : Type := {
  m_start : nat;
  m_text : list ascii;
  m_caps : captures
}.

Definition match_at (r : regex) (s : list ascii) : option (list ascii * captures) :=
  rmatch r s [] (fun s1 cs => Some (firstn (length s - length s1) s, cs)).

(** [re.search]: the first position where the pattern matches. *)
Fixpoint search_from (r : regex) (off : nat) (s : list ascii) : option match_obj :=
  match match_at r s with
  | Some (t, cs) => Some {| m_start := off; m_text := t; m_caps := cs |}
  | None =>
      match s with
      | [] => None
      | _ :: s' => search_from r (S off) s'
      end
  end.

Definition search (r : regex) (s : string) : option match_obj :=
  search_from r 0 (PyStr.chars s).

(** [m.group(n)]. *)
Definition group (n : nat) (m : match_obj) : option string :=
  option_map PyStr.of_chars (get_cap n (m_caps m)).

(** [re.findall] for a pattern with one group: the texts of group 1 of
    the successive non-overlapping matches. *)
Fixpoint findall_from (fuel : nat) (r : regex) (s : list ascii) : list string :=
  match fuel with
  | O => []
  | S f =>
      match match_at r s with
      | Some (t, cs) =>
          let g := match get_cap 1 cs with
                   | Some v => PyStr.of_chars v
                   | None => EmptyString
                   end in
          match t, s with
          | [], [] => [g]
          | [], _ :: s' => g :: findall_from f r s'
          | _ :: _, _ => g :: findall_from f r (skipn (length t) s)
          end
      | None =>
          match s with
          | [] => []
          | _ :: s' => findall_from f r s'
          end
      end
  end.

Definition findall (r : regex) (s : string) : list string :=
  findall_from (S (String.length s)) r (PyStr.chars s).

(** [re.sub(pattern, '', s)]: every match is removed. *)
Fixpoint remove_from (fuel : nat) (r : regex) (s : list ascii) : list ascii :=
  match fuel with
  | O => s
  | S f =>
      match match_at r s with
      | Some ((_ :: _) as t, _) => remove_from f r (skipn (length t) s)
      | _ =>
          match s with
          | [] => []
          | c :: s' => c :: remove_from f r s'
          end
      end
  end.

Definition sub_remove (r : regex) (s : string) : string :=
  PyStr.of_chars (remove_from (S (String.length s)) r (PyStr.chars s)).

(** *** Pattern builders *)

Definition lit (c : ascii) : regex := Chr (Ascii.eqb c).
(** A literal under [re.IGNORECASE]. *)
Definition lit_i (c : ascii) : regex :=
  Chr (fun d => Ascii.eqb (PyStr.lower_char c) (PyStr.lower_char d)).

Fixpoint str (s : string) : regex :=
  match s with
  | EmptyString => Eps
  | String c EmptyString => lit c
  | String c r => Seq (lit c) (str r)
  end.

Fixpoint str_i (s : string) : regex :=
  match s with
  | EmptyString => Eps
  | String c EmptyString => lit_i c
  | String c r => Seq (lit_i c) (str_i r)
  end.

Definition digit : regex := Chr PyStr.is_digit.       (* \d *)
Definition space : regex := Chr PyStr.is_space.       (* \s *)
Definition word : regex := Chr PyStr.is_word.         (* \w *)
Definition anychar : regex := Chr (fun _ => true).    (* [\s\S] *)
Definition Plus (r : regex) : regex := Seq r (Star r).
Definition Opt (r : regex) : regex := Alt r Eps.

Fixpoint seqs (l : list regex) : regex :=
  match l with
  | [] => Eps
  | [r] => r
  | r :: l' => Seq r (seqs l')
  end.

Fixpoint alts (l : list regex) : regex :=
  match l with
  | [] => Chr (fun _ => false)
  | [r] => r
  | r :: l' => Alt r (alts l')
  end.

End Regex.

(* ================================================================== *)
(** ** The decision-metric engine ([backend/rdm_calculator.py]) *)
(* ================================================================== *)

Module Rdm.
Import Regex.

Local Open Scope Q_scope.

(** *** Helpers *)

Definition Qeqb (x y : Q) : bool := Qeq_bool x y.
Definition Qleb (x y : Q) : bool := Qle_bool x y.
Definition Qltb (x y : Q) : bool := negb (Qle_bool y x).

Definition Qmin (x y : Q) : Q := if Qleb x y then x else y.
Definition Qmax (x y : Q) : Q := if Qleb x y then y else x.

(** [min(values)] and [max(values)] of a non-empty list. *)
Definition list_min (x : Q) (l : list Q) : Q := fold_left Qmin l x.
Definition list_max (x : Q) (l : list Q) : Q := fold_left Qmax l x.

Definition _safe_range (values : list Q) (default_min default_max : Q) : Q * Q :=
  match values with
  | [] => (default_min, default_max)
  | v :: r =>
      let vmin := list_min v r in
      let vmax := list_max v r in
      if Qeqb vmax vmin then (vmin, vmin + 1) else (vmin, vmax)
  end.

Definition _normalize (value : option Q) (vmin vmax : Q) (default : Q) : Q :=
  match value with
  | None => default
  | Some v =>
      if Qeqb vmax vmin then default
      else Qmax 0 (Qmin 100 (100 * (v - vmin) / (vmax - vmin)))
  end.

(** [round(x, 1)]: to one decimal, halves to the even neighbour. *)
Definition round_half_even (x : Q) : Z :=
  let f := Qfloor x in
  let d := x - inject_Z f in
  if Qltb d (1 # 2) then f
  else if Qltb (1 # 2) d then (f + 1)%Z
  else if Z.even f then f else (f + 1)%Z.

Definition round1 (x : Q) : Q := inject_Z (round_half_even (x * 10)) / 10.

(** *** Spec extraction *)

Record details : Type := {
  ram_gb : option Z;
  storage_gb : option Z;
  storage_type : option string;
  battery_mah : option Z;
  display_size : option Q;
  display_type : option string;
  processor : option string;
  warranty_years : option Z;
  energy_star : option Z;
  performance_score : Z
}.

(** [(\d+)\s*gb\s*(?:ram|ddr)] *)
Definition re_ram : regex :=
  seqs [Group 1 (Plus digit); Star space; str_i "gb"; Star space;
        alts [str_i "ram"; str_i "ddr"]].

(** [(\d+)\s*(tb|gb)\s*(?:ssd|hdd|storage|emmc)?] *)
Definition re_storage : regex :=
  seqs [Group 1 (Plus digit); Star space;
        Group 2 (alts [str_i "tb"; str_i "gb"]); Star space;
        Opt (alts [str_i "ssd"; str_i "hdd"; str_i "storage"; str_i "emmc"])].

(** [(\d{3,5})\s*mAh] *)
Definition re_mah : regex :=
  seqs [Group 1 (Rep 3 5 digit); Star space; str_i "mAh"].

(** [(\d{2,3})\s*whr] *)
Definition re_whr : regex :=
  seqs [Group 1 (Rep 2 3 digit); Star space; str_i "whr"].

(** [(\d{1,2}(?:\.\d{1,2})?)\s*(?:Q|inch|in)], with the double quote
    character in the place of [Q]. *)
Definition re_display : regex :=
  seqs [Group 1 (Seq (Rep 1 2 digit) (Opt (Seq (lit ".") (Rep 1 2 digit))));
        Star space;
        alts [lit PyStr.dquote; str_i "inch"; str_i "in"]].

(** [4k|uhd], [qhd|2k], [fhd|full\s*hd|1080], [hd\s*(ready)?|720] *)
Definition re_4k : regex := alts [str_i "4k"; str_i "uhd"].
Definition re_qhd : regex := alts [str_i "qhd"; str_i "2k"].
Definition re_fhd : regex :=
  alts [str_i "fhd"; seqs [str_i "full"; Star space; str_i "hd"]; str_i "1080"].
Definition re_hd : regex :=
  alts [seqs [str_i "hd"; Star space; Opt (Group 1 (str_i "ready"))]; str_i "720"].

Definition processor_patterns : list regex :=
  [ (* (snapdragon\s+\d+\s*(?:gen\s*\d+)?) *)
    Group 1 (seqs [str_i "snapdragon"; Plus space; Plus digit; Star space;
                   Opt (seqs [str_i "gen"; Star space; Plus digit])]);
    (* (mediatek\s+dimensity\s*\d+) *)
    Group 1 (seqs [str_i "mediatek"; Plus space; str_i "dimensity";
                   Star space; Plus digit]);
    (* (mediatek\s+\w+\d+) *)
    Group 1 (seqs [str_i "mediatek"; Plus space; Plus word; Plus digit]);
    (* (apple\s+[am]\d+) *)
    Group 1 (seqs [str_i "apple"; Plus space;
                   alts [lit_i "a"; lit_i "m"]; Plus digit]);
    (* (intel\s+core\s+i\d+) *)
    Group 1 (seqs [str_i "intel"; Plus space; str_i "core"; Plus space;
                   lit_i "i"; Plus digit]);
    (* (amd\s+ryzen\s+\d+) *)
    Group 1 (seqs [str_i "amd"; Plus space; str_i "ryzen"; Plus space;
                   Plus digit]);
    (* (exynos\s*\d+) *)
    Group 1 (seqs [str_i "exynos"; Star space; Plus digit]) ].

(** [(\d+)\s*(year|yr)] *)
Definition re_warranty : regex :=
  seqs [Group 1 (Plus digit); Star space;
        Group 2 (alts [str_i "year"; str_i "yr"])].

(** [(\d)\s*star] *)
Definition re_star : regex := seqs [Group 1 digit; Star space; str_i "star"].

Definition is_match (r : regex) (text : string) : bool :=
  match search r text with Some _ => true | None => false end.

(** The inner helper [_extract_int]. *)
Definition _extract_int (text : string) (pattern : regex) : option Z :=
  match search pattern text with
  | Some m => option_map PyStr.int_of_digits (group 1 m)
  | None => None
  end.

(** The first pattern of the list that matches gives the processor. *)
Fixpoint first_processor (pats : list regex) (text : string) : option string :=
  match pats with
  | [] => None
  | pat :: rest =>
      match search pat text with
      | Some m => group 1 m
      | None => first_processor rest text
      end
  end.

Definition in_list (s : string) (l : list string) : bool :=
  existsb (String.eqb s) l.

Definition calculate_performance_score (processor : option string)
  (category : string) : Z :=
  match processor with
  | None => 50
  | Some EmptyString => 50
  | Some proc =>
      let p := PyStr.upper proc in
      let has k := PyStr.contains k p in
      if in_list category ["smartphone"; "phone"] then
        if has "SNAPDRAGON 8" || has "APPLE A1" || has "DIMENSITY 9" then 95
        else if has "SNAPDRAGON 7" || has "DIMENSITY 8" then 85
        else if has "SNAPDRAGON 6" || has "DIMENSITY 7" then 75
        else if has "SNAPDRAGON 4" || has "DIMENSITY 6" then 65
        else 60
      else if String.eqb category "laptop" then
        if has "I9" || has "RYZEN 9" then 95
        else if has "I7" || has "RYZEN 7" then 85
        else if has "I5" || has "RYZEN 5" then 75
        else if has "I3" || has "RYZEN 3" then 65
        else 60
      else 60
  end%Z.

Definition extract_detailed_specs (title : string) (specs : list string)
  (category : string) : details :=
  let text := PyStr.lower (title ++ " " ++ PyStr.join " " specs) in
  let ram := _extract_int text re_ram in
  let storage_match := search re_storage text in
  let '(sgb, stype) :=
    match storage_match with
    | Some m =>
        let size := match group 1 m with
                    | Some d => PyStr.int_of_digits d
                    | None => 0%Z
                    end in
        let unit := match group 2 m with
                    | Some u => PyStr.lower u
                    | None => EmptyString
                    end in
        (Some (if String.eqb unit "tb" then size * 1024 else size)%Z,
         if PyStr.contains "ssd" text then Some "SSD"
         else if PyStr.contains "hdd" text then Some "HDD"
         else None)
    | None => (None, None)
    end in
  let battery :=
    match _extract_int text re_mah with
    | Some b => Some b
    | None =>
        match _extract_int text re_whr with
        | Some whr =>
            if Z.eqb whr 0 then None
            else Some (Qfloor (inject_Z (whr * 1000) / (38 # 10)))
        | None => None
        end
    end in
  let dsize :=
    match search re_display text with
    | Some m => option_map PyStr.float_of_decimal (group 1 m)
    | None => None
    end in
  let dtype :=
    if is_match re_4k text then Some "4K"
    else if is_match re_qhd text then Some "QHD"
    else if is_match re_fhd text then Some "FHD"
    else if is_match re_hd text then Some "HD"
    else None in
  let proc := first_processor processor_patterns text in
  let warranty :=
    match search re_warranty text with
    | Some m => option_map PyStr.int_of_digits (group 1 m)
    | None => None
    end in
  let star :=
    match search re_star text with
    | Some m => option_map PyStr.int_of_digits (group 1 m)
    | None => None
    end in
  {| ram_gb := ram;
     storage_gb := sgb;
     storage_type := stype;
     battery_mah := battery;
     display_size := dsize;
     display_type := dtype;
     processor := proc;
     warranty_years := warranty;
     energy_star := star;
     performance_score := calculate_performance_score proc category |}.

Definition c3_title : string :=
  "16GB RAM, 512GB SSD, Core i7 processor, 4500mAh battery".

(** *** Score calculation *)

Definition _ownership_score (warranty_years energy_star : option Z) : Q :=
  let w_score :=
    match warranty_years with
    | Some w =>
        if (3 <=? w)%Z then 100
        else if (w =? 2)%Z then 70
        else if (w =? 1)%Z then 40
        else 20
    | None => 0
    end in
  let e_score :=
    match energy_star with
    | Some e => inject_Z (20 * e)
    | None => 0
    end in
  match warranty_years, energy_star with
  | Some _, Some _ => (w_score + e_score) / 2
  | Some _, None => w_score
  | None, Some _ => e_score
  | None, None => 40
  end.

(** The [ranges] dictionary; a pair stays [None] where the source
    leaves both of its entries at [None]. *)
Record ranges : Type := {
  r_ram : option (Q * Q);
  r_storage : option (Q * Q);
  r_battery : option (Q * Q);
  r_size : option (Q * Q)
}.

(** [_normalize(value, ranges[lo], ranges[hi])]: with both bounds [None]
    the test [vmax == vmin] holds and the default is returned. *)
Definition normalize_in (value : option Q) (r : option (Q * Q)) : Q :=
  match r with
  | Some (vmin, vmax) => _normalize value vmin vmax 50
  | None => 50
  end.

Definition optZ (v : option Z) : option Q := option_map inject_Z v.

Definition display_score_of (display_type : option string) : Q :=
  match display_type with
  | Some t =>
      if String.eqb t "4K" then 100
      else if String.eqb t "QHD" then 80
      else if String.eqb t "FHD" then 60
      else 50
  | None => 50
  end.

Definition storage_type_score_of (storage_type : option string) : Q :=
  match storage_type with
  | Some t =>
      if String.eqb t "SSD" then 100
      else if String.eqb t "HDD" then 60
      else 50
  | None => 50
  end.

Definition _feature_score (d : details) (category : string) (rg : ranges) : Q :=
  let perf := inject_Z (if (performance_score d =? 0)%Z then 50
                        else performance_score d) in
  if in_list category ["smartphone"; "phone"] then
    let ram := normalize_in (optZ (ram_gb d)) (r_ram rg) in
    let storage := normalize_in (optZ (storage_gb d)) (r_storage rg) in
    let battery := normalize_in (optZ (battery_mah d)) (r_battery rg) in
    0.30 * perf + 0.25 * ram + 0.25 * storage + 0.20 * battery
  else if String.eqb category "laptop" then
    let ram := normalize_in (optZ (ram_gb d)) (r_ram rg) in
    let storage_type_score := storage_type_score_of (storage_type d) in
    let display_score := display_score_of (display_type d) in
    let battery := normalize_in (optZ (battery_mah d)) (r_battery rg) in
    0.30 * perf + 0.25 * ram + 0.20 * storage_type_score
    + 0.15 * display_score + 0.10 * battery
  else if in_list category ["tv"; "monitor"; "display"] then
    let size := normalize_in (display_size d) (r_size rg) in
    let display_score := display_score_of (display_type d) in
    0.5 * display_score + 0.5 * size
  else if in_list category ["ac"; "air conditioner"] then
    _normalize (optZ (energy_star d)) 1 5 50
  else if in_list category
            ["fridge"; "refrigerator"; "washing machine"; "appliance"] then
    _normalize (optZ (energy_star d)) 1 5 50
  else perf.

(** A product dictionary, with the keys the engine reads. *)
Record product : Type := {
  title : string;
  specs : list string;
  price_raw : Z;
  rating_estimate : option Q;
  rating_count_estimate : option Z
}.

(** [{**p, **details}]. *)
Record enriched : Type := {
  base : product;
  det : details
}.

Record breakdown : Type := {
  price_score : Q;
  rating_score : Q;
  review_score : Q;
  feature_score : Q;
  ownership_score : Q
}.

(** An enriched product with its [rdm_score] and [rdm_breakdown]. *)
Record scored : Type := {
  item : enriched;
  rdm_score : Q;
  rdm_breakdown : breakdown
}.

(** Truth value of an optional number. *)
Definition truthyZ (v : option Z) : bool :=
  match v with Some n => negb (n =? 0)%Z | None => false end.
Definition truthyQ (v : option Q) : bool :=
  match v with Some q => negb (Qeqb q 0) | None => false end.

Definition enrich (category : string) (p : product) : enriched :=
  {| base := p; det := extract_detailed_specs (title p) (specs p) category |}.

Definition price_of (e : enriched) : Q := inject_Z (price_raw (base e)) / 100.

Definition prices_of (es : list enriched) : list Q :=
  map price_of (filter (fun e => negb (price_raw (base e) =? 0)%Z) es).

(** The loop that collects [reviews]. *)
Definition reviews_of (es : list enriched) : list Z :=
  flat_map
    (fun e =>
       let rc := match rating_count_estimate (base e) with
                 | None =>
                     if truthyQ (rating_estimate (base e)) then Some 10%Z
                     else None
                 | Some c => Some c
                 end in
       match rc with
       | Some c => if (c =? 0)%Z then [] else [c]
       | None => []
       end) es.

(** The values of an optional integer attribute that are present and
    non-zero. *)
Definition present (f : details -> option Z) (es : list enriched) : list Q :=
  flat_map
    (fun e => match f (det e) with
              | Some n => if (n =? 0)%Z then [] else [inject_Z n]
              | None => []
              end) es.

Definition present_size (es : list enriched) : list Q :=
  flat_map
    (fun e => match display_size (det e) with
              | Some q => if Qeqb q 0 then [] else [q]
              | None => []
              end) es.

Definition build_ranges (category : string) (es : list enriched) : ranges :=
  if in_list category ["smartphone"; "phone"] then
    {| r_ram := Some (_safe_range (present ram_gb es) 4 12);
       r_storage := Some (_safe_range (present storage_gb es) 64 512);
       r_battery := Some (_safe_range (present battery_mah es) 4000 6000);
       r_size := None |}
  else if String.eqb category "laptop" then
    {| r_ram := Some (_safe_range (present ram_gb es) 8 32);
       r_storage := Some (_safe_range (present storage_gb es) 256 2048);
       r_battery := Some (_safe_range (present battery_mah es) 3000 8000);
       r_size := None |}
  else
    {| r_ram := Some (_safe_range (present ram_gb es) 4 16);
       r_storage := Some (_safe_range (present storage_gb es) 64 512);
       r_battery := Some (_safe_range (present battery_mah es) 4000 6000);
       r_size := Some (_safe_range (present_size es) 6 55) |}.

(** [max(review_counts_valid) if review_counts_valid else 0]. *)
Definition max_or_zero (l : list Z) : Z :=
  match l with
  | [] => 0
  | c :: r => fold_left Z.max r c
  end.

(** Stable sort by descending key ([list.sort(key=..., reverse=True)]). *)
Section Sort.
Variable T : Type.
Variable key : T -> Q.

Fixpoint insert_desc (x : T) (l : list T) : list T :=
  match l with
  | [] => [x]
  | y :: r => if Qltb (key x) (key y) then y :: insert_desc x r
              else x :: y :: r
  end.

Fixpoint sort_desc (l : list T) : list T :=
  match l with
  | [] => []
  | x :: r => insert_desc x (sort_desc r)
  end.

End Sort.

Section Scores.

(** [math.log]. *)
Variable log : Q -> Q.

(** The body of the scoring loop, for one product. *)
Definition score_one (category : string) (price_min price_max : Q)
  (review_max : Z) (n_valid : nat) (rg : ranges) (e : enriched) : scored :=
  let p := base e in
  let price := inject_Z (price_raw p) / 100 in
  let rating := match rating_estimate p with
                | Some r => if Qeqb r 0 then 0 else r
                | None => 0
                end in
  let review_cnt :=
    match rating_count_estimate p with
    | None => if Qltb 0 rating then 10%Z else 0%Z
    | Some c => c
    end in
  let price_score :=
    if Qltb price_min price_max
    then 100 * (price_max - price) / (price_max - price_min)
    else 50 in
  let rating_score := 20 * rating in
  let review_score :=
    if (review_max <=? 0)%Z || (n_valid <? 2)%nat || (review_max <? 50)%Z
    then 50
    else if (0 <? review_cnt)%Z
         then 100 * log (inject_Z (1 + review_cnt))
              / log (inject_Z (1 + review_max))
         else 0 in
  let ownership_score :=
    _ownership_score (warranty_years (det e)) (energy_star (det e)) in
  let feature_score := _feature_score (det e) category rg in
  let rdm :=
    if in_list category ["smartphone"; "phone"] then
      0.20 * price_score + 0.25 * rating_score + 0.20 * review_score
      + 0.25 * feature_score + 0.10 * ownership_score
    else if String.eqb category "laptop" then
      0.20 * price_score + 0.25 * rating_score + 0.20 * review_score
      + 0.25 * feature_score + 0.10 * ownership_score
    else
      0.25 * price_score + 0.25 * rating_score + 0.20 * review_score
      + 0.20 * feature_score + 0.10 * ownership_score in
  {| item := e;
     rdm_score := round1 rdm;
     rdm_breakdown :=
       {| price_score := round1 price_score;
          rating_score := round1 rating_score;
          review_score := round1 review_score;
          feature_score := round1 feature_score;
          ownership_score := round1 ownership_score |} |}.

Definition calculate_rdm_scores (products : list product) (category : string)
  : list scored :=
  match products with
  | [] => []
  | _ =>
      let es := map (enrich category) products in
      let '(price_min, price_max) := _safe_range (prices_of es) 1 2 in
      let review_counts_valid :=
        filter (fun r => (1 <=? r)%Z) (reviews_of es) in
      let review_max := max_or_zero review_counts_valid in
      let rg := build_ranges category es in
      sort_desc rdm_score
        (map (score_one category price_min price_max review_max
                (length review_counts_valid) rg) es)
  end.

End Scores.

End Rdm.

(* ================================================================== *)
(** ** Category detection ([call_llm_for_product_names], first part) *)
(* ================================================================== *)

Module Classifier.
Import PyStr.

Definition tab_brands : list string :=
  ["idea"; "galaxy"; "mi"; "lenovo"; "samsung"; "xiaomi"; "realme";
   "kamvas"; "slate"; "smartchoice"].

Definition tab_models : list string :=
  ["idea tab"; "galaxy tab"; "mi tab"; "lenovo tab"; "samsung tab";
   "xiaomi tab"; "realme tab"; "kamvas"; "slate"; "smartchoice"; "pad";
   "xiaomi pad"; "samsung pad"; "mi pad"].

(** The [if]/[elif] chain over [title_lower]; the first rule that holds
    gives the category. *)
Definition category_of_lower (title_lower : string) : string :=
  let has keys := any_in keys title_lower in
  if has ["table"; "desk"; "stand table"; "workstation"]
     && has ["laptop"; "adjustable"; "height"; "foldable"; "portable"]
  then "laptop table/desk"
  else if has ["backpack"; "bag pack"; "rucksack"]
          && has ["laptop"; "notebook"; "macbook"; "15"; "16"; "17"]
  then "laptop backpack"
  else if has ["case"; "cover"; "sleeve"; "bag"; "pouch"; "holder"]
          && has ["laptop"; "notebook"; "macbook"]
  then "laptop accessory"
  else if has ["case"; "cover"; "sleeve"; "pouch"; "holder"; "protector"]
          && has ["phone"; "mobile"; "iphone"; "smartphone"]
  then "phone accessory"
  else if has ["charger"; "adapter"; "cable"; "charging"]
  then "charger/cable"
  else if has ["stand"; "mount"; "holder"] && negb (has ["tv"; "monitor"])
  then "stand/mount"
  else if has ["tablet"; "ipad"; "pad"] || (has ["tab"] && has tab_brands)
  then
    if has ["stand"; "holder"; "mount"] && negb (has tab_models)
    then "stand/mount"
    else "tablet"
  else if has ["laptop"; "notebook"; "chromebook"; "macbook"]
  then "laptop"
  else if has ["keyboard"; "mechanical keyboard"; "gaming keyboard"]
  then "keyboard"
  else if has ["mouse"; "gaming mouse"; "wireless mouse"]
  then "mouse"
  else if has ["phone"; "smartphone"; "mobile"; "iphone"]
  then "smartphone"
  else if has ["speaker"; "soundbar"]
  then "speaker"
  else if has ["earbuds"; "headphones"; "earphones"; "airpods"]
  then "earbuds"
  else if has ["watch"; "smartwatch"]
  then "smartwatch"
  else if has ["monitor"; "display"; "screen"]
  then "monitor"
  else "product".

Definition detect_category (product_title : string) : string :=
  category_of_lower (lower product_title).

(** The categories of the first block of rules (accessories and
    furniture) and those of the host devices. *)
Definition accessory_categories : list string :=
  ["laptop table/desk"; "laptop backpack"; "laptop accessory";
   "phone accessory"; "charger/cable"; "stand/mount"].

Definition device_categories : list string :=
  ["laptop"; "smartphone"; "tablet"].

End Classifier.

(* ================================================================== *)
(** ** JSON values and [json.loads] *)
(* ================================================================== *)

Module Json.
Import PyStr.

(** Numbers keep their lexeme. *)
#[warnings="-register-all"]
Inductive json : Type :=
| JNull : json
| JBool : bool -> json
| JNum : string -> json
| JStr : string -> json
| JArr : list json -> json
| JObj : list (string * json) -> json.

(** Text with double quotes, written here with single quotes. *)
Definition dq (s : string) : string :=
  of_chars (map (fun c => if Ascii.eqb c "'" then dquote else c) (chars s)).

Definition is_ws (c : ascii) : bool :=
  Ascii.eqb c " " || Nat.eqb (code c) 9 || Nat.eqb (code c) 10
  || Nat.eqb (code c) 13.

Fixpoint skip_ws (s : list ascii) : list ascii :=
  match s with
  | c :: r => if is_ws c then skip_ws r else s
  | [] => []
  end.

Definition hex_val (c : ascii) : option nat :=
  if is_digit c then Some (code c - 48)
  else if Nat.leb 97 (code c) && Nat.leb (code c) 102 then Some (code c - 87)
  else if Nat.leb 65 (code c) && Nat.leb (code c) 70 then Some (code c - 55)
  else None.

(** The UTF-8 bytes of a code point of the basic plane. *)
Definition utf8 (n : nat) : list ascii :=
  if Nat.ltb n 128 then [ascii_of_nat n]
  else if Nat.ltb n 2048 then
    [ascii_of_nat (192 + n / 64); ascii_of_nat (128 + n mod 64)]
  else
    [ascii_of_nat (224 + n / 4096); ascii_of_nat (128 + (n / 64) mod 64);
     ascii_of_nat (128 + n mod 64)].

(** The body of a string, after its opening quote.  The accumulator is
    in reverse order. *)
Fixpoint parse_string (s acc : list ascii) : option (string * list ascii) :=
  match s with
  | [] => None
  | c :: r =>
      if Ascii.eqb c dquote then Some (of_chars (List.rev acc), r)
      else if Ascii.eqb c "\" then
        match r with
        | e :: r' =>
            if Ascii.eqb e dquote then parse_string r' (dquote :: acc)
            else if Ascii.eqb e "\" then parse_string r' ("\"%char :: acc)
            else if Ascii.eqb e "/" then parse_string r' ("/"%char :: acc)
            else if Ascii.eqb e "b" then parse_string r' (ascii_of_nat 8 :: acc)
            else if Ascii.eqb e "f" then parse_string r' (ascii_of_nat 12 :: acc)
            else if Ascii.eqb e "n" then parse_string r' (ascii_of_nat 10 :: acc)
            else if Ascii.eqb e "r" then parse_string r' (ascii_of_nat 13 :: acc)
            else if Ascii.eqb e "t" then parse_string r' (ascii_of_nat 9 :: acc)
            else if Ascii.eqb e "u" then
              match r' with
              | h1 :: h2 :: h3 :: h4 :: r'' =>
                  match hex_val h1, hex_val h2, hex_val h3, hex_val h4 with
                  | Some a, Some b, Some c', Some d =>
                      parse_string r''
                        (List.rev (utf8 (((a * 16 + b) * 16 + c') * 16 + d))
                         ++ acc)
                  | _, _, _, _ => None
                  end
              | _ => None
              end
            else None
        | [] => None
        end
      else if Nat.ltb (code c) 32 then None
      else parse_string r (c :: acc)
  end.

(** A number: an optional minus sign, then 0 or a non-zero digit with
    more digits, an optional fraction, an optional exponent. *)
Definition re_number : Regex.regex :=
  Regex.seqs
    [Regex.Opt (Regex.lit "-");
     Regex.Alt (Regex.lit "0")
       (Regex.Seq (Regex.Chr (fun c => is_digit c && negb (Ascii.eqb c "0")))
                  (Regex.Star Regex.digit));
     Regex.Opt (Regex.Seq (Regex.lit ".") (Regex.Plus Regex.digit));
     Regex.Opt (Regex.seqs [Regex.Alt (Regex.lit "e") (Regex.lit "E");
                            Regex.Opt (Regex.Alt (Regex.lit "-") (Regex.lit "+"));
                            Regex.Plus Regex.digit])].

Fixpoint starts_with (p : list ascii) (s : list ascii) : option (list ascii) :=
  match p, s with
  | [], _ => Some s
  | a :: p', b :: s' => if Ascii.eqb a b then starts_with p' s' else None
  | _ :: _, [] => None
  end.

(** The constants and numbers. *)
Definition parse_atom (s : list ascii) : option (json * list ascii) :=
  let try (w : string) (v : json) (k : option (json * list ascii)) :=
    match starts_with (chars w) s with
    | Some r => Some (v, r)
    | None => k
    end in
  try "null" JNull
   (try "true" (JBool true)
     (try "false" (JBool false)
       (match Regex.match_at re_number s with
        | Some (t, _) => Some (JNum (of_chars t), skipn (length t) s)
        | None =>
            try "NaN" (JNum "NaN")
             (try "Infinity" (JNum "Infinity")
               (try "-Infinity" (JNum "-Infinity") None))
        end))).

(** One value at the head of [s]. *)
Fixpoint parse_value (fuel : nat) (s : list ascii) : option (json * list ascii) :=
  match fuel with
  | O => None
  | S f =>
      match s with
      | [] => None
      | c :: r =>
          if Ascii.eqb c dquote then
            match parse_string r [] with
            | Some (v, r') => Some (JStr v, r')
            | None => None
            end
          else if Ascii.eqb c "{" then
            match skip_ws r with
            | "}"%char :: r2 => Some (JObj [], r2)
            | r1 =>
                (fix members (g : nat) (s : list ascii)
                     (acc : list (string * json)) : option (json * list ascii) :=
                   match g with
                   | O => None
                   | S g' =>
                       match s with
                       | q :: s1 =>
                           if Ascii.eqb q dquote then
                             match parse_string s1 [] with
                             | Some (key, s2) =>
                                 match skip_ws s2 with
                                 | ":"%char :: s3 =>
                                     match parse_value f (skip_ws s3) with
                                     | Some (v, s4) =>
                                         match skip_ws s4 with
                                         | "}"%char :: s5 =>
                                             Some (JObj (List.rev ((key, v) :: acc)), s5)
                                         | ","%char :: s5 =>
                                             members g' (skip_ws s5) ((key, v) :: acc)
                                         | _ => None
                                         end
                                     | None => None
                                     end
                                 | _ => None
                                 end
                             | None => None
                             end
                           else None
                       | [] => None
                       end
                   end) f r1 []
            end
          else if Ascii.eqb c "[" then
            match skip_ws r with
            | "]"%char :: r2 => Some (JArr [], r2)
            | r1 =>
                (fix elems (g : nat) (s : list ascii) (acc : list json)
                   : option (json * list ascii) :=
                   match g with
                   | O => None
                   | S g' =>
                       match parse_value f s with
                       | Some (v, s1) =>
                           match skip_ws s1 with
                           | "]"%char :: s2 => Some (JArr (List.rev (v :: acc)), s2)
                           | ","%char :: s2 => elems g' (skip_ws s2) (v :: acc)
                           | _ => None
                           end
                       | None => None
                       end
                   end) f r1 []
            end
          else parse_atom s
      end
  end.

(** [json.loads(text)]; [None] stands for [json.JSONDecodeError]. *)
Definition loads (text : string) : option json :=
  let s := chars text in
  match parse_value (S (length s)) (skip_ws s) with
  | Some (v, r) =>
      match skip_ws r with
      | [] => Some v
      | _ => None
      end
  | None => None
  end.

(** [d.get(key)] on a dictionary built by [loads]: the last binding of
    a repeated key wins. *)
Fixpoint dict_get (key : string) (d : list (string * json)) : option json :=
  match d with
  | [] => None
  | (k, v) :: r =>
      match dict_get key r with
      | Some w => Some w
      | None => if String.eqb k key then Some v else None
      end
  end.

(** [len(d)]: the number of distinct keys. *)
Fixpoint dict_len (d : list (string * json)) : nat :=
  match d with
  | [] => 0
  | (k, _) :: r =>
      (if existsb (fun kv => String.eqb k (fst kv)) r then 0 else 1)
      + dict_len r
  end.

End Json.

(* ================================================================== *)
(** ** Exceptions *)
(* ================================================================== *)

(** The outcome of a Python call: a value, or an exception with its
    message [str(e)]. *)
Inductive result (A : Type) : Type :=
| Ok : A -> result A
| Raise : string -> result A.

Arguments Ok {A} _.
Arguments Raise {A} _.

Definition bind {A B : Type} (r : result A) (f : A -> result B) : result B :=
  match r with
  | Ok a => f a
  | Raise m => Raise m
  end.

Notation "x <- c1 ;; c2" := (bind c1 (fun x => c2))
  (at level 61, c1 at next level, right associativity).

(* ================================================================== *)
(** ** Candidate names ([call_llm_for_product_names]) *)
(* ================================================================== *)

Module Names.
Import PyStr Json.

(** *** The generative client *)

Inductive FinishReason : Type := STOP | MAX_TOKENS | SAFETY | RECITATION | OTHER.

Definition finish_name (f : FinishReason) : string :=
  match f with
  | STOP => "STOP"
  | MAX_TOKENS => "MAX_TOKENS"
  | SAFETY => "SAFETY"
  | RECITATION => "RECITATION"
  | OTHER => "OTHER"
  end.

Definition finish_value (f : FinishReason) : nat :=
  match f with
  | STOP => 1
  | MAX_TOKENS => 2
  | SAFETY => 3
  | RECITATION => 4
  | OTHER => 5
  end.

(** A candidate of a response: its finish reason (if the attribute is
    there) and the texts of the parts of its content. *)
Record candidate : Type := {
  finish_reason : option FinishReason;
  parts : list string
}.

(** A response; [text] is [None] when the accessor [response.text]
    raises. *)
Record response : Type := {
  candidates : list candidate;
  text : option string
}.

(** What one call of [model.generate_content] does. *)
Inductive outcome : Type :=
| Responded : response -> outcome
| Failed : string -> outcome.

(** What the retry loop does, in order. *)
Inductive event : Type :=
| Call : nat -> nat -> event      (* attempt, key index *)
| Switch : nat -> event           (* new key index *)
| Sleep : nat -> event.           (* delay in seconds *)

(** The number of calls of the provider in a trace. *)
Definition is_call (e : event) : bool :=
  match e with
  | Call _ _ => true
  | _ => false
  end.

Definition count_calls (tr : list event) : nat := length (filter is_call tr).

Section Provider.

(** [len(GEMINI_API_KEYS)]. *)
Variable n_keys : nat.
(** [model.generate_content] under the key of the given index, at the
    given attempt. *)
Variable generate_content : nat -> nat -> outcome.
(** The message of the [json.JSONDecodeError] for a text. *)
Variable decode_error : string -> string.

(** *** Retry with backoff and key fallback *)

Definition is_503 (error_msg : string) : bool :=
  contains "503" error_msg || contains "overloaded" (lower error_msg).

Definition is_quota (error_msg : string) : bool :=
  contains "quota" (lower error_msg) || contains "429" error_msg.

(** The loop [for attempt in range(max_retries)], from [attempt] on with
    [fuel] iterations left; [key] is [current_key_index]. *)
Fixpoint retry_loop (max_retries base_delay : nat) (fuel attempt key : nat)
  (last : option string) (tr : list event)
  : result response * nat * list event :=
  match fuel with
  | O =>
      (Raise ("Max retries reached for Gemini API. Last error: "
              ++ match last with Some m => m | None => "Unknown" end),
       key, tr)
  | S fuel' =>
      let tr1 := tr ++ [Call attempt key] in
      match generate_content key attempt with
      | Responded r => (Ok r, key, tr1)
      | Failed error_msg =>
          let is_last_attempt := attempt =? max_retries - 1 in
          if is_quota error_msg && (key <? n_keys - 1) then
            retry_loop max_retries base_delay fuel' (S attempt) (S key)
              (Some error_msg) (tr1 ++ [Switch (S key)])
          else if negb (is_503 error_msg) || is_last_attempt then
            (Raise error_msg, key, tr1)
          else
            retry_loop max_retries base_delay fuel' (S attempt) key
              (Some error_msg) (tr1 ++ [Sleep (base_delay * 2 ^ attempt)])
      end
  end.

Definition retry_gemini_with_backoff (max_retries base_delay key : nat)
  : result response * nat * list event :=
  retry_loop max_retries base_delay max_retries 0 key None [].

(** *** Reading the response *)

Definition finish_reason_name (f : option FinishReason) : string :=
  match f with
  | Some r => finish_name r
  | None => "None"
  end.

Definition is_safety (f : option FinishReason) : bool :=
  String.eqb (finish_reason_name f) "SAFETY"
  || match f with Some r => finish_value r =? 3 | None => false end.

(** [response.text], or the joined texts of the parts. *)
Definition response_text (r : response) (c : candidate) : option string :=
  match text r with
  | Some t => Some t
  | None =>
      match filter (fun p => negb (String.eqb p EmptyString)) (parts c) with
      | [] => None
      | text_parts => Some (join EmptyString text_parts)
      end
  end.

(** *** Tolerant parsing of the text *)

(** Three backquotes, an optional [json], spaces, then group 1: all the
    rest. *)
Definition re_fence : Regex.regex :=
  Regex.seqs [Regex.str "```"; Regex.Opt (Regex.str "json");
              Regex.Star Regex.space; Regex.Group 1 (Regex.Star Regex.anychar)].

(** Three backquotes and spaces at the end of the text. *)
Definition re_fence_end : Regex.regex :=
  Regex.seqs [Regex.str "```"; Regex.Star Regex.space; Regex.Eos].

Definition json_text_of (text : string) : string :=
  match Regex.search re_fence text with
  | Some m =>
      let json_text := strip (match Regex.group 1 m with
                              | Some g => g
                              | None => EmptyString
                              end) in
      strip (Regex.sub_remove re_fence_end json_text)
  | None =>
      match find "{" text with
      | Some json_start => drop json_start text
      | None => text
      end
  end.

(** The loop over [json_text[start_idx:]] that looks for a complete root
    object; [body] is that slice and [j] the offset in it. *)
Fixpoint scan_root (body : string) (rest : list ascii) (j : nat) (depth : Z)
  : option json :=
  match rest with
  | [] => None
  | c :: r =>
      if Ascii.eqb c "{" then scan_root body r (S j) (depth + 1)%Z
      else if Ascii.eqb c "}" then
        let depth' := (depth - 1)%Z in
        if (depth' =? 0)%Z then
          match loads (take (S j) body) with
          | Some v => Some v
          | None => scan_root body r (S j) depth'
          end
        else scan_root body r (S j) depth'
      else scan_root body r (S j) depth
  end.

(** [data is None]. *)
Definition is_None (data : option json) : bool :=
  match data with
  | None | Some JNull => true
  | Some _ => false
  end.

Definition complete_json (json_text : string) : option string :=
  let open_braces := count_char "{" json_text in
  let close_braces := count_char "}" json_text in
  if close_braces <? open_braces then
    let missing_braces := open_braces - close_braces in
    let completed_json :=
      if contains (dq "'alternatives': [") json_text
         && (count_char "]" json_text <? count_char "[" json_text)
      then (json_text ++ "]")%string else json_text in
    Some (completed_json ++ repeat_char "}" missing_braces)%string
  else None.

Definition parse_json_text (json_text : string) : result json :=
  match loads json_text with
  | Some data => Ok data
  | None =>
      let data :=
        match find "{" json_text with
        | Some start_idx =>
            let body := drop start_idx json_text in
            scan_root body (chars body) 0 0%Z
        | None => None
        end in
      let data :=
        if is_None data then
          match complete_json json_text with
          | Some completed_json => loads completed_json
          | None => data
          end
        else data in
      match data with
      | Some (JNull) | None =>
          Raise ("Could not extract or fix JSON from AI response. Error: "
                 ++ decode_error json_text)
      | Some d => Ok d
      end
  end.

(** *** The list of names *)

Definition is_float_lexeme (n : string) : bool :=
  contains "." n || contains "e" n || contains "E" n || contains "N" n
  || contains "I" n.

(** [len(v)]. *)
Definition py_len (v : json) : result nat :=
  match v with
  | JArr l => Ok (length l)
  | JStr s => Ok (String.length s)
  | JObj d => Ok (dict_len d)
  | JNull => Raise "object of type 'NoneType' has no len()"
  | JBool _ => Raise "object of type 'bool' has no len()"
  | JNum n =>
      if is_float_lexeme n then Raise "object of type 'float' has no len()"
      else Raise "object of type 'int' has no len()"
  end.

(** [v.append(x)]. *)
Definition py_append (v : json) (x : json) : result json :=
  match v with
  | JArr l => Ok (JArr (l ++ [x]))
  | JStr _ => Raise "'str' object has no attribute 'append'"
  | JObj _ => Raise "'dict' object has no attribute 'append'"
  | JNull => Raise "'NoneType' object has no attribute 'append'"
  | JBool _ => Raise "'bool' object has no attribute 'append'"
  | JNum n =>
      if is_float_lexeme n then Raise "'float' object has no attribute 'append'"
      else Raise "'int' object has no attribute 'append'"
  end.

(** [v[:n]]. *)
Definition py_slice (v : json) (n : nat) : result json :=
  match v with
  | JArr l => Ok (JArr (firstn n l))
  | JStr s => Ok (JStr (take n s))
  | JObj _ => Raise "unhashable type: 'slice'"
  | JNull => Raise "'NoneType' object is not subscriptable"
  | JBool _ => Raise "'bool' object is not subscriptable"
  | JNum n =>
      if is_float_lexeme n then Raise "'float' object is not subscriptable"
      else Raise "'int' object is not subscriptable"
  end.

(** The items that [for name in v] visits. *)
Definition py_items (v : json) : list json :=
  match v with
  | JArr l => l
  | JStr s => map (fun c => JStr (String c EmptyString)) (chars s)
  | JObj d => map (fun kv => JStr (fst kv)) d
  | _ => []
  end.

Definition placeholder (category : string) (n : nat) : json :=
  JStr ("Alternative " ++ category ++ " " ++ str_of_nat (n + 1)).

(** [while len(product_names) < 3: product_names.append(...)]; three
    rounds are enough for a list. *)
Fixpoint pad_names (fuel : nat) (category : string) (product_names : json)
  : result json :=
  n <- py_len product_names ;;
  if n <? 3 then
    match fuel with
    | O => Ok product_names
    | S f =>
        v <- py_append product_names (placeholder category n) ;;
        pad_names f category v
    end
  else Ok product_names.

(** [data.get('product_names', [])] and the two size rules. *)
Definition names_of_data (category : string) (data : json) : result json :=
  match data with
  | JObj d =>
      let product_names := match dict_get "product_names" d with
                           | Some v => v
                           | None => JArr []
                           end in
      product_names <- pad_names 3 category product_names ;;
      n <- py_len product_names ;;
      if 6 <? n then py_slice product_names 6 else Ok product_names
  | JArr _ => Raise "'list' object has no attribute 'get'"
  | JStr _ => Raise "'str' object has no attribute 'get'"
  | JNull => Raise "'NoneType' object has no attribute 'get'"
  | JBool _ => Raise "'bool' object has no attribute 'get'"
  | JNum n =>
      if is_float_lexeme n then Raise "'float' object has no attribute 'get'"
      else Raise "'int' object has no attribute 'get'"
  end.

(** The body of the [try] block after the call of the provider. *)
Definition names_of_response (category : string) (r : response)
  : result (string * json) :=
  match candidates r with
  | [] =>
      Raise "Gemini API: No response candidates returned (likely safety filter)"
  | candidate :: _ =>
      if is_safety (finish_reason candidate)
      then Raise "Gemini API: Response blocked by safety filter"
      else
        let text := response_text r candidate in
        match text with
        | None =>
            Raise ("Gemini API: Empty response text (finish_reason: "
                   ++ finish_reason_name (finish_reason candidate) ++ ")")
        | Some text =>
            if String.length (strip text) =? 0
            then Raise ("Gemini API: Empty response text (finish_reason: "
                        ++ finish_reason_name (finish_reason candidate) ++ ")")
            else
              data <- parse_json_text (json_text_of text) ;;
              product_names <- names_of_data category data ;;
              Ok (category, product_names)
        end
  end.

(** [call_llm_for_product_names]: the result, the key index it leaves
    and the trace of the retry loop. *)
Definition call_llm_for_product_names (product_title : string) (key : nat)
  : result (string * json) * nat * list event :=
  let category := Classifier.detect_category product_title in
  let '(r, key', tr) := retry_gemini_with_backoff 3 2 key in
  (response <- r ;; names_of_response category response, key', tr).

End Provider.

End Names.

(* ================================================================== *)
(** ** The stages of [get_recommendations] and the enrichment *)
(* ================================================================== *)

Module Pipeline.
Import PyStr Json Names.

(** *** Step 2: candidate names, with the fallbacks *)

Definition is_quota_error (error_msg : string) : bool :=
  contains "quota" (lower error_msg) || contains "429" error_msg
  || contains "rate limit" (lower error_msg).

Definition names (l : list string) : json := JArr (map JStr l).

(** The [except] branch: a category and a static list of names. *)
Definition fallback_names (product_title error_msg : string) : string * json :=
  let title_lower := lower product_title in
  let has keys := any_in keys title_lower in
  if is_quota_error error_msg then
    if has ["tablet"; "ipad"; "pad"]
       || (has ["tab"] && has ["idea"; "galaxy"; "lenovo"; "xiaomi"; "samsung"])
    then ("tablet",
          names ["Samsung Galaxy Tab A9"; "Lenovo Tab M10"; "Xiaomi Pad 6";
                 "Realme Pad 2"; "Apple iPad 10th Gen"; "OnePlus Pad"])
    else if has ["laptop"; "notebook"]
    then ("laptop",
          names ["HP Pavilion 15"; "Dell Inspiron 15"; "Lenovo IdeaPad 3";
                 "ASUS VivoBook 15"; "Acer Aspire 5"; "MSI Modern 15"])
    else if has ["phone"; "smartphone"; "mobile"]
    then ("smartphone",
          names ["Samsung Galaxy A54"; "OnePlus Nord 3"; "Xiaomi Redmi Note 13";
                 "Realme 12 Pro"; "Vivo V29"; "OPPO Reno 11"])
    else if has ["speaker"; "soundbar"]
    then ("speaker",
          names ["JBL Flip 6"; "Sony SRS-XB100"; "boAt Stone 1200";
                 "Bose SoundLink Flex"; "Mivi Roam 2";
                 "Ultimate Ears WONDERBOOM 3"])
    else ("product",
          names [(product_title ++ " Alternative 1")%string;
                 (product_title ++ " Alternative 2")%string;
                 (product_title ++ " Alternative 3")%string;
                 (product_title ++ " Alternative 4")%string;
                 (product_title ++ " Alternative 5")%string])
  else
    if has ["laptop"; "notebook"]
    then ("laptop",
          names ["HP Pavilion 15"; "Dell Inspiron 15"; "Lenovo IdeaPad 3"])
    else if has ["tablet"; "ipad"; "pad"]
    then ("tablet",
          names ["Samsung Galaxy Tab A9"; "Lenovo Tab M10"; "Xiaomi Pad 6"])
    else ("product",
          names [(product_title ++ " Alternative 1")%string;
                 (product_title ++ " Alternative 2")%string;
                 (product_title ++ " Alternative 3")%string]).

Section Provider.

Variable n_keys : nat.
Variable generate_content : nat -> nat -> outcome.
Variable decode_error : string -> string.

(** The [try] block: the call, then [len(product_names)] and
    [product_names[:3]] for the log line. *)
Definition try_names (product_title : string) (key : nat)
  : result (string * json) * nat * list event :=
  let '(r, key', tr) :=
    call_llm_for_product_names n_keys generate_content decode_error
      product_title key in
  (llm_output <- r ;;
   let '(category, product_names) := llm_output in
   _ <- py_len product_names ;;
   _ <- py_slice product_names 3 ;;
   Ok (category, product_names),
   key', tr).

(** The code after the [try]: [num_products] and the names that are
    searched, [product_names[:num_products]]. *)
Definition searched_names (out : string * json)
  : result (string * nat * list json) :=
  let '(category, product_names) := out in
  n <- py_len product_names ;;
  let num_products := Nat.min n 6 in
  product_names <-
    (if num_products <? 3 then pad_names 3 category product_names
     else Ok product_names) ;;
  searched <- py_slice product_names num_products ;;
  Ok (category, num_products, py_items searched).

(** Step 2 as a whole: the names from the provider or, when the [try]
    block raises, the fallback names. *)
Definition candidate_names (product_title : string) (key : nat)
  : result (string * nat * list json) * nat * list event :=
  let '(r, key', tr) := try_names product_title key in
  (searched_names
     match r with
     | Ok out => out
     | Raise error_msg => fallback_names product_title error_msg
     end,
   key', tr).

End Provider.

(** *** Step 5: the quality filter *)

Record Product : Type := {
  id : string;
  brand : string;
  model : string;
  title : string;
  image_url : string;
  price_estimate : string;
  price_raw : Z;
  rating_estimate : option Q;
  rating_count_estimate : option Z;
  specs : list string;
  connectivity : list string;
  why_pick : string;
  tradeoffs : string;
  source_url : string;
  source_site : string
}.

Definition has_image (alt : Product) : bool :=
  negb (String.eqb (image_url alt) EmptyString).

Definition has_price (alt : Product) : bool := (0 <? price_raw alt)%Z.

(** The four tests of the loop body. *)
Definition price_ok (alt : Product) : bool := (0 <? price_raw alt)%Z.
Definition title_ok (alt : Product) : bool :=
  negb (contains "generic" (lower (title alt))).
Definition url_ok (alt : Product) : bool :=
  negb (contains "/s?k=" (source_url alt))
  && negb (contains "/search?" (source_url alt)).
Definition image_ok (alt : Product) : bool :=
  negb (String.eqb (image_url alt) EmptyString).

Definition quality_score (alt : Product) : nat :=
  let quality_score := 0 in
  let quality_score :=
    if price_ok alt then quality_score + 1 else quality_score in
  let quality_score :=
    if title_ok alt then quality_score + 1 else quality_score in
  let quality_score :=
    if url_ok alt then quality_score + 1 else quality_score in
  let quality_score :=
    if image_ok alt then quality_score + 1 else quality_score in
  quality_score.

Definition issues (alt : Product) : list string :=
  let issues := [] in
  let issues := if price_ok alt then issues else issues ++ ["no price"] in
  let issues :=
    if title_ok alt then issues else issues ++ ["generic fallback"] in
  let issues := if url_ok alt then issues else issues ++ ["search URL"] in
  let issues := if image_ok alt then issues else issues ++ ["no image"] in
  issues.

Definition should_keep (alt : Product) : bool :=
  if has_image alt && has_price alt then true
  else if (has_image alt || has_price alt) && (2 <=? quality_score alt)
  then true
  else false.

(** The loop over [alternatives]: [valid_alternatives] and
    [filtered_count]. *)
Fixpoint quality_filter (alternatives : list Product)
  (valid_alternatives : list Product) (filtered_count : nat)
  : list Product * nat :=
  match alternatives with
  | [] => (valid_alternatives, filtered_count)
  | alt :: rest =>
      if should_keep alt
      then quality_filter rest (valid_alternatives ++ [alt]) filtered_count
      else quality_filter rest valid_alternatives (filtered_count + 1)
  end.

(** *** Validation and warnings *)

Definition no_valid_message (n_valid filtered_count : nat) : string :=
  ("Could not find enough valid product alternatives. "
   ++ "Found " ++ str_of_nat n_valid ++ " valid products, filtered out "
   ++ str_of_nat filtered_count ++ ". "
   ++ "Need at least 1 product. "
   ++ "This may be due to ScraperAPI limits, timeouts, or poor search results.")%string.

Definition validate (valid_alternatives : list Product) (filtered_count : nat)
  : result (list Product * list string) :=
  if length valid_alternatives <? 1 then
    Raise (no_valid_message (length valid_alternatives) filtered_count)
  else
    let warnings := [] in
    let warnings :=
      if length valid_alternatives <? 3
      then warnings ++ [("Only " ++ str_of_nat (length valid_alternatives)
                         ++ " alternatives found")%string]
      else warnings in
    let warnings :=
      if 0 <? filtered_count
      then warnings ++ [("Filtered out " ++ str_of_nat filtered_count
                         ++ " low-quality results")%string]
      else warnings in
    Ok (valid_alternatives, warnings).

(** Filter, then validate. *)
Definition filter_and_validate (alternatives : list Product)
  : result (list Product * list string) :=
  let '(valid_alternatives, filtered_count) :=
    quality_filter alternatives [] 0 in
  validate valid_alternatives filtered_count.

(** The outer handler: every exception that is not an [HTTPException]
    becomes one, with status 503. *)
Definition http_error (error_msg : string) : nat * string :=
  if is_quota_error error_msg then
    (503, "Gemini API quota exceeded. The system attempted to use fallback products. Please wait 24 hours or ensure billing is enabled for your API key.")
  else
    (503, ("Backend error: " ++ take 200 error_msg
           ++ ". Please check logs for details.")%string).

(** *** The regex fallback of [enhance_product_with_gemini] *)

Definition spec_patterns : list Regex.regex :=
  let d := Regex.digit in
  let sp := Regex.space in
  let number := Regex.Seq (Regex.Plus d)
                  (Regex.Opt (Regex.Seq (Regex.Opt (Regex.lit ".")) (Regex.Plus d))) in
  [ (* (\d+(?:GB|TB)\s+(?:RAM|Storage|SSD|HDD)) *)
    Regex.Group 1
      (Regex.seqs [Regex.Plus d;
                   Regex.alts [Regex.str_i "GB"; Regex.str_i "TB"];
                   Regex.Plus sp;
                   Regex.alts [Regex.str_i "RAM"; Regex.str_i "Storage";
                               Regex.str_i "SSD"; Regex.str_i "HDD"]]);
    (* (Core\s+i\d+[-\w]+|Ryzen\s+\d+) *)
    Regex.Group 1
      (Regex.Alt
         (Regex.seqs [Regex.str_i "Core"; Regex.Plus sp; Regex.lit_i "i";
                      Regex.Plus d;
                      Regex.Plus (Regex.Chr (fun c => Ascii.eqb c "-" || is_word c))])
         (Regex.seqs [Regex.str_i "Ryzen"; Regex.Plus sp; Regex.Plus d]));
    (* (\d+(?:\.?\d+)?Q\s*(?:FHD|HD|Display)?), Q the double quote *)
    Regex.Group 1
      (Regex.seqs [number; Regex.lit dquote; Regex.Star sp;
                   Regex.Opt (Regex.alts [Regex.str_i "FHD"; Regex.str_i "HD";
                                          Regex.str_i "Display"])]);
    (* (\d+(?:mAh|WHR)\s+Battery) *)
    Regex.Group 1
      (Regex.seqs [Regex.Plus d;
                   Regex.alts [Regex.str_i "mAh"; Regex.str_i "WHR"];
                   Regex.Plus sp; Regex.str_i "Battery"]);
    (* (\d+(?:\.?\d+)?\s*(?:inch|cm)) *)
    Regex.Group 1
      (Regex.seqs [number; Regex.Star sp;
                   Regex.alts [Regex.str_i "inch"; Regex.str_i "cm"]]) ].

(** The two nested loops that fill [fallback_specs]. *)
Definition add_matches (fallback_specs : list string) (matches : list string)
  : list string :=
  fold_left
    (fun acc m =>
       if negb (String.eqb m EmptyString) && negb (existsb (String.eqb m) acc)
       then acc ++ [strip m] else acc)
    matches fallback_specs.

Definition fallback_specs_of (product_title : string) : list string :=
  fold_left
    (fun acc pattern => add_matches acc (Regex.findall pattern product_title))
    spec_patterns [].

(** Where the [try] block stands when it raises: before or after its
    [import re], the statement that makes [re] a local name of the whole
    function. *)
Inductive import_state : Type := ReUnbound | ReBound.

(** What the [try] block does: it returns the two values of its
    dictionary, ['specifications'] and ['why_pick'], or it raises. *)
Inductive tried : Type :=
| Returned : json -> json -> tried
| Excepted : import_state -> string -> tried.

(** Three backquotes, an optional [json], spaces, group 1: the shortest
    text before the next three backquotes. *)
Definition re_fenced : Regex.regex :=
  Regex.seqs [Regex.str "```"; Regex.Opt (Regex.str "json");
              Regex.Star Regex.space;
              Regex.Group 1 (Regex.LazyStar Regex.anychar);
              Regex.str "```"].

(** The name of the type of a value, as error messages give it. *)
Definition type_name (v : json) : string :=
  match v with
  | JArr _ => "list"
  | JStr _ => "str"
  | JObj _ => "dict"
  | JNull => "NoneType"
  | JBool _ => "bool"
  | JNum n => if is_float_lexeme n then "float" else "int"
  end.

(** The message of the [AttributeError] for [v.name]. *)
Definition no_attribute (v : json) (name : string) : string :=
  "'" ++ type_name v ++ "' object has no attribute '" ++ name ++ "'".

(** [response.text.strip()] or, when the accessor raises, the joined
    texts of the parts of the first candidate; [None] when there is
    neither. *)
Definition enhance_text (r : response) : option string :=
  match text r with
  | Some t => Some (strip t)
  | None =>
      match candidates r with
      | c :: _ =>
          match parts c with
          | [] => None
          | ps =>
              Some (strip (join EmptyString
                             (filter (fun p => negb (String.eqb p EmptyString))
                                ps)))
          end
      | [] => None
      end
  end.

(** The text between the fences or, without fences, from the first
    opening brace to the last closing brace. *)
Definition enhance_json_text (text : string) : result string :=
  match Regex.search re_fenced text with
  | Some m =>
      Ok (strip (match Regex.group 1 m with
                 | Some g => g
                 | None => EmptyString
                 end))
  | None =>
      match find "{" text, rfind_char "}" text with
      | Some json_start, Some json_end =>
          Ok (drop json_start (take (json_end + 1) text))
      | _, _ => Raise "Could not find JSON in response"
      end
  end.

Section Enhance.

(** The message of the [json.JSONDecodeError] for a text. *)
Variable decode_error : string -> string.
(** The message of the [UnboundLocalError] for the local name [re]. *)
Variable unbound_error : string.

(** The [try] block, for what the call of the provider does. *)
Definition enhance_try (category : string) (o : outcome) : tried :=
  match o with
  | Failed error_msg => Excepted ReUnbound error_msg
  | Responded r =>
      match enhance_text r with
      | None | Some EmptyString =>
          Excepted ReUnbound "Empty response from Gemini"
      | Some text =>
          match
            (json_text <- enhance_json_text text ;;
             data <- match loads json_text with
                     | Some data => Ok data
                     | None => Raise (decode_error json_text)
                     end ;;
             match data with
             | JObj d =>
                 specifications <-
                   py_slice (match dict_get "specifications" d with
                             | Some v => v
                             | None => JArr []
                             end) 6 ;;
                 Ok (specifications,
                     match dict_get "why_pick" d with
                     | Some v => v
                     | None => JStr ("Good " ++ category ++ " option")
                     end)
             | v => Raise (no_attribute v "get")
             end)
          with
          | Ok (specifications, why_pick) => Returned specifications why_pick
          | Raise error_msg => Excepted ReBound error_msg
          end
      end
  end.

(** The [except] branch.  Its first [re.findall] reads the local name
    [re]: it raises when the [try] block raised before its [import re],
    otherwise the branch returns the specs read from the title. *)
Definition enhance_except (re : import_state) (product_title category : string)
  : result (json * json) :=
  match re with
  | ReUnbound => Raise unbound_error
  | ReBound =>
      let fallback_specs := fallback_specs_of product_title in
      Ok (JArr (map JStr
                  match fallback_specs with
                  | [] => [(category ++ " product")%string]
                  | _ => firstn 5 fallback_specs
                  end),
          JStr ("Quality " ++ category ++ " alternative to consider"))
  end.

(** [enhance_product_with_gemini], for a title that is a string: the
    values of ['specifications'] and ['why_pick']. *)
Definition enhance_product_with_gemini (product_title category : string)
  (o : outcome) : result (json * json) :=
  match enhance_try category o with
  | Returned specifications why_pick => Ok (specifications, why_pick)
  | Excepted re _ => enhance_except re product_title category
  end.

End Enhance.

End Pipeline.

(* ================================================================== *)
(** ** Helper functions of [backend/main.py] *)
(* ================================================================== *)

Module Helpers.
Import PyStr.

Definition extract_source (url : string) : string :=
  let url_str := lower url in
  if contains "amazon" url_str || contains "amzn" url_str then "amazon"
  else if contains "flipkart" url_str then "flipkart"
  else "unknown".

Definition prefixes_to_remove : list string :=
  ["Limited-time deal:"; "Deal:"; "Deal of the Day:"; "Amazon Deal:";
   "Flipkart Deal:"].

(** The loop over the prefixes, with its [break]. *)
Fixpoint remove_prefix (prefixes : list string) (clean_text : string) : string :=
  match prefixes with
  | [] => clean_text
  | p :: rest =>
      if prefix p clean_text then strip (drop (String.length p) clean_text)
      else remove_prefix rest clean_text
  end.

(** [extract_product_from_share_text]: the pair of ['title'] and
    ['has_details']. *)
Definition extract_product_from_share_text (share_text url : string)
  : string * bool :=
  if (String.length share_text =? 0) || (String.length (strip share_text) =? 0)
  then (EmptyString, false)
  else
    let clean_text := strip (remove_all url share_text) in
    let clean_text := remove_prefix prefixes_to_remove clean_text in
    if 20 <=? String.length clean_text then (clean_text, true)
    else (EmptyString, false).

End Helpers.

(* ================================================================== *)
(** ** [get_recommendations], from the names to the response *)
(* ================================================================== *)

Module Build.
Import PyStr Json Names Pipeline Helpers.

(** A search result of [search_product_scraperapi], a dictionary: the
    keys that the endpoint reads, [None] for a missing key, with values
    of the types that [Product] declares, and whether it has other
    keys. *)
Record SearchResult : Type := {
  sr_title : option string;
  sr_price : option string;
  sr_url : option string;
  sr_image_url : option string;
  sr_rating : option Q;
  sr_rating_count : option Z;
  sr_specs : option (list string);
  sr_other_keys : bool
}.

Definition has {A : Type} (v : option A) : bool :=
  match v with
  | Some _ => true
  | None => false
  end.

(** [bool(search_result)]: the dictionary is not empty. *)
Definition sr_truthy (sr : SearchResult) : bool :=
  has (sr_title sr) || has (sr_price sr) || has (sr_url sr)
  || has (sr_image_url sr) || has (sr_rating sr) || has (sr_rating_count sr)
  || has (sr_specs sr) || sr_other_keys sr.

(** One slot of [search_results]: an exception, [None] or a result. *)
Inductive search_slot : Type :=
| SearchFailed : string -> search_slot
| SearchNone : search_slot
| SearchFound : SearchResult -> search_slot.

Definition get_or {A : Type} (v : option A) (default : A) : A :=
  match v with
  | Some a => a
  | None => default
  end.

(** The text of a price of zero rupees. *)
Definition rupee_zero : string := "₹0".

(** [re.sub(r'[^\d.]', '', price_str)]. *)
Definition price_clean_of (price_str : string) : string :=
  Regex.sub_remove
    (Regex.Chr (fun c => negb (is_digit c || Ascii.eqb c ".")))
    price_str.

Definition search_url_of (source_site product_name : string) : string :=
  let search_query := replace_char " " "+" product_name in
  if String.eqb source_site "flipkart"
  then "https://www.flipkart.com/search?q=" ++ search_query
  else "https://www.amazon.in/s?k=" ++ search_query.

Definition brand_of (text : string) : string :=
  get_or (first_word text) "Unknown".

(** The specs read from the name when the search failed: the four
    patterns of that branch, the first four of the enrichment. *)
Definition name_specs (product_name : string) : list string :=
  fold_left
    (fun acc pattern => add_matches acc (Regex.findall pattern product_name))
    (firstn 4 spec_patterns) [].

Definition is_direct_link (product_url : string) : bool :=
  negb (String.eqb product_url EmptyString)
  && (contains "/dp/" product_url || contains "/p/" product_url)
  && negb (contains "/s?k=" product_url).

(** The strings of a list of values that are all strings. *)
Fixpoint strings_of (l : list json) : option (list string) :=
  match l with
  | [] => Some []
  | JStr s :: r => option_map (cons s) (strings_of r)
  | _ :: _ => None
  end.

Section Candidates.

(** [int(float(price_clean) * 100)], and 0 when [float] raises. *)
Variable paise_of : string -> Z.
(** [str(v)] for a value that is not a string. *)
Variable str_of : json -> string.
(** What the validation of [Product] makes of a value that is not a
    string in a field declared [str], and of a value that is not a list
    of strings in a field declared [List[str]]: a converted value, or
    [None] when it rejects the value. *)
Variable coerce_str : json -> option string.
Variable coerce_strs : json -> option (list string).
(** The message of the validation error of [Product], for the values
    given as [model], [specs], [why_pick] and [source_site]. *)
Variable validation_error : json -> json -> json -> string -> string.

(** The provider's answer to the enrichment of index [idx], and the
    search result of index [idx]. *)
Variable enhance_content : nat -> outcome.
Variable search_result : nat -> search_slot.

Variable n_keys : nat.
Variable generate_content : nat -> nat -> outcome.
Variable decode_error : string -> string.
Variable unbound_error : string.

Definition py_str (v : json) : string :=
  match v with
  | JStr s => s
  | _ => str_of v
  end.

Definition as_str (v : json) : option string :=
  match v with
  | JStr s => Some s
  | _ => coerce_str v
  end.

Definition as_strs (v : json) : option (list string) :=
  match v with
  | JArr l =>
      match strings_of l with
      | Some strings => Some strings
      | None => coerce_strs v
      end
  | _ => coerce_strs v
  end.

(** The price in paise of a price text. *)
Definition price_raw_of (price_str : string) : Z :=
  if String.eqb price_str EmptyString then 0%Z
  else
    let price_clean := price_clean_of price_str in
    if String.eqb price_clean EmptyString then 0%Z
    else paise_of price_clean.

(** The constructor of [Product], with its validation: [model],
    [why_pick] and [specs] must have (or be brought to) their types and
    [source_site] must be one of "amazon", "flipkart" and "other". *)
Definition make_product (id brand : string) (model : json)
  (title image_url price_estimate : string) (price_raw : Z)
  (rating_estimate : option Q) (rating_count_estimate : option Z)
  (specs : json) (connectivity : list string) (why_pick : json)
  (tradeoffs source_url source_site : string) : result Product :=
  match as_str model, as_strs specs, as_str why_pick with
  | Some model', Some specs', Some why_pick' =>
      if Rdm.in_list source_site ["amazon"; "flipkart"; "other"] then
        Ok {| id := id;
              brand := brand;
              model := model';
              title := title;
              image_url := image_url;
              price_estimate := price_estimate;
              price_raw := price_raw;
              rating_estimate := rating_estimate;
              rating_count_estimate := rating_count_estimate;
              specs := specs';
              connectivity := connectivity;
              why_pick := why_pick';
              tradeoffs := tradeoffs;
              source_url := source_url;
              source_site := source_site |}
      else Raise (validation_error model specs why_pick source_site)
  | _, _, _ => Raise (validation_error model specs why_pick source_site)
  end.

(** [gemini_results[idx]]: the enrichment of index [idx], asked for
    [title]; step 5 reads it only where [title] is a string. *)
Definition gemini_result (category : string) (idx : nat) (title : string)
  : result (json * json) :=
  enhance_product_with_gemini decode_error unbound_error title category
    (enhance_content idx).

(** The branch of a search that raised. *)
Definition after_failed_search (source_site category : string) (idx : nat)
  (product_name : json) : result Product :=
  match product_name with
  | JStr name =>
      make_product (str_of_nat (idx + 1)) (brand_of name) product_name name
        EmptyString rupee_zero 0 None None
        (JArr (map JStr (name_specs name))) []
        (JStr ("Similar " ++ category ++ " alternative"))
        "Limited data - search to view details"
        (search_url_of source_site name) source_site
  | v => Raise (no_attribute v "replace")
  end.

(** The branch of a search result. *)
Definition from_search_result (source_site category : string) (idx : nat)
  (product_name : json) (sr : SearchResult) : result Product :=
  let price_str := get_or (sr_price sr) rupee_zero in
  let price_raw := price_raw_of price_str in
  match (match sr_title sr with
         | Some t => JStr t
         | None => product_name
         end) with
  | JStr title =>
      let brand := brand_of title in
      let product_url := get_or (sr_url sr) EmptyString in
      product_url <-
        (if is_direct_link product_url then Ok product_url
         else
           match product_name with
           | JStr name =>
               Ok ("https://www." ++ source_site ++ ".in/s?k="
                   ++ replace_char " " "+" name)%string
           | v => Raise (no_attribute v "replace")
           end) ;;
      let '(product_specs, why_pick_msg) :=
        match gemini_result category idx title with
        | Raise _ =>
            (JArr (map JStr (firstn 8 (get_or (sr_specs sr) []))),
             JStr ("Found via search: " ++ py_str product_name))
        | Ok (specifications, why_pick) => (specifications, why_pick)
        end in
      make_product (str_of_nat (idx + 1)) brand product_name title
        (get_or (sr_image_url sr) EmptyString)
        (if String.eqb price_str EmptyString then rupee_zero else price_str)
        price_raw (sr_rating sr) (sr_rating_count sr)
        product_specs [] why_pick_msg EmptyString product_url source_site
  | v => Raise (no_attribute v "split")
  end.

(** The branch of a search that found nothing. *)
Definition without_search_result (source_site category : string) (idx : nat)
  (product_name : json) : result Product :=
  match product_name with
  | JStr name =>
      let '(fallback_specs, why_pick_msg) :=
        match gemini_result category idx name with
        | Raise _ =>
            (JArr [], JStr ("Similar " ++ category ++ " alternative"))
        | Ok (specifications, why_pick) => (specifications, why_pick)
        end in
      make_product (str_of_nat (idx + 1)) (brand_of name) product_name name
        EmptyString rupee_zero 0 None None fallback_specs [] why_pick_msg
        "Limited data available - verify specs on product page"
        (search_url_of source_site name) source_site
  | v => Raise (no_attribute v "replace")
  end.

(** The body of the loop of step 5, for the name of index [idx]. *)
Definition build_alternative (source_site category : string) (idx : nat)
  (product_name : json) : result Product :=
  match search_result idx with
  | SearchFailed _ => after_failed_search source_site category idx product_name
  | SearchFound sr =>
      if sr_truthy sr
      then from_search_result source_site category idx product_name sr
      else without_search_result source_site category idx product_name
  | SearchNone => without_search_result source_site category idx product_name
  end.

(** The loop of step 5 over the names, from the index [idx] on; it
    stops at the first exception. *)
Fixpoint build_alternatives (source_site category : string) (idx : nat)
  (product_names : list json) : result (list Product) :=
  match product_names with
  | [] => Ok []
  | product_name :: names =>
      alt <- build_alternative source_site category idx product_name ;;
      rest <- build_alternatives source_site category (S idx) names ;;
      Ok (alt :: rest)
  end.

(** The [try] block of the endpoint, from the title that step 1 found:
    the valid alternatives and the warnings or the exception, the key
    index that the names stage leaves, and the trace of its retry
    loop. *)
Definition recommend (url_str product_title : string) (key : nat)
  : result (list Product * list string) * nat * list event :=
  let source_site := extract_source url_str in
  let '(r, key', tr) :=
    candidate_names n_keys generate_content decode_error product_title key in
  (out <- r ;;
   let '(category, _, product_names) := out in
   alternatives <- build_alternatives source_site category 0 product_names ;;
   filter_and_validate alternatives,
   key', tr).

(** What the caller gets: the response, or an [HTTPException] with its
    status and its detail. *)
Inductive reply : Type :=
| Response : list Product -> list string -> reply
| HTTPException : nat -> string -> reply.

(** [get_recommendations]: the [try] block under its handler. *)
Definition get_recommendations (url_str product_title : string) (key : nat)
  : reply :=
  match fst (fst (recommend url_str product_title key)) with
  | Ok (alternatives, warnings) => Response alternatives warnings
  | Raise error_msg =>
      HTTPException (fst (http_error error_msg)) (snd (http_error error_msg))
  end.

End Candidates.

End Build.

(* ================================================================== *)
(** ** Inputs used in the statements below *)
(* ================================================================== *)

Module Examples.
Import Rdm.

Definition mk_product (t : string) (price : Z) (rating : option Q)
  (count : option Z) : product :=
  {| title := t; specs := []; price_raw := price;
     rating_estimate := rating; rating_count_estimate := count |}.

(** Two laptops at the same price of 1000.00. *)
Definition same_price : list product :=
  [mk_product "Laptop A" 100000 (Some 4%Q) (Some 100%Z);
   mk_product "Laptop B" 100000 (Some 4.5%Q) None].

(** A laptop with a price and one without. *)
Definition one_unpriced : list product :=
  [mk_product "Laptop A" 100000 (Some 4%Q) None;
   mk_product "Laptop B" 0 None None].

(** A response with three names. *)
Definition ok_response : Names.response :=
  {| Names.candidates :=
       [{| Names.finish_reason := Some Names.STOP; Names.parts := [] |}];
     Names.text := Some (Json.dq "{'product_names':['A','B','C']}") |}.

Definition respond (t : string) : Names.outcome :=
  Names.Responded
    {| Names.candidates :=
         [{| Names.finish_reason := Some Names.STOP; Names.parts := [] |}];
       Names.text := Some t |}.

(** Three keys: the first two are out of quota, the third answers, but
    is overloaded at the attempt of index 2. *)
Definition quota_then_overload (key attempt : nat) : Names.outcome :=
  if key <? 2 then Names.Failed "429 quota exceeded"
  else if attempt =? 2 then Names.Failed "503 model overloaded"
  else Names.Responded ok_response.

(** A response cut in the middle of the array of names. *)
Definition truncated_names : string :=
  Json.dq "{'product_names':['Dell XPS 13','HP Envy 14'".

(** The same cut with the key that the repair looks for. *)
Definition truncated_alternatives : string :=
  Json.dq "{'alternatives': ['Dell XPS 13','HP Envy 14'".

Definition always_truncated (key attempt : nat) : Names.outcome :=
  respond truncated_names.

Definition one_name (key attempt : nat) : Names.outcome :=
  respond (Json.dq "{'product_names':['Acer Swift 3']}").

Definition seven_names (key attempt : nat) : Names.outcome :=
  respond (Json.dq "{'product_names':['A','B','C','D','E','F','G']}").

Definition outage (key attempt : nat) : Names.outcome :=
  Names.Failed "429 quota exceeded".

(** The ranking of [one_unpriced], and its entries by position. *)
Definition ranked : list scored :=
  calculate_rdm_scores (fun x => x) one_unpriced "laptop".

Definition no_score : scored :=
  {| item := enrich "laptop" (mk_product EmptyString 0 None None);
     rdm_score := 0;
     rdm_breakdown :=
       {| price_score := 0; rating_score := 0; review_score := 0;
          feature_score := 0; ownership_score := 0 |} |}.

Definition ranked_at (i : nat) : scored := nth i ranked no_score.


(** Searches that find a product with a price, an image and a direct
    link, and searches that time out. *)
Definition found (idx : nat) : Build.search_slot :=
  Build.SearchFound
    {| Build.sr_title := Some ("Laptop " ++ PyStr.str_of_nat (idx + 1))%string;
       Build.sr_price := Some "45,990";
       Build.sr_url := Some "https://www.amazon.in/dp/B0C1234567";
       Build.sr_image_url := Some "https://m.media-amazon.com/images/I/1.jpg";
       Build.sr_rating := None;
       Build.sr_rating_count := None;
       Build.sr_specs := None;
       Build.sr_other_keys := false |}.

Definition timed_out (idx : nat) : Build.search_slot :=
  Build.SearchFailed "timeout".

(** Enrichments whose call of the provider fails. *)
Definition overloaded (idx : nat) : Names.outcome :=
  Names.Failed "503 model overloaded".

(** The paise of a price text without a dot. *)
Definition paise (price_clean : string) : Z :=
  (100 * PyStr.int_of_digits price_clean)%Z.

(** A validation that converts no value, and a text that stands for
    its message. *)
Definition no_str (v : Json.json) : option string := None.
Definition no_strs (v : Json.json) : option (list string) := None.
Definition invalid (model specs why_pick : Json.json) (source_site : string)
  : string :=
  ("validation error for Product: source_site " ++ source_site)%string.

(** The text of a number, of a boolean and of [None]. *)
Definition text_of (v : Json.json) : string :=
  match v with
  | Json.JNum n => n
  | Json.JBool true => "True"
  | Json.JBool false => "False"
  | Json.JNull => "None"
  | _ => EmptyString
  end.


Definition endpoint (generate_content : nat -> nat -> Names.outcome)
  (search_result : nat -> Build.search_slot) (url_str product_title : string)
  : Build.reply :=
  Build.get_recommendations paise text_of no_str no_strs invalid
    overloaded search_result 3 generate_content (fun t => t)
    "local variable 're' referenced before assignment"
    url_str product_title 0.

End Examples.

(* ================================================================== *)
(** ** Predicates used in the statements below *)
(* ================================================================== *)

Module Props.
Import PyStr Json.

(** [a] may stand before [b] in a list sorted by descending key. *)
Definition desc (T : Type) (key : T -> Q) (a b : T) : Prop :=
  (key b <= key a)%Q.

(** The attributes that C3 expects from [extract_detailed_specs]. *)
Definition expected_details (d : Rdm.details) : Prop :=
  Rdm.ram_gb d = Some 16%Z
  /\ Rdm.storage_gb d = Some 512%Z
  /\ Rdm.storage_type d = Some "SSD"
  /\ (exists p, Rdm.processor d = Some p
                /\ contains "i7" (lower p) = true)
  /\ Rdm.battery_mah d = Some 4500%Z.

(** The rule of the filter, as the comment above it states it. *)
Definition keep_rule (alt : Pipeline.Product) : Prop :=
  (Pipeline.image_url alt <> EmptyString /\ (0 < Pipeline.price_raw alt)%Z)
  \/ ((Pipeline.image_url alt <> EmptyString
       \/ (0 < Pipeline.price_raw alt)%Z)
      /\ 2 <= Pipeline.quality_score alt).


(** The composite score and the five sub-scores are between 0 and
    100. *)
Definition in_range (s : Rdm.scored) : Prop :=
  let b := Rdm.rdm_breakdown s in
  (0 <= Rdm.rdm_score s <= 100
   /\ 0 <= Rdm.price_score b <= 100
   /\ 0 <= Rdm.rating_score b <= 100
   /\ 0 <= Rdm.review_score b <= 100
   /\ 0 <= Rdm.feature_score b <= 100
   /\ 0 <= Rdm.ownership_score b <= 100)%Q.

(** The placeholder names that bring a list of [n] names to three. *)
Definition placeholders (category : string) (n : nat) : list json :=
  map (Names.placeholder category) (seq n (3 - n)).

(** The static names of the fallback for a category; for a category
    without a list, numbered variants of the title. *)
Definition static_names (category product_title : string) : list string :=
  if String.eqb category "tablet" then
    ["Samsung Galaxy Tab A9"; "Lenovo Tab M10"; "Xiaomi Pad 6";
     "Realme Pad 2"; "Apple iPad 10th Gen"; "OnePlus Pad"]
  else if String.eqb category "laptop" then
    ["HP Pavilion 15"; "Dell Inspiron 15"; "Lenovo IdeaPad 3";
     "ASUS VivoBook 15"; "Acer Aspire 5"; "MSI Modern 15"]
  else if String.eqb category "smartphone" then
    ["Samsung Galaxy A54"; "OnePlus Nord 3"; "Xiaomi Redmi Note 13";
     "Realme 12 Pro"; "Vivo V29"; "OPPO Reno 11"]
  else if String.eqb category "speaker" then
    ["JBL Flip 6"; "Sony SRS-XB100"; "boAt Stone 1200";
     "Bose SoundLink Flex"; "Mivi Roam 2"; "Ultimate Ears WONDERBOOM 3"]
  else
    [(product_title ++ " Alternative 1")%string;
     (product_title ++ " Alternative 2")%string;
     (product_title ++ " Alternative 3")%string;
     (product_title ++ " Alternative 4")%string;
     (product_title ++ " Alternative 5")%string].

(** The fallback that a title and an error message call for: the
    category is one of five, the names are the first 3, 5 or 6 static
    names of the category (6 or, without a list, 5 after a quota error,
    3 after another error), a title of a laptop and of no tablet gets
    the laptop names, and a title without any keyword gets variants of
    itself. *)
Definition static_fallback (product_title error_msg category : string)
  (product_names : list json) : Prop :=
  let has keys := any_in keys (lower product_title) in
  In category ["tablet"; "laptop"; "smartphone"; "speaker"; "product"]
  /\ product_names
     = map JStr (firstn (length product_names)
                   (static_names category product_title))
  /\ length product_names
     = (if Pipeline.is_quota_error error_msg
        then if String.eqb category "product" then 5 else 6
        else 3)
  /\ (has ["laptop"; "notebook"] = true ->
      has ["tablet"; "ipad"; "pad"] = false -> has ["tab"] = false ->
      category = "laptop")
  /\ (has ["tablet"; "ipad"; "pad"] = false -> has ["tab"] = false ->
      has ["laptop"; "notebook"] = false ->
      has ["phone"; "smartphone"; "mobile"] = false ->
      has ["speaker"; "soundbar"] = false ->
      category = "product").

(** A text of ASCII characters, on which the case mappings of the
    embedding are those of Python. *)
Definition ascii_text (s : string) : Prop :=
  Forall (fun c => code c < 128) (chars s).

(** The site tags that [Product] accepts. *)
Definition valid_site (source_site : string) : bool :=
  Rdm.in_list source_site ["amazon"; "flipkart"; "other"].

(** A slot without a search result: an exception, [None] or an empty
    dictionary. *)
Definition without_result (slot : Build.search_slot) : Prop :=
  match slot with
  | Build.SearchFound sr => Build.sr_truthy sr = false
  | _ => True
  end.

(** Every category that the detection can give. *)
Definition all_categories : list string :=
  Classifier.accessory_categories
  ++ ["tablet"; "laptop"; "keyboard"; "mouse"; "smartphone"; "speaker";
      "earbuds"; "smartwatch"; "monitor"; "product"].

(** The sum of the delays of a trace. *)
Fixpoint total_sleep (tr : list Names.event) : nat :=
  match tr with
  | [] => 0
  | Names.Sleep d :: r => d + total_sleep r
  | _ :: r => total_sleep r
  end.

(** A list, a string or a dictionary of at least three items. *)
Definition at_least3 (v : json) : Prop :=
  (exists l, v = JArr l /\ 3 <= length l)
  \/ (exists s, v = JStr s /\ 3 <= String.length s)
  \/ (exists d, v = JObj d /\ 3 <= dict_len d).

(** A list or a string (or, when allowed, a dictionary) of 3 to 6
    items. *)
Definition sized (allow_dict : bool) (v : json) : Prop :=
  (exists l, v = JArr l /\ 3 <= length l <= 6)
  \/ (exists s, v = JStr s /\ 3 <= String.length s <= 6)
  \/ (allow_dict = true
      /\ exists d, v = JObj d /\ 3 <= dict_len d <= 6).

End Props.

(* ================================================================== *)
(** ** Properties of the decision-metric engine *)
(* ================================================================== *)

Section SortFacts.
Import Rdm Props.
Local Open Scope Q_scope.

Variable T : Type.
Variable key : T -> Q.

Lemma Qltb_true (x y : Q) : Qltb x y = true -> x < y.
Proof.
  unfold Qltb. intros H. apply negb_true_iff in H.
  destruct (Qlt_le_dec x y) as [L | L]; [exact L |].
  apply Qle_bool_iff in L. congruence.
Qed.

Lemma Qltb_false (x y : Q) : Qltb x y = false -> y <= x.
Proof.
  unfold Qltb. intros H. apply negb_false_iff in H.
  now apply Qle_bool_iff.
Qed.

Lemma insert_desc_perm (x : T) (l : list T) :
  Permutation (insert_desc key x l) (x :: l).
Proof.
  induction l as [| y r IH]; simpl.
  - apply Permutation_refl.
  - destruct (Qltb (key x) (key y)).
    + eapply perm_trans; [apply perm_skip, IH | apply perm_swap].
    + apply Permutation_refl.
Qed.

Lemma sort_desc_perm (l : list T) : Permutation (sort_desc key l) l.
Proof.
  induction l as [| x r IH]; simpl.
  - constructor.
  - eapply perm_trans; [apply insert_desc_perm | now apply perm_skip].
Qed.

Lemma insert_desc_sorted (x : T) (l : list T) :
  StronglySorted (desc key) l -> StronglySorted (desc key) (insert_desc key x l).
Proof.
  induction l as [| y r IH]; simpl; intros S.
  - constructor; [constructor | constructor].
  - inversion S as [| ? ? Sr Fy]; subst.
    destruct (Qltb (key x) (key y)) eqn:E.
    + constructor; [now apply IH |].
      apply Qltb_true in E.
      eapply Permutation_Forall;
        [apply Permutation_sym, insert_desc_perm |].
      constructor; [| exact Fy].
      unfold desc. now apply Qlt_le_weak.
    + apply Qltb_false in E.
      constructor; [exact S |].
      constructor; [exact E |].
      eapply Forall_impl; [| exact Fy].
      intros z Hz. unfold desc in *. eapply Qle_trans; eassumption.
Qed.

Lemma sort_desc_sorted (l : list T) : StronglySorted (desc key) (sort_desc key l).
Proof.
  induction l as [| x r IH]; simpl.
  - constructor.
  - now apply insert_desc_sorted.
Qed.

End SortFacts.

Section EngineFacts.
Import Rdm.
Local Open Scope Q_scope.

Variable log : Q -> Q.

Lemma score_one_item category pmin pmax rmax n rg e :
  item (score_one log category pmin pmax rmax n rg e) = e.
Proof. reflexivity. Qed.

(** The scored list before sorting keeps the products in order. *)
Lemma scored_bases category pmin pmax rmax n rg (products : list product) :
  map (fun s => base (item s))
      (map (score_one log category pmin pmax rmax n rg)
           (map (enrich category) products)) = products.
Proof.
  induction products as [| p r IH]; simpl; [reflexivity |].
  now rewrite IH.
Qed.

(** The result of [calculate_rdm_scores] is the sorted list of scored
    products, for the ranges of the whole list. *)
Lemma calculate_unfold (products : list product) (category : string) :
  products <> [] ->
  exists pmin pmax rmax n rg,
    _safe_range (prices_of (map (enrich category) products)) 1 2 = (pmin, pmax)
    /\ calculate_rdm_scores log products category =
       sort_desc rdm_score
         (map (score_one log category pmin pmax rmax n rg)
              (map (enrich category) products)).
Proof.
  intros NE. destruct products as [| p r]; [congruence |].
  unfold calculate_rdm_scores.
  destruct (_safe_range (prices_of (map (enrich category) (p :: r))) 1 2)
    as [pmin pmax] eqn:E.
  eexists pmin, pmax, _, _, _. split; reflexivity.
Qed.

(** C10. For every list of products and every category,
    [calculate_rdm_scores] returns one scored entry per input product:
    the products of the output are a permutation of the input (none is
    dropped, none is duplicated), the lengths agree, every entry carries
    the details extracted from its own title and specs together with an
    [rdm_score] and the five-field [rdm_breakdown], the entries are in
    non-increasing order of [rdm_score], and the empty list gives the
    empty list. *)
Theorem calculate_rdm_scores_permutes_and_sorts
  (products : list product) (category : string) :
  let out := calculate_rdm_scores log products category in
  Permutation (map (fun s => base (item s)) out) products
  /\ length out = length products
  /\ Forall (fun s => item s = enrich category (base (item s))) out
  /\ StronglySorted (fun a b => rdm_score b <= rdm_score a) out
  /\ calculate_rdm_scores log [] category = [].
Proof.
  intros out.
  destruct products as [| p r].
  - subst out. simpl. repeat split; constructor.
  - assert (NE : p :: r <> []) by discriminate.
    remember (p :: r) as products eqn:EP.
    destruct (calculate_unfold category NE)
      as (pmin & pmax & rmax & n & rg & _ & Hc).
    subst out. rewrite Hc.
    set (raw := map (score_one log category pmin pmax rmax n rg)
                    (map (enrich category) products)).
    assert (P : Permutation (sort_desc rdm_score raw) raw)
      by apply sort_desc_perm.
    split; [| split; [| split; [| split]]].
    + eapply perm_trans; [apply Permutation_map, P |].
      unfold raw. rewrite scored_bases. apply Permutation_refl.
    + rewrite (Permutation_length P). unfold raw. now rewrite !length_map.
    + eapply Permutation_Forall; [apply Permutation_sym, P |].
      unfold raw. apply Forall_forall. intros s Hs.
      apply in_map_iff in Hs. destruct Hs as (e & <- & He).
      apply in_map_iff in He. destruct He as (q & <- & _).
      reflexivity.
    + apply (sort_desc_sorted rdm_score raw).
    + reflexivity.
Qed.

(** *** Uniform prices *)

Lemma Qmin_same (x : Q) : Qmin x x = x.
Proof. unfold Qmin. now destruct (Qleb x x). Qed.

Lemma Qmax_same (x : Q) : Qmax x x = x.
Proof. unfold Qmax. now destruct (Qleb x x). Qed.

Lemma list_min_const (x : Q) (l : list Q) :
  Forall (eq x) l -> list_min x l = x.
Proof.
  unfold list_min. induction 1 as [| y r <- _ IH]; simpl; [reflexivity |].
  now rewrite Qmin_same.
Qed.

Lemma list_max_const (x : Q) (l : list Q) :
  Forall (eq x) l -> list_max x l = x.
Proof.
  unfold list_max. induction 1 as [| y r <- _ IH]; simpl; [reflexivity |].
  now rewrite Qmax_same.
Qed.

Lemma Qmin_le_r (a y : Q) : Qmin a y <= y.
Proof.
  unfold Qmin, Qleb. destruct (Qle_bool a y) eqn:E.
  - now apply Qle_bool_iff.
  - apply Qle_refl.
Qed.

Lemma Qmax_ge_r (b y : Q) : y <= Qmax b y.
Proof.
  unfold Qmax, Qleb. destruct (Qle_bool b y) eqn:E.
  - apply Qle_refl.
  - destruct (Qlt_le_dec y b) as [L | L]; [now apply Qlt_le_weak |].
    apply Qle_bool_iff in L. congruence.
Qed.

Lemma Qmin_le_l (a y : Q) : Qmin a y <= a.
Proof.
  unfold Qmin, Qleb. destruct (Qle_bool a y) eqn:E.
  - apply Qle_refl.
  - destruct (Qlt_le_dec y a) as [L | L]; [now apply Qlt_le_weak |].
    apply Qle_bool_iff in L. congruence.
Qed.

Lemma Qmax_ge_l (b y : Q) : b <= Qmax b y.
Proof.
  unfold Qmax, Qleb. destruct (Qle_bool b y) eqn:E.
  - now apply Qle_bool_iff.
  - apply Qle_refl.
Qed.

Lemma fold_min_le_fold_max (l : list Q) (a b : Q) :
  a <= b -> fold_left Qmin l a <= fold_left Qmax l b.
Proof.
  revert a b. induction l as [| y r IH]; simpl; intros a b H; [exact H |].
  apply IH. eapply Qle_trans; [apply Qmin_le_r | apply Qmax_ge_r].
Qed.

(** The range that [_safe_range] returns is never a single point. *)
Lemma safe_range_increasing (values : list Q) (dmin dmax : Q) :
  dmin < dmax ->
  fst (_safe_range values dmin dmax) < snd (_safe_range values dmin dmax).
Proof.
  intros D. unfold _safe_range. destruct values as [| v r]; [exact D |].
  destruct (Qeqb (list_max v r) (list_min v r)) eqn:E; simpl.
  - lra.
  - assert (L : list_min v r <= list_max v r)
      by (apply fold_min_le_fold_max, Qle_refl).
    apply Qeq_bool_neq in E.
    destruct (Qlt_le_dec (list_min v r) (list_max v r)) as [Lt | Ge];
      [exact Lt |].
    exfalso. apply E. now apply Qle_antisym.
Qed.

(** So the test [price_max > price_min] of the scoring loop always
    holds: its [else 50] branch is never taken. *)
Lemma price_range_test_holds (prices : list Q) :
  Qltb (fst (_safe_range prices 1 2)) (snd (_safe_range prices 1 2)) = true.
Proof.
  assert (H := @safe_range_increasing prices 1 2 ltac:(lra)).
  unfold Qltb. destruct (Qle_bool _ _) eqn:E; [| reflexivity].
  apply Qle_bool_iff in E. lra.
Qed.

Lemma round_half_even_comp (x y : Q) :
  x == y -> round_half_even x = round_half_even y.
Proof.
  intros H. unfold round_half_even, Qltb.
  assert (F : Qfloor x = Qfloor y) by (now rewrite H).
  rewrite F.
  assert (D : x - inject_Z (Qfloor y) == y - inject_Z (Qfloor y))
    by (now rewrite H).
  now rewrite (Qleb_comp _ _ (Qeq_refl (1 # 2)) _ _ D),
              (Qleb_comp _ _ D _ _ (Qeq_refl (1 # 2))).
Qed.

Lemma round1_comp (x y : Q) : x == y -> round1 x == round1 y.
Proof.
  intros H. unfold round1.
  rewrite (@round_half_even_comp (x * 10) (y * 10)); [reflexivity |].
  now rewrite H.
Qed.

Lemma prices_uniform (category : string) (c : Z) (products : list product) :
  c <> 0%Z ->
  Forall (fun p => price_raw p = c) products ->
  prices_of (map (enrich category) products)
  = map (fun _ => inject_Z c / 100) products.
Proof.
  intros NZ. unfold prices_of.
  induction 1 as [| p r Hp _ IH]; simpl; [reflexivity |].
  rewrite Hp. destruct (c =? 0)%Z eqn:E; [apply Z.eqb_eq in E; congruence |].
  simpl. unfold price_of at 1. simpl. rewrite Hp. now rewrite IH.
Qed.

Lemma safe_range_uniform (x : Q) (l : list Q) (dmin dmax : Q) :
  l <> [] -> Forall (eq x) l -> _safe_range l dmin dmax = (x, x + 1).
Proof.
  intros NE F. destruct l as [| v r]; [congruence |].
  inversion F as [| ? ? <- Fr]; subst.
  unfold _safe_range.
  rewrite (list_min_const Fr), (list_max_const Fr).
  unfold Qeqb. now rewrite Qeq_bool_refl.
Qed.

(** C1 (what the code does). For every non-empty list of products that
    all have the same non-zero price, every entry of the result has the
    price sub-score 100, not the neutral 50: [_safe_range] widens the
    single-point range to [price, price + 1], so the division is by 1
    and the guard [price_max > price_min] holds. *)
Theorem uniform_prices_score_100
  (products : list product) (category : string) (c : Z) :
  products <> [] ->
  (0 < c)%Z ->
  Forall (fun p => price_raw p = c) products ->
  Forall (fun s => price_score (rdm_breakdown s) == 100)
         (calculate_rdm_scores log products category).
Proof.
  intros NE Pos U.
  destruct (calculate_unfold category NE)
    as (pmin & pmax & rmax & n & rg & Hr & Hc).
  rewrite Hc.
  eapply Permutation_Forall; [apply Permutation_sym, sort_desc_perm |].
  assert (NZ : c <> 0%Z) by lia.
  rewrite (prices_uniform category NZ U) in Hr.
  rewrite (@safe_range_uniform (inject_Z c / 100)) in Hr.
  - injection Hr as <- <-.
    apply Forall_forall. intros s Hs.
    apply in_map_iff in Hs. destruct Hs as (e & <- & He).
    apply in_map_iff in He. destruct He as (p & <- & Hp).
    rewrite Forall_forall in U. specialize (U p Hp).
    unfold score_one. cbn [rdm_breakdown price_score base enrich].
    rewrite U.
    set (P := inject_Z c / 100).
    assert (T : Qltb P (P + 1) = true).
    { unfold Qltb. destruct (Qle_bool (P + 1) P) eqn:E; [| reflexivity].
      apply Qle_bool_iff in E. lra. }
    rewrite T.
    rewrite (@round1_comp _ 100); [reflexivity |].
    field. lra.
  - destruct products; [congruence | discriminate].
  - clear. induction products; simpl; constructor; auto.
Qed.

(** *** Where the sub-scores do stay in range *)

Lemma Qmax_lub (a b c : Q) : a <= c -> b <= c -> Qmax a b <= c.
Proof. intros A B. unfold Qmax. now destruct (Qleb a b). Qed.

Lemma normalize_bounds (value : option Q) (vmin vmax : Q) :
  0 <= _normalize value vmin vmax 50 <= 100.
Proof.
  unfold _normalize. destruct value as [v |]; [| lra].
  destruct (Qeqb vmax vmin); [lra |].
  split.
  - apply Qmax_ge_l.
  - apply Qmax_lub; [lra | apply Qmin_le_l].
Qed.

Lemma normalize_in_bounds (value : option Q) (r : option (Q * Q)) :
  0 <= normalize_in value r <= 100.
Proof.
  unfold normalize_in. destruct r as [[lo hi] |]; [| lra].
  apply normalize_bounds.
Qed.

Lemma performance_score_bounds (proc : option string) (category : string) :
  (50 <= calculate_performance_score proc category <= 95)%Z.
Proof.
  unfold calculate_performance_score.
  destruct proc as [[| c p] |]; [lia | | lia].
  repeat match goal with
         | |- context [if ?b then _ else _] => destruct b
         end; lia.
Qed.

Lemma display_score_bounds (t : option string) :
  50 <= display_score_of t <= 100.
Proof.
  unfold display_score_of. destruct t as [t |]; [| lra].
  repeat match goal with
         | |- context [if ?b then _ else _] => destruct b
         end; lra.
Qed.

Lemma storage_type_score_bounds (t : option string) :
  50 <= storage_type_score_of t <= 100.
Proof.
  unfold storage_type_score_of. destruct t as [t |]; [| lra].
  repeat match goal with
         | |- context [if ?b then _ else _] => destruct b
         end; lra.
Qed.

Lemma inject_Z_bounds (z lo hi : Z) :
  (lo <= z <= hi)%Z -> inject_Z lo <= inject_Z z <= inject_Z hi.
Proof. intros [A B]. split; now rewrite <- Zle_Qle. Qed.

(** The feature sub-score is in range for every product, category and
    set of ranges, as long as the performance estimate is. *)
Lemma feature_score_bounds (d : details) (category : string) (rg : ranges) :
  (0 <= performance_score d <= 100)%Z ->
  0 <= _feature_score d category rg <= 100.
Proof.
  intros P. unfold _feature_score.
  assert (B : 0 <= inject_Z (if (performance_score d =? 0)%Z then 50
                             else performance_score d) <= 100).
  { destruct (performance_score d =? 0)%Z.
    - apply (@inject_Z_bounds 50 0 100). lia.
    - apply (@inject_Z_bounds _ 0 100). exact P. }
  set (perf := inject_Z _) in *.
  pose proof (normalize_in_bounds (optZ (ram_gb d)) (r_ram rg)) as R.
  pose proof (normalize_in_bounds (optZ (storage_gb d)) (r_storage rg)) as S.
  pose proof (normalize_in_bounds (optZ (battery_mah d)) (r_battery rg)) as Bt.
  pose proof (normalize_in_bounds (display_size d) (r_size rg)) as Sz.
  pose proof (display_score_bounds (display_type d)) as D.
  pose proof (storage_type_score_bounds (storage_type d)) as T.
  pose proof (normalize_bounds (optZ (energy_star d)) 1 5) as E.
  repeat match goal with
         | |- context [if ?b then _ else _] => destruct b
         end; lra.
Qed.

(** The ownership sub-score is in range when the energy rating is at
    most 5 stars. *)
Lemma ownership_score_bounds (warranty energy : option Z) :
  (forall e, energy = Some e -> (0 <= e <= 5)%Z) ->
  0 <= _ownership_score warranty energy <= 100.
Proof.
  intros H. unfold _ownership_score.
  assert (E : forall e, energy = Some e -> 0 <= inject_Z (20 * e) <= 100).
  { intros e He. apply (@inject_Z_bounds _ 0 100). specialize (H e He). lia. }
  destruct warranty as [w |], energy as [e |];
    try specialize (E e eq_refl);
    repeat match goal with
           | |- context [if ?b then _ else _] => destruct b
           end;
    try lra;
    (split; [apply Qle_shift_div_l | apply Qle_shift_div_r]; lra).
Qed.

(** Rounding to one decimal keeps a score in range. *)
Lemma round1_bounds (x : Q) : 0 <= x <= 100 -> 0 <= round1 x <= 100.
Proof.
  intros [L U]. unfold round1.
  set (y := x * 10).
  assert (Ly : 0 <= y) by (unfold y; lra).
  assert (Uy : y <= 1000) by (unfold y; lra).
  assert (F0 : (0 <= Qfloor y)%Z)
    by (apply (Qfloor_resp_le 0 y) in Ly; exact Ly).
  assert (F1 : (Qfloor y <= 1000)%Z)
    by (apply (Qfloor_resp_le y 1000) in Uy; exact Uy).
  assert (R : (0 <= round_half_even y <= 1000)%Z).
  { unfold round_half_even.
    destruct (Qltb (y - inject_Z (Qfloor y)) (1 # 2)) eqn:E; [lia |].
    apply Qltb_false in E.
    assert (N : (Qfloor y <> 1000)%Z).
    { intros K. rewrite K in E.
      change (inject_Z 1000) with 1000 in E. lra. }
    destruct (Qltb (1 # 2) (y - inject_Z (Qfloor y)));
      [| destruct (Z.even (Qfloor y))]; lia. }
  assert (Rq : 0 <= inject_Z (round_half_even y) <= 1000)
    by (apply (@inject_Z_bounds _ 0 1000); exact R).
  split; [apply Qle_shift_div_l | apply Qle_shift_div_r]; lra.
Qed.

Lemma fold_min_le_acc (l : list Q) (a : Q) : fold_left Qmin l a <= a.
Proof.
  revert a. induction l as [| y r IH]; intros a; simpl; [apply Qle_refl |].
  eapply Qle_trans; [apply IH | apply Qmin_le_l].
Qed.

Lemma fold_max_ge_acc (l : list Q) (a : Q) : a <= fold_left Qmax l a.
Proof.
  revert a. induction l as [| y r IH]; intros a; simpl; [apply Qle_refl |].
  eapply Qle_trans; [apply Qmax_ge_l | apply IH].
Qed.

Lemma fold_min_le_in (l : list Q) (a x : Q) :
  In x l -> fold_left Qmin l a <= x.
Proof.
  revert a. induction l as [| y r IH]; intros a I; [contradiction |].
  destruct I as [E | I]; simpl.
  - subst y. eapply Qle_trans; [apply fold_min_le_acc | apply Qmin_le_r].
  - now apply IH.
Qed.

Lemma fold_max_ge_in (l : list Q) (a x : Q) :
  In x l -> x <= fold_left Qmax l a.
Proof.
  revert a. induction l as [| y r IH]; intros a I; [contradiction |].
  destruct I as [E | I]; simpl.
  - subst y. eapply Qle_trans; [apply Qmax_ge_r | apply fold_max_ge_acc].
  - now apply IH.
Qed.

(** Every value of the list lies in the range that [_safe_range]
    returns. *)
Lemma safe_range_covers (values : list Q) (dmin dmax x : Q) :
  In x values ->
  fst (_safe_range values dmin dmax) <= x
  /\ x <= snd (_safe_range values dmin dmax).
Proof.
  intros I. unfold _safe_range. destruct values as [| v r]; [contradiction |].
  assert (Lo : list_min v r <= x).
  { destruct I as [<- | I];
      [apply fold_min_le_acc | now apply fold_min_le_in]. }
  assert (Hi : x <= list_max v r).
  { destruct I as [<- | I];
      [apply fold_max_ge_acc | now apply fold_max_ge_in]. }
  destruct (Qeqb (list_max v r) (list_min v r)) eqn:E; simpl.
  - apply Qeq_bool_eq in E. split; lra.
  - now split.
Qed.

Lemma ratio_bounds (a lo hi : Q) :
  lo < hi -> lo <= a <= hi -> 0 <= 100 * (hi - a) / (hi - lo) <= 100.
Proof.
  intros D [A B].
  split; [apply Qle_shift_div_l | apply Qle_shift_div_r]; lra.
Qed.

Lemma fold_Zmax_ge_acc (l : list Z) (a : Z) : (a <= fold_left Z.max l a)%Z.
Proof.
  revert a. induction l as [| y r IH]; intros a; simpl; [lia |].
  specialize (IH (Z.max a y)). lia.
Qed.

Lemma max_or_zero_ge (l : list Z) (x : Z) : In x l -> (x <= max_or_zero l)%Z.
Proof.
  unfold max_or_zero. destruct l as [| c r]; [contradiction |].
  revert c. induction r as [| y r IH]; intros c I; simpl.
  - destruct I as [E | I]; [lia | contradiction].
  - destruct I as [E | [E | I]].
    + subst c. pose proof (fold_Zmax_ge_acc r (Z.max x y)). lia.
    + subst y. pose proof (fold_Zmax_ge_acc r (Z.max c x)). lia.
    + apply (IH (Z.max c y)). now right.
Qed.

(** The count that the scoring loop uses for a product is, when it is
    positive, one of the valid counts of the list. *)
Lemma review_cnt_valid (es : list enriched) (e : enriched) (cnt : Z) :
  In e es ->
  cnt = match rating_count_estimate (base e) with
        | None =>
            if Qltb 0 match rating_estimate (base e) with
                      | Some r => if Qeqb r 0 then 0 else r
                      | None => 0
                      end
            then 10%Z else 0%Z
        | Some c => c
        end ->
  (0 < cnt)%Z ->
  In cnt (filter (fun r => (1 <=? r)%Z) (reviews_of es)).
Proof.
  intros I -> P. apply filter_In. split.
  - unfold reviews_of. apply in_flat_map. exists e. split; [exact I |].
    destruct (rating_count_estimate (base e)) as [c |].
    + destruct (c =? 0)%Z eqn:Z0; [apply Z.eqb_eq in Z0; lia | now left].
    + unfold truthyQ.
      destruct (rating_estimate (base e)) as [r |].
      * destruct (Qeqb r 0); simpl in *; [lia |].
        destruct (Qltb 0 r); [now left | lia].
      * simpl in P. lia.
  - apply Z.leb_le. lia.
Qed.

Section LogFacts.

Hypothesis log_pos : forall x, 1 < x -> 0 < log x.
Hypothesis log_mono : forall x y, x <= y -> log x <= log y.

Lemma log_ratio_bounds (c m : Z) :
  (0 < c <= m)%Z ->
  0 <= 100 * log (inject_Z (1 + c)) / log (inject_Z (1 + m)) <= 100.
Proof.
  intros [C M].
  assert (A : 1 < inject_Z (1 + c)).
  { change 1 with (inject_Z 1). rewrite <- Zlt_Qlt. lia. }
  assert (B : inject_Z (1 + c) <= inject_Z (1 + m))
    by (rewrite <- Zle_Qle; lia).
  pose proof (log_pos A) as PA.
  pose proof (log_pos (Qlt_le_trans _ _ _ A B)) as PB.
  pose proof (log_mono B) as LM.
  split; [apply Qle_shift_div_l | apply Qle_shift_div_r]; lra.
Qed.

(** The scores of one product are in range when its price lies in the
    price range, its rating is between 0 and 5, a positive count is at
    most the maximum, and the energy rating is at most 5 stars. *)
Lemma score_one_in_range (category : string) (pmin pmax : Q) (rmax : Z)
  (n : nat) (rg : ranges) (e : enriched) :
  pmin < pmax ->
  pmin <= inject_Z (price_raw (base e)) / 100 <= pmax ->
  (forall r, rating_estimate (base e) = Some r -> 0 <= r <= 5) ->
  (forall c, c = match rating_count_estimate (base e) with
                 | None =>
                     if Qltb 0 match rating_estimate (base e) with
                               | Some r => if Qeqb r 0 then 0 else r
                               | None => 0
                               end
                     then 10%Z else 0%Z
                 | Some c => c
                 end -> (0 < c)%Z -> (c <= rmax)%Z) ->
  (forall s, energy_star (det e) = Some s -> (0 <= s <= 5)%Z) ->
  (0 <= performance_score (det e) <= 100)%Z ->
  Props.in_range (score_one log category pmin pmax rmax n rg e).
Proof.
  intros D Pr Ra Rc En Pf.
  unfold Props.in_range, score_one.
  cbn [rdm_score rdm_breakdown price_score rating_score review_score
       feature_score ownership_score].
  set (price := inject_Z (price_raw (base e)) / 100) in *.
  set (rating := match rating_estimate (base e) with
                 | Some r => if Qeqb r 0 then 0 else r
                 | None => 0
                 end) in *.
  set (cnt := match rating_count_estimate (base e) with
              | None => if Qltb 0 rating then 10%Z else 0%Z
              | Some c => c
              end) in *.
  assert (P : 0 <= (if Qltb pmin pmax
                    then 100 * (pmax - price) / (pmax - pmin) else 50)
              <= 100).
  { destruct (Qltb pmin pmax); [now apply ratio_bounds | lra]. }
  assert (R : 0 <= 20 * rating <= 100).
  { unfold rating. destruct (rating_estimate (base e)) as [r |]; [| lra].
    specialize (Ra r eq_refl). destruct (Qeqb r 0); lra. }
  assert (V : 0 <= (if (rmax <=? 0)%Z || (n <? 2)%nat || (rmax <? 50)%Z
                    then 50
                    else if (0 <? cnt)%Z
                         then 100 * log (inject_Z (1 + cnt))
                              / log (inject_Z (1 + rmax))
                         else 0) <= 100).
  { destruct ((rmax <=? 0)%Z || (n <? 2)%nat || (rmax <? 50)%Z); [lra |].
    destruct (0 <? cnt)%Z eqn:C; [| lra].
    apply Z.ltb_lt in C. apply log_ratio_bounds.
    split; [exact C | now apply (Rc cnt)]. }
  pose proof (ownership_score_bounds (warranty_years (det e)) En) as O.
  pose proof (@feature_score_bounds (det e) category rg Pf) as F.
  set (ps := if Qltb pmin pmax then _ else _) in *.
  set (rs := 20 * rating) in *.
  set (vs := if (rmax <=? 0)%Z || (n <? 2)%nat || (rmax <? 50)%Z
             then _ else _) in *.
  set (os := _ownership_score _ _) in *.
  set (fs := _feature_score _ _ _) in *.
  repeat split; try (apply round1_bounds; assumption);
    apply round1_bounds;
    repeat match goal with
           | |- context [if ?b then _ else _] => destruct b
           end; lra.
Qed.

End LogFacts.

Lemma calculate_eq (products : list product) (category : string) :
  products <> [] ->
  let es := map (enrich category) products in
  let range := _safe_range (prices_of es) 1 2 in
  let valid := filter (fun r => (1 <=? r)%Z) (reviews_of es) in
  calculate_rdm_scores log products category
  = sort_desc rdm_score
      (map (score_one log category (fst range) (snd range)
              (max_or_zero valid) (length valid) (build_ranges category es))
           es).
Proof.
  intros NE es range valid. subst es range valid.
  destruct products as [| p r]; [congruence |].
  unfold calculate_rdm_scores.
  now destruct (_safe_range (prices_of (map (enrich category) (p :: r))) 1 2).
Qed.

Lemma int_of_digits_nonneg (s : string) : (0 <= PyStr.int_of_digits s)%Z.
Proof.
  unfold PyStr.int_of_digits.
  assert (G : forall l acc, (0 <= acc)%Z ->
              (0 <= fold_left (fun a c => 10 * a + PyStr.digit_val c) l acc)%Z).
  { induction l as [| c l IH]; intros acc A; cbn [fold_left]; [exact A |].
    apply IH. unfold PyStr.digit_val. lia. }
  apply G. lia.
Qed.

Lemma extracted_details (title : string) (specs : list string)
  (category : string) :
  let d := extract_detailed_specs title specs category in
  (50 <= performance_score d <= 95)%Z
  /\ (forall s, energy_star d = Some s -> (0 <= s)%Z).
Proof.
  unfold extract_detailed_specs.
  set (text := PyStr.lower _).
  destruct (Regex.search re_storage text) as [sm |];
    cbn [performance_score energy_star].
  all: split; [apply performance_score_bounds |].
  all: intros s; destruct (Regex.search re_star text) as [em |];
    [| discriminate].
  all: destruct (Regex.group 1 em) as [g |]; simpl; [| discriminate].
  all: intros H; injection H as <-; apply int_of_digits_nonneg.
Qed.

Section RangeTheorem.

Hypothesis log_pos : forall x, 1 < x -> 0 < log x.
Hypothesis log_mono : forall x y, x <= y -> log x <= log y.

(** X7. When every product has a positive price and a rating between 0
    and 5 (or none), and no title or spec names more than 5 stars, the
    composite score and the five sub-scores of every entry are between
    0 and 100. *)
Theorem scores_in_range_for_priced_products
  (products : list product) (category : string) :
  Forall (fun p => (0 < price_raw p)%Z) products ->
  Forall (fun p => forall r, rating_estimate p = Some r -> 0 <= r <= 5)
         products ->
  Forall (fun p => forall s,
            energy_star (extract_detailed_specs (title p) (specs p) category)
            = Some s -> (s <= 5)%Z) products ->
  Forall Props.in_range (calculate_rdm_scores log products category).
Proof.
  intros Pp Pr Pe.
  destruct products as [| p0 r0] eqn:EP; [constructor |].
  rewrite <- EP in *.
  assert (NE : products <> []) by (rewrite EP; discriminate).
  rewrite (calculate_eq category NE).
  eapply Permutation_Forall; [apply Permutation_sym, sort_desc_perm |].
  apply Forall_forall. intros s Hs.
  apply in_map_iff in Hs. destruct Hs as (e & <- & He).
  pose proof He as He'.
  apply in_map_iff in He'. destruct He' as (p & <- & Hp).
  rewrite Forall_forall in Pp, Pr, Pe.
  specialize (Pp p Hp). specialize (Pr p Hp). specialize (Pe p Hp).
  destruct (extracted_details (title p) (specs p) category) as [Pf En].
  apply (score_one_in_range log_pos log_mono).
  - apply safe_range_increasing. lra.
  - apply safe_range_covers.
    unfold prices_of. apply in_map_iff. exists (enrich category p).
    split; [reflexivity |]. apply filter_In. split; [exact He |].
    cbn [base enrich]. destruct (price_raw p =? 0)%Z eqn:Z0;
      [apply Z.eqb_eq in Z0; lia | reflexivity].
  - exact Pr.
  - intros c Ec Pc. apply max_or_zero_ge.
    eapply review_cnt_valid; eassumption.
  - intros st Hst. cbn [det enrich] in Hst. split; [now apply En | now apply Pe].
  - cbn [det enrich]. lia.
Qed.

End RangeTheorem.

End EngineFacts.

Section EngineExamples.
Import Rdm Examples.
Local Open Scope Q_scope.

Lemma uniform_prices_score_100_witness :
  (same_price <> []
   /\ (0 < 100000)%Z
   /\ Forall (fun p => price_raw p = 100000%Z) same_price)
  /\ Forall (fun s => price_score (rdm_breakdown s) == 100)
         (calculate_rdm_scores (fun x => x) same_price "laptop").
Proof.
  assert (H : same_price <> []
              /\ (0 < 100000)%Z
              /\ Forall (fun p => price_raw p = 100000%Z) same_price)
    by (split; [discriminate | split; [lia | repeat constructor]]).
  split; [exact H |].
  destruct H as (NE & Pos & U).
  exact (@uniform_prices_score_100 (fun x => x) same_price "laptop"
           100000%Z NE Pos U).
Defined.

(** C6 (what the code does). With a priced and an unpriced product the
    unpriced one is measured against the range of the priced ones only:
    for [one_unpriced] the range is [1000, 1001], the price 0 of the
    second laptop gives the price sub-score 100100 and the composite
    score 20046.5, both far above 100; the result lists that laptop
    first. *)
Theorem unpriced_product_scores_above_100 (log : Q -> Q) :
  let out := calculate_rdm_scores log one_unpriced "laptop" in
  map (fun s => title (base (item s))) out = ["Laptop B"; "Laptop A"]
  /\ Forall2 (fun s v => price_score (rdm_breakdown s) == v) out [100100; 100]
  /\ Forall2 (fun s v => rdm_score s == v) out [20046.5; 66.5]
  /\ Exists (fun s => ~ price_score (rdm_breakdown s) <= 100
                      /\ ~ rdm_score s <= 100) out.
Proof.
  split; [| split; [| split]].
  - vm_compute. reflexivity.
  - vm_compute. repeat constructor.
  - vm_compute. repeat constructor.
  - vm_compute. apply Exists_cons_hd. split; intros H; now apply H.
Qed.

(** Two more ways out of the range: a rating above 5 and a title that
    says "9 star". *)
Lemma ownership_score_nine_star : _ownership_score None (Some 9%Z) == 180.
Proof. vm_compute. reflexivity. Qed.

Lemma energy_star_from_title :
  energy_star (extract_detailed_specs "Hotel 9 star mattress" [] "product")
  = Some 9%Z.
Proof. vm_compute. reflexivity. Qed.

Lemma scores_in_range_for_priced_products_witness :
  ((forall x : Q, 1 < x -> 0 < x)
   /\ (forall x y : Q, x <= y -> x <= y)
   /\ Forall (fun p => (0 < price_raw p)%Z) same_price
   /\ Forall (fun p => forall r, rating_estimate p = Some r -> 0 <= r <= 5)
        same_price
   /\ Forall (fun p => forall s,
                energy_star (extract_detailed_specs (title p) (specs p) "laptop")
                = Some s -> (s <= 5)%Z) same_price)
  /\ Forall Props.in_range (calculate_rdm_scores (fun x => x) same_price "laptop").
Proof.
  assert (H1 : forall x : Q, 1 < x -> 0 < x) by (intros x H; lra).
  assert (H2 : forall x y : Q, x <= y -> x <= y) by (intros x y H; exact H).
  assert (H3 : Forall (fun p => (0 < price_raw p)%Z) same_price)
    by (repeat constructor).
  assert (H4 : Forall (fun p => forall r, rating_estimate p = Some r ->
                                          0 <= r <= 5) same_price).
  { unfold same_price.
    repeat (apply Forall_cons; [simpl; intros r H; injection H as <-; lra |]).
    apply Forall_nil. }
  assert (H5 : Forall (fun p => forall s,
                energy_star (extract_detailed_specs (title p) (specs p) "laptop")
                = Some s -> (s <= 5)%Z) same_price).
  { unfold same_price.
    repeat (apply Forall_cons; [intros s H; vm_compute in H; discriminate |]).
    apply Forall_nil. }
  split; [repeat split; assumption |].
  exact (@scores_in_range_for_priced_products (fun x => x) H1 H2 same_price
           "laptop" H3 H4 H5).
Defined.

End EngineExamples.

(* ================================================================== *)
(** ** Properties of the spec extraction *)
(* ================================================================== *)

Section SpecFacts.
Import Rdm Json Names Pipeline Props.

(** C3. On the title of the claim, [extract_detailed_specs] gives memory
    16, storage type SSD and battery 4500, but it gives 16 as the
    storage size (its pattern stops at the first size, that of the
    memory) and no processor; the regex fallback of
    [enhance_product_with_gemini] reads the three spec strings of the
    memory, the storage and the battery, and no processor string.  That
    fallback is what the function returns only when its [try] block
    raised after the [import re]; when the block raised before (so,
    whenever the call of the provider fails), the function raises. *)
Theorem c3_title_extraction (category : string)
  (decode_error : string -> string) (unbound_error : string) (o : outcome) :
  let d := extract_detailed_specs c3_title [] category in
  ram_gb d = Some 16%Z
  /\ storage_gb d = Some 16%Z
  /\ storage_type d = Some "SSD"
  /\ battery_mah d = Some 4500%Z
  /\ processor d = None
  /\ ~ expected_details d
  /\ fallback_specs_of c3_title = ["16GB RAM"; "512GB SSD"; "4500mAh battery"]
  /\ match enhance_try decode_error category o with
     | Returned specifications why_pick =>
         enhance_product_with_gemini decode_error unbound_error c3_title
           category o
         = Ok (specifications, why_pick)
     | Excepted ReBound _ =>
         enhance_product_with_gemini decode_error unbound_error c3_title
           category o
         = Ok (JArr [JStr "16GB RAM"; JStr "512GB SSD";
                     JStr "4500mAh battery"],
               JStr ("Quality " ++ category ++ " alternative to consider"))
     | Excepted ReUnbound _ =>
         enhance_product_with_gemini decode_error unbound_error c3_title
           category o
         = Raise unbound_error
     end
  /\ (forall error_msg,
        enhance_product_with_gemini decode_error unbound_error c3_title
          category (Failed error_msg)
        = Raise unbound_error).
Proof.
  assert (F : fallback_specs_of c3_title
              = ["16GB RAM"; "512GB SSD"; "4500mAh battery"])
    by (vm_compute; reflexivity).
  cbv zeta.
  split; [vm_compute; reflexivity |].
  split; [vm_compute; reflexivity |].
  split; [vm_compute; reflexivity |].
  split; [vm_compute; reflexivity |].
  split; [vm_compute; reflexivity |].
  split; [intros (_ & H & _); vm_compute in H; discriminate |].
  split; [exact F |].
  split.
  - unfold enhance_product_with_gemini.
    destruct (enhance_try decode_error category o) as [sp w | [|] m];
      cbn [enhance_except]; [reflexivity | reflexivity |].
    rewrite F. reflexivity.
  - intros error_msg. reflexivity.
Qed.

(** The [try] block on examples: an answer without any brace raises
    after the import, so the title is read; an answer that is blank
    raises before it; a fenced answer is returned. *)
Lemma enhance_try_examples (decode_error : string -> string) :
  enhance_try decode_error "laptop"
    (Responded {| candidates := []; text := Some "no specs, sorry" |})
  = Excepted ReBound "Could not find JSON in response"
  /\ enhance_try decode_error "laptop"
       (Responded {| candidates := []; text := Some "  " |})
     = Excepted ReUnbound "Empty response from Gemini"
  /\ enhance_try decode_error "laptop"
       (Responded {| candidates := [];
                     text := Some (dq "```json {'specifications': ['8GB RAM'], 'why_pick': 'Light'} ```") |})
     = Returned (JArr [JStr "8GB RAM"]) (JStr "Light").
Proof. repeat split; vm_compute; reflexivity. Qed.

(** The patterns do find a processor that is written the way they
    expect. *)
Lemma processor_patterns_examples :
  processor (extract_detailed_specs "Intel Core i7 laptop" [] "laptop")
  = Some "intel core i7"
  /\ fallback_specs_of "Core i7-1165G7 laptop" = ["Core i7-1165G7"].
Proof. split; vm_compute; reflexivity. Qed.

End SpecFacts.

(* ================================================================== *)
(** ** Properties of the category detection *)
(* ================================================================== *)

Section ClassifierFacts.
Import PyStr Classifier.

Lemma any_in_intro (k : string) (keys : list string) (s : string) :
  In k keys -> contains k s = true -> any_in keys s = true.
Proof.
  intros I C. unfold any_in. apply existsb_exists. now exists k.
Qed.

(** C2 as stated fails: a title with "case" and "tablet" is a tablet for
    the detection, as is one with "bag" and "phone" a smartphone, and a
    laptop stand whose title also mentions a monitor a laptop. *)
Lemma tablet_case_is_tablet :
  contains "case" (lower "Tablet Case") = true
  /\ contains "tablet" (lower "Tablet Case") = true
  /\ detect_category "Tablet Case" = "tablet"
  /\ detect_category "Phone Bag" = "smartphone"
  /\ detect_category "Laptop Stand with Monitor Riser" = "laptop".
Proof. repeat split; vm_compute; reflexivity. Qed.

Ltac accessory_found :=
  split; [simpl; auto 10 | simpl; intuition discriminate].

Ltac next_rule :=
  match goal with
  | |- context [if ?c then _ else _] =>
      let E := fresh "E" in destruct c eqn:E; [accessory_found |]
  end.

(** C2, amended. A title whose lower-case text has "laptop" with
    "case", "bag" or "table", or "phone" with "case", or "charger", or
    "stand" without "tv" and "monitor", gets one of the six accessory
    categories and none of laptop, smartphone or tablet. *)
Theorem accessory_rules_first (product_title : string) :
  let t := lower product_title in
  (contains "laptop" t = true
   /\ (contains "case" t = true \/ contains "bag" t = true
       \/ contains "table" t = true))
  \/ (contains "phone" t = true /\ contains "case" t = true)
  \/ contains "charger" t = true
  \/ (contains "stand" t = true /\ any_in ["tv"; "monitor"] t = false) ->
  In (detect_category product_title) accessory_categories
  /\ ~ In (detect_category product_title) device_categories.
Proof.
  intros t H. unfold detect_category, category_of_lower. fold t.
  cbv beta zeta.
  do 6 next_rule.
  exfalso.
  assert (K : forall k keys, In k keys -> contains k t = true ->
                             any_in keys t = true)
    by (intros; eapply any_in_intro; eassumption).
  destruct H as [[L [C | [B | T]]] | [[P C] | [C | [S M]]]].
  - rewrite (K "case"), (K "laptop") in E1; simpl; auto 10; discriminate.
  - rewrite (K "bag"), (K "laptop") in E1; simpl; auto 10; discriminate.
  - rewrite (K "table"), (K "laptop") in E; simpl; auto 10; discriminate.
  - rewrite (K "case"), (K "phone") in E2; simpl; auto 10; discriminate.
  - rewrite (K "charger") in E3; simpl; auto 10; discriminate.
  - rewrite (K "stand"), M in E4; simpl; auto 10; discriminate.
Qed.

Lemma accessory_rules_first_witness :
  (contains "stand" (lower "Laptop Stand") = true
   /\ any_in ["tv"; "monitor"] (lower "Laptop Stand") = false)
  /\ In (detect_category "Laptop Stand") accessory_categories
  /\ ~ In (detect_category "Laptop Stand") device_categories.
Proof.
  assert (H : contains "stand" (lower "Laptop Stand") = true
              /\ any_in ["tv"; "monitor"] (lower "Laptop Stand") = false)
    by (split; vm_compute; reflexivity).
  split; [exact H |].
  apply (accessory_rules_first "Laptop Stand").
  right. right. right. exact H.
Defined.

End ClassifierFacts.

(* ================================================================== *)
(** ** Properties of the quality filter and of the validation *)
(* ================================================================== *)

Section FilterFacts.
Import PyStr Pipeline Props.

Lemma quality_filter_acc (alternatives valid : list Product) (n : nat) :
  quality_filter alternatives valid n
  = (valid ++ filter should_keep alternatives,
     n + length (filter (fun a => negb (should_keep a)) alternatives)).
Proof.
  revert valid n. induction alternatives as [| a r IH]; intros valid n; simpl.
  - now rewrite app_nil_r, Nat.add_0_r.
  - destruct (should_keep a); simpl; rewrite IH.
    + now rewrite <- app_assoc.
    + f_equal. lia.
Qed.

Lemma filter_lengths (A : Type) (f : A -> bool) (l : list A) :
  length (filter f l) + length (filter (fun a => negb (f a)) l) = length l.
Proof.
  induction l as [| a r IH]; simpl; [reflexivity |].
  destruct (f a); simpl; lia.
Qed.

Lemma has_image_iff (alt : Product) :
  has_image alt = true <-> image_url alt <> EmptyString.
Proof.
  unfold has_image. rewrite negb_true_iff. apply String.eqb_neq.
Qed.

Lemma has_price_iff (alt : Product) :
  has_price alt = true <-> (0 < price_raw alt)%Z.
Proof. unfold has_price. apply Z.ltb_lt. Qed.

Lemma should_keep_iff (alt : Product) : should_keep alt = true <-> keep_rule alt.
Proof.
  unfold should_keep, keep_rule.
  rewrite <- has_image_iff, <- has_price_iff, <- Nat.leb_le.
  destruct (has_image alt), (has_price alt), (2 <=? quality_score alt);
    simpl; intuition congruence.
Qed.

(** C7. The filter keeps exactly the candidates that have an image and a
    positive price, or one of the two and a quality score of at least 2;
    the score counts the four signals (price, title, direct link,
    image), so it is between 0 and 4; the kept candidates stay in their
    order; a candidate with an image and a price is always kept. *)
Theorem quality_filter_keep_rule (alternatives : list Product) (alt : Product) :
  fst (quality_filter alternatives [] 0) = filter should_keep alternatives
  /\ (In alt (fst (quality_filter alternatives [] 0))
      <-> In alt alternatives /\ keep_rule alt)
  /\ quality_score alt
     = Nat.b2n (price_ok alt) + Nat.b2n (title_ok alt)
       + Nat.b2n (url_ok alt) + Nat.b2n (image_ok alt)
  /\ quality_score alt <= 4
  /\ (image_url alt <> EmptyString /\ (0 < price_raw alt)%Z ->
      should_keep alt = true).
Proof.
  assert (Q : quality_score alt
              = Nat.b2n (price_ok alt) + Nat.b2n (title_ok alt)
                + Nat.b2n (url_ok alt) + Nat.b2n (image_ok alt)).
  { unfold quality_score.
    destruct (price_ok alt), (title_ok alt), (url_ok alt), (image_ok alt);
      reflexivity. }
  rewrite quality_filter_acc. simpl.
  split; [reflexivity |].
  split; [rewrite filter_In, should_keep_iff; reflexivity |].
  split; [exact Q |].
  split.
  - rewrite Q.
    destruct (price_ok alt), (title_ok alt), (url_ok alt), (image_ok alt);
      simpl; lia.
  - intros H. apply should_keep_iff. now left.
Qed.

(** *** Validation *)

Lemma prefix_append (a b : string) : prefix a (a ++ b) = true.
Proof.
  induction a as [| c a IH]; simpl.
  - now destruct b.
  - destruct (ascii_dec c c) as [_ | N]; [exact IH | congruence].
Qed.


Lemma contains_of_prefix (sub s : string) :
  prefix sub s = true -> contains sub s = true.
Proof. intros H. destruct s; simpl in *; now rewrite H. Qed.

Lemma contains_append_r (sub a s : string) :
  contains sub s = true -> contains sub (a ++ s) = true.
Proof.
  intros H. induction a as [| c a IH]; simpl; [exact H |].
  rewrite IH. apply orb_true_r.
Qed.

Lemma append_assoc (a b c : string) : ((a ++ b) ++ c = a ++ b ++ c)%string.
Proof. induction a as [| x a IH]; simpl; [reflexivity | now rewrite IH]. Qed.





End FilterFacts.

Section EndpointExamples.
Import PyStr Json Names Pipeline Build Examples.


End EndpointExamples.

(* ================================================================== *)
(** ** Properties of the retry policy *)
(* ================================================================== *)

Section RetryFacts.
Import PyStr Json Names Examples.

Variable n_keys : nat.
Variable generate_content : nat -> nat -> outcome.

Lemma count_calls_app (a b : list event) :
  count_calls (a ++ b) = count_calls a + count_calls b.
Proof. unfold count_calls. now rewrite filter_app, length_app. Qed.

Lemma count_calls_call (tr : list event) (a k : nat) :
  count_calls (tr ++ [Call a k]) = S (count_calls tr).
Proof. rewrite count_calls_app. unfold count_calls. simpl. lia. Qed.

Lemma count_calls_switch (tr : list event) (k : nat) :
  count_calls (tr ++ [Switch k]) = count_calls tr.
Proof. rewrite count_calls_app. unfold count_calls. simpl. lia. Qed.

Lemma count_calls_sleep (tr : list event) (d : nat) :
  count_calls (tr ++ [Sleep d]) = count_calls tr.
Proof. rewrite count_calls_app. unfold count_calls. simpl. lia. Qed.

(** Every iteration of the loop, rotation or not, makes one call; the
    loop makes at most as many calls as it has iterations left. *)
Lemma retry_loop_calls (max_retries base_delay fuel : nat) :
  forall attempt key last tr,
    count_calls (snd (retry_loop n_keys generate_content max_retries
                        base_delay fuel attempt key last tr))
    <= count_calls tr + fuel.
Proof.
  induction fuel as [| fuel IH]; intros attempt key last tr;
    cbn [retry_loop].
  - cbn [snd]. lia.
  - destruct (generate_content key attempt) as [r | msg].
    + cbn [snd]. rewrite count_calls_call. lia.
    + destruct (is_quota msg && (key <? n_keys - 1)).
      * eapply Nat.le_trans; [apply IH |].
        rewrite count_calls_switch, count_calls_call. lia.
      * destruct (negb (is_503 msg) || (attempt =? max_retries - 1)).
        -- cbn [snd]. rewrite count_calls_call. lia.
        -- eapply Nat.le_trans; [apply IH |].
           rewrite count_calls_sleep, count_calls_call. lia.
Qed.

(** The key index never goes back. *)
Lemma retry_loop_key_monotone (max_retries base_delay fuel : nat) :
  forall attempt key last tr,
    key <= snd (fst (retry_loop n_keys generate_content max_retries
                       base_delay fuel attempt key last tr)).
Proof.
  induction fuel as [| fuel IH]; intros attempt key last tr;
    cbn [retry_loop].
  - cbn [fst snd]. lia.
  - destruct (generate_content key attempt) as [r | msg];
      [cbn [fst snd]; lia |].
    destruct (is_quota msg && (key <? n_keys - 1)).
    + eapply Nat.le_trans; [| apply IH]. lia.
    + destruct (negb (is_503 msg) || (attempt =? max_retries - 1));
        [cbn [fst snd]; lia | apply IH].
Qed.

(** C5, amended. On a quota error with a further key left the loop
    moves to the next key and goes on at once, with no delay in between,
    but it goes on with the next value of the attempt counter and one
    iteration less: the rotation takes one of the [max_retries]
    attempts.  In all, the loop never calls the provider more than
    [max_retries] times. *)
Theorem quota_rotation_takes_an_attempt
  (max_retries base_delay fuel attempt key : nat)
  (last : option string) (tr : list event) (error_msg : string) :
  generate_content key attempt = Failed error_msg ->
  is_quota error_msg = true ->
  key < n_keys - 1 ->
  retry_loop n_keys generate_content max_retries base_delay (S fuel)
    attempt key last tr
  = retry_loop n_keys generate_content max_retries base_delay fuel
      (S attempt) (S key) (Some error_msg)
      (tr ++ [Call attempt key; Switch (S key)])
  /\ count_calls (snd (retry_gemini_with_backoff n_keys generate_content
                         max_retries base_delay key))
     <= max_retries.
Proof.
  intros G Q K. split.
  - cbn [retry_loop]. rewrite G, Q.
    apply Nat.ltb_lt in K. rewrite K. cbn [andb].
    now rewrite <- app_assoc.
  - unfold retry_gemini_with_backoff.
    eapply Nat.le_trans; [apply retry_loop_calls |].
    unfold count_calls. simpl. lia.
Qed.

End RetryFacts.

Section RetryExamples.
Import PyStr Json Names Examples.

(** C5 as stated fails.  With three keys, the first two out of quota and
    the third overloaded once: the two rotations are attempts 0 and 1,
    the call under the third key is attempt 2, the last one, so its
    overload error is raised at once, with no backoff at all. *)
Lemma rotations_use_up_the_attempts :
  retry_gemini_with_backoff 3 quota_then_overload 3 2 0
  = (Raise "503 model overloaded", 2,
     [Call 0 0; Switch 1; Call 1 1; Switch 2; Call 2 2]).
Proof. vm_compute. reflexivity. Qed.

(** Without the rotations the same overload is retried after a delay. *)
Lemma overload_alone_is_retried :
  retry_gemini_with_backoff 3
    (fun key attempt => if attempt =? 0 then Failed "503 model overloaded"
                        else Responded ok_response) 3 2 2
  = (Ok ok_response, 2, [Call 0 2; Sleep 2; Call 1 2]).
Proof. vm_compute. reflexivity. Qed.

Lemma quota_rotation_takes_an_attempt_witness :
  (quota_then_overload 0 0 = Failed "429 quota exceeded"
   /\ is_quota "429 quota exceeded" = true
   /\ 0 < 3 - 1)
  /\ retry_loop 3 quota_then_overload 3 2 3 0 0 None []
     = retry_loop 3 quota_then_overload 3 2 2 1 1
         (Some "429 quota exceeded") ([] ++ [Call 0 0; Switch 1])
  /\ count_calls (snd (retry_gemini_with_backoff 3 quota_then_overload 3 2 0))
     <= 3.
Proof.
  split.
  - split; [reflexivity | split; [vm_compute; reflexivity | lia]].
  - apply (@quota_rotation_takes_an_attempt 3 quota_then_overload 3 2 2 0 0
             None [] "429 quota exceeded").
    + reflexivity.
    + vm_compute; reflexivity.
    + lia.
Defined.

End RetryExamples.

(* ================================================================== *)
(** ** Properties of the tolerant parser *)
(* ================================================================== *)

Section ParserFacts.
Import PyStr Json Names Pipeline Examples.

(** C4 (what the code does). For a text cut inside the array of names
    the direct parse fails, there is no complete root object, and the
    repair appends only the closing brace: the closing bracket is added
    only when the text has the key "alternatives", which the prompt
    never asks for.  The repaired text does not parse and the parser
    raises, although the two missing characters would have given the
    list of names. *)
Theorem truncated_name_list_not_recovered (decode_error : string -> string) :
  json_text_of truncated_names = truncated_names
  /\ loads truncated_names = None
  /\ complete_json truncated_names = Some (truncated_names ++ "}")%string
  /\ loads (truncated_names ++ "}") = None
  /\ parse_json_text decode_error truncated_names
     = Raise ("Could not extract or fix JSON from AI response. Error: "
              ++ decode_error truncated_names)
  /\ loads (truncated_names ++ "]}")
     = Some (JObj [("product_names",
                    JArr [JStr "Dell XPS 13"; JStr "HP Envy 14"])]).
Proof.
  repeat split; vm_compute; reflexivity.
Qed.

(** With the key that the repair looks for, the same cut is repaired. *)
Lemma truncated_alternatives_recovered (decode_error : string -> string) :
  parse_json_text decode_error truncated_alternatives
  = Ok (JObj [("alternatives",
               JArr [JStr "Dell XPS 13"; JStr "HP Envy 14"])]).
Proof. vm_compute. reflexivity. Qed.

End ParserFacts.

(* ================================================================== *)
(** ** Properties of the candidate names *)
(* ================================================================== *)

Section NamesFacts.
Import PyStr Json Names Pipeline Props.

Lemma length_take (n : nat) (s : string) :
  String.length (take n s) = Nat.min n (String.length s).
Proof.
  revert s. induction n as [| n IH]; intros [| c s]; simpl; auto.
Qed.

Lemma take_all (s : string) : take (String.length s) s = s.
Proof. induction s as [| c s IH]; simpl; [reflexivity | now rewrite IH]. Qed.

Lemma chars_length (s : string) : length (chars s) = String.length s.
Proof.
  unfold chars. induction s as [| c s IH]; simpl; [reflexivity | now rewrite IH].
Qed.

(** After the padding loop there are at least three items. *)
Lemma pad_names_3 (category : string) (v w : json) :
  pad_names 3 category v = Ok w -> at_least3 w.
Proof.
  destruct v as [| b | n | s | l | d]; cbn [pad_names py_len bind].
  - discriminate.
  - discriminate.
  - destruct (is_float_lexeme n); discriminate.
  - destruct (Nat.ltb_spec (String.length s) 3) as [L | L].
    + cbn [py_append bind]. discriminate.
    + intros H. injection H as <-. right. left. now exists s.
  - destruct l as [| a [| b [| c r]]]; cbn; intros H; injection H as <-;
      left; eexists; (split; [reflexivity | simpl; lia]).
  - destruct (Nat.ltb_spec (dict_len d) 3) as [L | L].
    + cbn [py_append bind]. discriminate.
    + intros H. injection H as <-. right. right. now exists d.
Qed.

(** The cut to six items. *)
Lemma truncate_to_6 (w u : json) :
  at_least3 w ->
  (n <- py_len w ;; if 6 <? n then py_slice w 6 else Ok w) = Ok u ->
  sized true u.
Proof.
  intros [(l & -> & L) | [(s & -> & L) | (d & -> & L)]];
    cbn [py_len bind py_slice].
  - destruct (Nat.ltb_spec 6 (length l)) as [G | G]; intros H.
    + assert (E : u = JArr (firstn 6 l)) by congruence. subst u.
      left. eexists. split; [reflexivity |].
      rewrite length_firstn. lia.
    + assert (E : u = JArr l) by congruence. subst u.
      left. exists l. split; [reflexivity | lia].
  - destruct (Nat.ltb_spec 6 (String.length s)) as [G | G]; intros H.
    + assert (E : u = JStr (take 6 s)) by congruence. subst u.
      right. left. eexists. split; [reflexivity |].
      rewrite length_take. lia.
    + assert (E : u = JStr s) by congruence. subst u.
      right. left. exists s. split; [reflexivity | lia].
  - destruct (Nat.ltb_spec 6 (dict_len d)) as [G | G]; [discriminate |].
    intros H. assert (E : u = JObj d) by congruence. subst u.
    right. right. split; [reflexivity |].
    exists d. split; [reflexivity | lia].
Qed.

Lemma names_of_data_sized (category : string) (data u : json) :
  names_of_data category data = Ok u -> sized true u.
Proof.
  destruct data as [| b | n | s | l | d]; cbn [names_of_data];
    try discriminate.
  - destruct (is_float_lexeme n); discriminate.
  - destruct (pad_names 3 category
                match dict_get "product_names" d with
                | Some v => v
                | None => JArr []
                end) as [w | m] eqn:P; cbn [bind]; [| discriminate].
    apply truncate_to_6. eapply pad_names_3; eassumption.
Qed.

(** For a list of names: the placeholders "Alternative <category> N"
    up to three names, then the first six. *)
Lemma pad_names_list (category : string) (l : list json) :
  pad_names 3 category (JArr l)
  = Ok (JArr (l ++ placeholders category (length l))).
Proof.
  destruct l as [| a [| b [| c r]]]; cbn; rewrite ?app_nil_r; reflexivity.
Qed.

Lemma names_of_data_list (category : string) (d : list (string * json))
  (l : list json) :
  dict_get "product_names" d = Some (JArr l) ->
  names_of_data category (JObj d)
  = Ok (JArr (firstn 6 (l ++ placeholders category (length l)))).
Proof.
  intros H. unfold names_of_data. rewrite H, pad_names_list.
  cbn [bind py_len].
  destruct (Nat.ltb_spec 6 (length (l ++ placeholders category (length l))))
    as [G | G]; cbn [py_slice]; [reflexivity |].
  now rewrite firstn_all2.
Qed.

Variable n_keys : nat.
Variable generate_content : nat -> nat -> outcome.
Variable decode_error : string -> string.

Lemma names_of_response_sized (category c : string) (r : response) (u : json) :
  names_of_response decode_error category r = Ok (c, u) -> sized true u.
Proof.
  unfold names_of_response.
  destruct (candidates r) as [| candidate rest]; [discriminate |].
  destruct (is_safety (finish_reason candidate)); [discriminate |].
  destruct (response_text r candidate) as [t |]; [| discriminate].
  destruct (String.length (strip t) =? 0); [discriminate |].
  destruct (parse_json_text decode_error (json_text_of t)) as [data | m];
    cbn [bind]; [| discriminate].
  destruct (names_of_data category data) as [v | m] eqn:N; cbn [bind];
    [| discriminate].
  intros H. injection H as _ <-. eapply names_of_data_sized; eassumption.
Qed.

(** What the [try] block returns is a list or a string of 3 to 6
    items: a dictionary makes the slice of the log line raise. *)
Lemma try_names_sized (product_title : string) (key : nat) (c : string)
  (u : json) :
  fst (fst (try_names n_keys generate_content decode_error product_title key))
  = Ok (c, u) ->
  sized false u.
Proof.
  unfold try_names, call_llm_for_product_names.
  destruct (retry_gemini_with_backoff n_keys generate_content 3 2 key)
    as [[r key'] tr].
  cbn [fst].
  destruct r as [resp | m]; cbn [bind]; [| discriminate].
  destruct (names_of_response decode_error
              (Classifier.detect_category product_title) resp)
    as [[c' v] | m] eqn:N; cbn [bind]; [| discriminate].
  apply names_of_response_sized in N.
  destruct N as [(l & -> & L) | [(s & -> & L) | (_ & d & -> & L)]];
    cbn [py_len py_slice bind]; intros H; try discriminate;
    injection H as _ <-.
  - left. now exists l.
  - right. left. now exists s.
Qed.

Lemma fallback_names_sized (product_title error_msg : string) :
  sized false (snd (fallback_names product_title error_msg)).
Proof.
  unfold fallback_names.
  repeat match goal with
         | |- context [if ?b then _ else _] => destruct b
         end;
    left; eexists; (split; [reflexivity | simpl; lia]).
Qed.

Lemma searched_names_ok (category : string) (v : json) :
  sized false v ->
  exists num_products names,
    searched_names (category, v) = Ok (category, num_products, names)
    /\ length names = num_products
    /\ 3 <= num_products <= 6.
Proof.
  intros [(l & -> & L) | [(s & -> & L) | (F & _)]]; [| | discriminate F];
    unfold searched_names; cbn [py_len bind].
  - rewrite (Nat.min_l (length l) 6) by lia.
    destruct (Nat.ltb_spec (length l) 3) as [G | G]; [lia |].
    cbn [bind py_slice py_items]. rewrite firstn_all.
    exists (length l), l. repeat split; lia.
  - rewrite (Nat.min_l (String.length s) 6) by lia.
    destruct (Nat.ltb_spec (String.length s) 3) as [G | G]; [lia |].
    cbn [bind py_slice py_items]. rewrite take_all.
    eexists _, _. split; [reflexivity |].
    rewrite length_map, chars_length. repeat split; lia.
Qed.

(** The names stage always returns, with 3 to 6 names. *)
Lemma candidate_names_ok (product_title : string) (key : nat) :
  exists category num_products names,
    fst (fst (candidate_names n_keys generate_content decode_error
                product_title key))
    = Ok (category, num_products, names)
    /\ length names = num_products
    /\ 3 <= num_products <= 6.
Proof.
  unfold candidate_names.
  pose proof (@try_names_sized product_title key) as T.
  destruct (try_names n_keys generate_content decode_error product_title key)
    as [[r key'] tr].
  cbn [fst] in *.
  destruct r as [[c v] | m].
  - exists c. apply searched_names_ok. now apply (T c v).
  - pose proof (fallback_names_sized product_title m) as F.
    destruct (fallback_names product_title m) as [c v]. cbn [snd] in F.
    exists c. now apply searched_names_ok.
Qed.

(** A list of 3 to 6 names is searched as it is. *)
Lemma searched_names_list (category : string) (l : list json) :
  3 <= length l <= 6 ->
  searched_names (category, JArr l) = Ok (category, length l, l).
Proof.
  intros L. unfold searched_names. cbn [py_len bind].
  rewrite (Nat.min_l (length l) 6) by lia.
  destruct (Nat.ltb_spec (length l) 3) as [G | G]; [lia |].
  cbn [bind py_slice py_items]. now rewrite firstn_all.
Qed.

Lemma padded_length (category : string) (l : list json) :
  3 <= length (firstn 6 (l ++ placeholders category (length l))) <= 6.
Proof.
  rewrite length_firstn, length_app. unfold placeholders.
  rewrite length_map, length_seq. lia.
Qed.

(** The [try] block on an answer that parses to a dictionary: the list
    under [product_names] (the empty list without that key), padded
    and cut. *)
Lemma try_names_list (product_title : string) (key : nat) (r : response)
  (candidate : Names.candidate) (rest : list Names.candidate) (t : string)
  (d : list (string * json)) (l : list json) :
  fst (fst (retry_gemini_with_backoff n_keys generate_content 3 2 key)) = Ok r ->
  candidates r = candidate :: rest ->
  is_safety (finish_reason candidate) = false ->
  response_text r candidate = Some t ->
  strip t <> EmptyString ->
  parse_json_text decode_error (json_text_of t) = Ok (JObj d) ->
  match dict_get "product_names" d with
  | Some v => v
  | None => JArr []
  end = JArr l ->
  fst (fst (try_names n_keys generate_content decode_error product_title key))
  = Ok (Classifier.detect_category product_title,
        JArr (firstn 6
                (l ++ placeholders (Classifier.detect_category product_title)
                        (length l)))).
Proof.
  intros R C S T B P D.
  unfold try_names, call_llm_for_product_names.
  destruct (retry_gemini_with_backoff n_keys generate_content 3 2 key)
    as [[r0 key'] tr].
  cbn [fst] in *. subst r0. cbn [bind].
  unfold names_of_response. rewrite C, S, T.
  destruct (String.length (strip t) =? 0) eqn:E.
  - apply Nat.eqb_eq in E. destruct (strip t); [now elim B | discriminate].
  - rewrite P. cbn [bind].
    set (category := Classifier.detect_category product_title).
    assert (N : names_of_data category (JObj d)
                = Ok (JArr (firstn 6 (l ++ placeholders category (length l))))).
    { unfold names_of_data. rewrite D, pad_names_list. cbn [bind py_len].
      destruct (Nat.ltb_spec 6
                  (length (l ++ placeholders category (length l))))
        as [G | G]; cbn [py_slice]; [reflexivity |].
      now rewrite firstn_all2. }
    rewrite N. cbn [bind py_len py_slice]. reflexivity.
Qed.

(** The names of the [except] branch, by cases. *)
Lemma fallback_names_static (product_title error_msg : string) :
  exists category l,
    fallback_names product_title error_msg = (category, JArr l)
    /\ static_fallback product_title error_msg category l.
Proof.
  unfold fallback_names, static_fallback. cbv zeta.
  destruct (is_quota_error error_msg).
  - destruct (any_in ["tablet"; "ipad"; "pad"] (lower product_title)) eqn:T;
      [| destruct (any_in ["tab"] (lower product_title)) eqn:B;
         [destruct (any_in ["idea"; "galaxy"; "lenovo"; "xiaomi"; "samsung"]
                      (lower product_title)) |]];
      cbn [orb andb].
    1, 2: eexists _, _; split; [reflexivity |];
      repeat split; try discriminate; simpl; auto.
    all: destruct (any_in ["laptop"; "notebook"] (lower product_title)) eqn:L;
      [eexists _, _; split; [reflexivity |];
       repeat split; try discriminate; simpl; auto |].
    all: destruct (any_in ["phone"; "smartphone"; "mobile"]
                     (lower product_title)) eqn:P;
      [eexists _, _; split; [reflexivity |];
       repeat split; try discriminate; simpl; auto |].
    all: destruct (any_in ["speaker"; "soundbar"] (lower product_title)) eqn:S;
      eexists _, _; (split; [reflexivity |]);
      repeat split; try discriminate; simpl; auto 10.
  - destruct (any_in ["laptop"; "notebook"] (lower product_title)) eqn:L;
      [eexists _, _; split; [reflexivity |];
       repeat split; try discriminate; simpl; auto |].
    destruct (any_in ["tablet"; "ipad"; "pad"] (lower product_title)) eqn:T;
      eexists _, _; (split; [reflexivity |]);
      repeat split; try discriminate; simpl; auto 10.
Qed.

(** C8. Whatever the provider does at each call, for every number of
    keys, every key index and every title, the names stage returns (it
    does not raise) a category and the names to search, between 3 and 6
    of them.  When the answer of the provider parses to a dictionary
    with a list under [product_names] (the empty list without that
    key), the category is the detected one and the names are that list,
    followed below three names by the placeholders
    "Alternative <category> N" up to three, and cut to its first six.
    When the [try] block raises (the provider failed after the retries
    and the keys, or its answer did not parse), the category and the
    names are the static fallback for the title and the error. *)
Theorem candidate_names_between_3_and_6 (product_title : string) (key : nat) :
  exists category names,
    fst (fst (candidate_names n_keys generate_content decode_error
                product_title key))
    = Ok (category, length names, names)
    /\ 3 <= length names <= 6
    /\ (forall r candidate rest t d l,
          fst (fst (retry_gemini_with_backoff n_keys generate_content 3 2 key))
          = Ok r ->
          candidates r = candidate :: rest ->
          is_safety (finish_reason candidate) = false ->
          response_text r candidate = Some t ->
          strip t <> EmptyString ->
          parse_json_text decode_error (json_text_of t) = Ok (JObj d) ->
          match dict_get "product_names" d with
          | Some v => v
          | None => JArr []
          end = JArr l ->
          category = Classifier.detect_category product_title
          /\ names = firstn 6 (l ++ placeholders category (length l)))
    /\ (forall error_msg,
          fst (fst (try_names n_keys generate_content decode_error
                      product_title key)) = Raise error_msg ->
          fallback_names product_title error_msg = (category, JArr names)
          /\ static_fallback product_title error_msg category names).
Proof.
  destruct (candidate_names_ok product_title key)
    as (c & n & names & E & L & B).
  exists c, names. subst n.
  split; [exact E |]. split; [exact B |].
  unfold candidate_names in E.
  split.
  - intros r candidate rest t d l R C S T N P D.
    pose proof (@try_names_list product_title key r candidate rest t d l
                  R C S T N P D) as Y.
    destruct (try_names n_keys generate_content decode_error product_title key)
      as [[r0 key'] tr].
    cbn [fst] in *. subst r0.
    rewrite searched_names_list in E by apply padded_length.
    injection E as <- _ <-. split; reflexivity.
  - intros error_msg Y.
    destruct (try_names n_keys generate_content decode_error product_title key)
      as [[r0 key'] tr].
    cbn [fst] in *. subst r0.
    destruct (fallback_names_static product_title error_msg)
      as (c' & l' & F & S).
    rewrite F in E.
    assert (G : 3 <= length l' <= 6).
    { destruct S as (_ & _ & G & _). rewrite G.
      destruct (is_quota_error error_msg);
        [destruct (String.eqb c' "product") |]; lia. }
    rewrite searched_names_list in E by exact G.
    injection E as <- _ <-. split; [exact F | exact S].
Qed.

End NamesFacts.

Section NamesExamples.
Import PyStr Json Names Pipeline Examples.

(** The three ways to the 3 to 6 names: padding with placeholders,
    cutting to six, and the static list when the provider is out. *)
Lemma one_name_is_padded (decode_error : string -> string) :
  fst (fst (candidate_names 3 one_name decode_error "Acer Aspire Laptop" 0))
  = Ok ("laptop", 3,
        [JStr "Acer Swift 3"; JStr "Alternative laptop 2";
         JStr "Alternative laptop 3"]).
Proof. vm_compute. reflexivity. Qed.

Lemma seven_names_are_cut (decode_error : string -> string) :
  fst (fst (candidate_names 3 seven_names decode_error "Acer Aspire Laptop" 0))
  = Ok ("laptop", 6,
        [JStr "A"; JStr "B"; JStr "C"; JStr "D"; JStr "E"; JStr "F"]).
Proof. vm_compute. reflexivity. Qed.

Lemma outage_gives_static_names (decode_error : string -> string) :
  candidate_names 3 outage decode_error "Acer Aspire Laptop" 0
  = (Ok ("laptop", 6,
         [JStr "HP Pavilion 15"; JStr "Dell Inspiron 15";
          JStr "Lenovo IdeaPad 3"; JStr "ASUS VivoBook 15";
          JStr "Acer Aspire 5"; JStr "MSI Modern 15"]),
     2, [Call 0 0; Switch 1; Call 1 1; Switch 2; Call 2 2]).
Proof. vm_compute. reflexivity. Qed.

(** The theorem of the names stage at the provider that gives one
    name: two placeholders follow the name. *)
Lemma candidate_names_between_3_and_6_witness :
  exists category names,
    fst (fst (candidate_names 3 one_name (fun t => t) "Acer Aspire Laptop" 0))
    = Ok (category, length names, names)
    /\ 3 <= length names <= 6
    /\ category = "laptop"
    /\ names = [JStr "Acer Swift 3"; JStr "Alternative laptop 2";
                JStr "Alternative laptop 3"].
Proof.
  destruct (@candidate_names_between_3_and_6 3 one_name (fun t => t)
              "Acer Aspire Laptop" 0) as (c & names & E & B & P & _).
  exists c, names. split; [exact E |]. split; [exact B |].
  destruct (P {| candidates := [{| finish_reason := Some STOP; parts := [] |}];
                 text := Some (dq "{'product_names':['Acer Swift 3']}") |}
              {| finish_reason := Some STOP; parts := [] |} []
              (dq "{'product_names':['Acer Swift 3']}")
              [("product_names", JArr [JStr "Acer Swift 3"])]
              [JStr "Acer Swift 3"]) as (C & N);
    try (vm_compute; reflexivity).
  - vm_compute. discriminate.
  - split; [rewrite C; vm_compute; reflexivity |].
    rewrite N, C. vm_compute. reflexivity.
Defined.

(** The text cut inside the array of names raises in the [try] block,
    and the stage goes on with fallback names. *)
Lemma truncated_names_raise (decode_error : string -> string) :
  try_names 3 always_truncated decode_error "Dell Inspiron Laptop" 0
  = (Raise ("Could not extract or fix JSON from AI response. Error: "
            ++ decode_error truncated_names), 0, [Call 0 0]).
Proof. vm_compute. reflexivity. Qed.

End NamesExamples.

(* ================================================================== *)
(** ** Further properties of the decision-metric engine *)
(* ================================================================== *)

Section EngineMore.
Import Rdm Props Examples.
Local Open Scope Q_scope.

(** X1. [_safe_range] returns a range that is not a single point and
    that holds every value of the list; for the empty list it is the
    default range. *)
Theorem safe_range_is_a_proper_cover (values : list Q) (dmin dmax : Q) :
  dmin < dmax ->
  fst (_safe_range values dmin dmax) < snd (_safe_range values dmin dmax)
  /\ Forall (fun x => fst (_safe_range values dmin dmax) <= x
                      /\ x <= snd (_safe_range values dmin dmax)) values
  /\ (values = [] -> _safe_range values dmin dmax = (dmin, dmax)).
Proof.
  intros D. split; [| split].
  - now apply safe_range_increasing.
  - apply Forall_forall. intros x I. now apply safe_range_covers.
  - intros ->. reflexivity.
Qed.

Lemma safe_range_is_a_proper_cover_witness :
  1 < 2
  /\ fst (_safe_range [3; 3] 1 2) < snd (_safe_range [3; 3] 1 2)
  /\ Forall (fun x => fst (_safe_range [3; 3] 1 2) <= x
                      /\ x <= snd (_safe_range [3; 3] 1 2)) [3; 3]
  /\ ([3; 3] = [] -> _safe_range [3; 3] 1 2 = (1, 2)).
Proof.
  assert (H : 1 < 2) by reflexivity.
  split; [exact H |].
  exact (@safe_range_is_a_proper_cover [3; 3] 1 2 H).
Defined.

Lemma Qmin_greater (a x : Q) : a <= x -> Qmin a x = a.
Proof.
  intros H. unfold Qmin, Qleb.
  apply Qle_bool_iff in H. now rewrite H.
Qed.

Lemma Qmin_smaller (a x : Q) : x < a -> Qmin a x = x.
Proof.
  intros H. unfold Qmin, Qleb.
  destruct (Qle_bool a x) eqn:E; [| reflexivity].
  apply Qle_bool_iff in E. lra.
Qed.

Lemma Qmax_greater (a x : Q) : a <= x -> Qmax a x = x.
Proof.
  intros H. unfold Qmax, Qleb.
  apply Qle_bool_iff in H. now rewrite H.
Qed.

Lemma Qmax_smaller (a x : Q) : x < a -> Qmax a x = a.
Proof.
  intros H. unfold Qmax, Qleb.
  destruct (Qle_bool a x) eqn:E; [| reflexivity].
  apply Qle_bool_iff in E. lra.
Qed.

(** X2. On a proper range [_normalize] is the linear scale clamped to
    [0, 100]: 0 up to [vmin], 100 from [vmax] on, the linear value in
    between; a missing value gives the default. *)
Theorem normalize_is_a_clamped_scale (v vmin vmax default : Q) :
  vmin < vmax ->
  _normalize None vmin vmax default = default
  /\ (v <= vmin -> _normalize (Some v) vmin vmax default == 0)
  /\ (vmax <= v -> _normalize (Some v) vmin vmax default == 100)
  /\ (vmin <= v <= vmax ->
      _normalize (Some v) vmin vmax default
      == 100 * (v - vmin) / (vmax - vmin))
  /\ 0 <= _normalize (Some v) vmin vmax default <= 100.
Proof.
  intros D. unfold _normalize.
  assert (E : Qeqb vmax vmin = false).
  { unfold Qeqb. destruct (Qeq_bool vmax vmin) eqn:E; [| reflexivity].
    apply Qeq_bool_eq in E. lra. }
  rewrite E.
  set (x := 100 * (v - vmin) / (vmax - vmin)).
  assert (X0 : vmin <= v -> 0 <= x)
    by (intros; apply Qle_shift_div_l; lra).
  assert (X0' : v <= vmin -> x <= 0)
    by (intros; apply Qle_shift_div_r; lra).
  assert (X1 : v <= vmax -> x <= 100)
    by (intros; apply Qle_shift_div_r; lra).
  assert (X1' : vmax <= v -> 100 <= x)
    by (intros; apply Qle_shift_div_l; lra).
  split; [reflexivity |].
  split; [| split; [| split]].
  - intros L. specialize (X0' L).
    destruct (Qlt_le_dec x 100) as [A | A]; [| lra].
    rewrite (Qmin_smaller A).
    destruct (Qlt_le_dec x 0) as [B | B].
    + now rewrite (Qmax_smaller B).
    + rewrite (Qmax_greater B). lra.
  - intros L. specialize (X1' L).
    rewrite (Qmin_greater X1'). now rewrite (@Qmax_greater 0 100) by lra.
  - intros [L U]. specialize (X0 L). specialize (X1 U).
    destruct (Qlt_le_dec x 100) as [A | A].
    + rewrite (Qmin_smaller A). now rewrite (Qmax_greater X0).
    + rewrite (Qmin_greater A). rewrite (@Qmax_greater 0 100) by lra. lra.
  - split; [apply Qmax_ge_l |].
    apply Qmax_lub; [lra | apply Qmin_le_l].
Qed.

Lemma normalize_is_a_clamped_scale_witness :
  4 < 12
  /\ _normalize None 4 12 50 = 50
  /\ (8 <= 4 -> _normalize (Some 8) 4 12 50 == 0)
  /\ (12 <= 8 -> _normalize (Some 8) 4 12 50 == 100)
  /\ (4 <= 8 <= 12 -> _normalize (Some 8) 4 12 50 == 100 * (8 - 4) / (12 - 4))
  /\ 0 <= _normalize (Some 8) 4 12 50 <= 100.
Proof.
  assert (H : 4 < 12) by reflexivity.
  split; [exact H |].
  exact (@normalize_is_a_clamped_scale 8 4 12 50 H).
Defined.

(** X3. The performance estimate is one of six values; it is 50 without
    a processor, and 60 for every processor outside the phone and laptop
    categories. *)
Theorem performance_score_values (proc : option string) (category : string) :
  In (calculate_performance_score proc category) [50; 60; 65; 75; 85; 95]%Z
  /\ (proc = None \/ proc = Some EmptyString ->
      calculate_performance_score proc category = 50%Z)
  /\ (forall p, proc = Some p -> p <> EmptyString ->
      in_list category ["smartphone"; "phone"] = false ->
      String.eqb category "laptop" = false ->
      calculate_performance_score proc category = 60%Z).
Proof.
  split; [| split].
  - unfold calculate_performance_score.
    destruct proc as [[| c p] |]; [simpl; auto | | simpl; auto].
    repeat match goal with
           | |- context [if ?b then _ else _] => destruct b
           end; simpl; auto 10.
  - intros [-> | ->]; reflexivity.
  - intros p -> NE P L. unfold calculate_performance_score.
    destruct p as [| c p]; [congruence |]. now rewrite P, L.
Qed.

(** X4. The ownership sub-score is 40 without warranty and energy data,
    at least 20 with a warranty alone, and within [0, 100] as long as
    the energy rating is between 0 and 5 stars. *)
Theorem ownership_score_range (warranty energy : option Z) :
  (forall e, energy = Some e -> (0 <= e <= 5)%Z) ->
  0 <= _ownership_score warranty energy <= 100
  /\ (warranty = None -> energy = None ->
      _ownership_score warranty energy == 40)
  /\ (forall w, warranty = Some w -> energy = None ->
      20 <= _ownership_score warranty energy).
Proof.
  intros H. split; [now apply ownership_score_bounds | split].
  - intros -> ->. reflexivity.
  - intros w -> ->. unfold _ownership_score.
    repeat match goal with
           | |- context [if ?b then _ else _] => destruct b
           end; lra.
Qed.

Lemma ownership_score_range_witness :
  (forall e, Some 5%Z = Some e -> (0 <= e <= 5)%Z)
  /\ 0 <= _ownership_score (Some 2%Z) (Some 5%Z) <= 100
  /\ (Some 2%Z = None -> Some 5%Z = None ->
      _ownership_score (Some 2%Z) (Some 5%Z) == 40)
  /\ (forall w, Some 2%Z = Some w -> Some 5%Z = None ->
      20 <= _ownership_score (Some 2%Z) (Some 5%Z)).
Proof.
  assert (H : forall e, Some 5%Z = Some e -> (0 <= e <= 5)%Z)
    by (intros e E; injection E as <-; lia).
  split; [exact H |].
  exact (@ownership_score_range (Some 2%Z) (Some 5%Z) H).
Defined.

(** X5. The feature sub-score is within [0, 100] for every product,
    every category and every set of ranges, when the performance
    estimate is. *)
Theorem feature_score_range (d : details) (category : string) (rg : ranges) :
  (0 <= performance_score d <= 100)%Z ->
  0 <= _feature_score d category rg <= 100.
Proof. now apply feature_score_bounds. Qed.

Lemma feature_score_range_witness :
  (0 <= performance_score (extract_detailed_specs c3_title [] "laptop") <= 100)%Z
  /\ 0 <= _feature_score (extract_detailed_specs c3_title [] "laptop") "laptop"
            (build_ranges "laptop" []) <= 100.
Proof.
  assert (H : (0 <= performance_score
                      (extract_detailed_specs c3_title [] "laptop") <= 100)%Z)
    by (vm_compute; split; discriminate).
  split; [exact H |].
  exact (@feature_score_range (extract_detailed_specs c3_title [] "laptop")
           "laptop" (build_ranges "laptop" []) H).
Defined.

Lemma option_map_nonneg (g : option string) (n : Z) :
  option_map PyStr.int_of_digits g = Some n -> (0 <= n)%Z.
Proof.
  destruct g as [d |]; simpl; [| discriminate].
  intros H. injection H as <-. apply int_of_digits_nonneg.
Qed.

Lemma extract_int_nonneg (text : string) (pattern : Regex.regex) (n : Z) :
  _extract_int text pattern = Some n -> (0 <= n)%Z.
Proof.
  unfold _extract_int. destruct (Regex.search pattern text) as [m |];
    [apply option_map_nonneg | discriminate].
Qed.

(** X6. What [extract_detailed_specs] returns, for every title, list of
    specs and category: no extracted number is negative, a storage type
    comes only with a storage size and is SSD or HDD, the display type
    is one of four, and the performance estimate is between 50 and
    95. *)
Theorem extracted_details_are_well_formed (title : string)
  (specs : list string) (category : string) :
  let d := extract_detailed_specs title specs category in
  (forall n, ram_gb d = Some n -> (0 <= n)%Z)
  /\ (forall n, storage_gb d = Some n -> (0 <= n)%Z)
  /\ (forall n, battery_mah d = Some n -> (0 <= n)%Z)
  /\ (forall n, warranty_years d = Some n -> (0 <= n)%Z)
  /\ (forall n, energy_star d = Some n -> (0 <= n)%Z)
  /\ (storage_gb d = None -> storage_type d = None)
  /\ In (storage_type d) [None; Some "SSD"; Some "HDD"]
  /\ In (display_type d) [None; Some "4K"; Some "QHD"; Some "FHD"; Some "HD"]
  /\ (50 <= performance_score d <= 95)%Z.
Proof.
  unfold extract_detailed_specs.
  set (text := PyStr.lower _).
  assert (B : forall n,
             match _extract_int text re_mah with
             | Some b => Some b
             | None =>
                 match _extract_int text re_whr with
                 | Some whr =>
                     if (whr =? 0)%Z then None
                     else Some (Qfloor (inject_Z (whr * 1000) / (38 # 10)))
                 | None => None
                 end
             end = Some n -> (0 <= n)%Z).
  { intros n. destruct (_extract_int text re_mah) as [b |] eqn:M.
    - intros H. injection H as <-. eapply extract_int_nonneg; eassumption.
    - destruct (_extract_int text re_whr) as [w |] eqn:W; [| discriminate].
      destruct (w =? 0)%Z; [discriminate |].
      intros H. injection H as <-.
      apply extract_int_nonneg in W.
      assert (Q0 : 0 <= inject_Z (w * 1000) / (38 # 10)).
      { apply Qle_shift_div_l; [reflexivity |].
        rewrite Qmult_0_l. change 0 with (inject_Z 0).
        rewrite <- Zle_Qle. lia. }
      exact (Qfloor_resp_le _ _ Q0). }
  assert (D : In (if is_match re_4k text then Some "4K"
                  else if is_match re_qhd text then Some "QHD"
                  else if is_match re_fhd text then Some "FHD"
                  else if is_match re_hd text then Some "HD"
                  else None)
                 [None; Some "4K"; Some "QHD"; Some "FHD"; Some "HD"]).
  { repeat match goal with
           | |- context [if ?b then _ else _] => destruct b
           end; simpl; auto 10. }
  destruct (Regex.search re_storage text) as [sm |];
    cbn [ram_gb storage_gb storage_type battery_mah warranty_years
         energy_star display_type performance_score].
  - repeat split.
    + intros n. apply extract_int_nonneg.
    + intros n H. injection H as <-.
      assert (S0 : (0 <= match Regex.group 1 sm with
                         | Some d => PyStr.int_of_digits d
                         | None => 0
                         end)%Z)
        by (destruct (Regex.group 1 sm);
            [apply int_of_digits_nonneg | lia]).
      destruct (String.eqb _ "tb"); lia.
    + exact B.
    + intros n. destruct (Regex.search re_warranty text);
        [apply option_map_nonneg | discriminate].
    + intros n. destruct (Regex.search re_star text);
        [apply option_map_nonneg | discriminate].
    + discriminate.
    + destruct (PyStr.contains "ssd" text); [simpl; auto |].
      destruct (PyStr.contains "hdd" text); simpl; auto.
    + exact D.
    + apply performance_score_bounds.
    + apply performance_score_bounds.
  - repeat split.
    + intros n. apply extract_int_nonneg.
    + discriminate.
    + exact B.
    + intros n. destruct (Regex.search re_warranty text);
        [apply option_map_nonneg | discriminate].
    + intros n. destruct (Regex.search re_star text);
        [apply option_map_nonneg | discriminate].
    + simpl. auto.
    + exact D.
    + apply performance_score_bounds.
    + apply performance_score_bounds.
Qed.

End EngineMore.

Section EngineRanking.
Import Rdm Props Examples.
Local Open Scope Q_scope.

Variable log : Q -> Q.

Lemma insert_desc_filter (T : Type) (key : T -> Q) (k : Q) (x : T)
  (l : list T) :
  filter (fun y => Qeq_bool (key y) k) (insert_desc key x l)
  = if Qeq_bool (key x) k
    then x :: filter (fun y => Qeq_bool (key y) k) l
    else filter (fun y => Qeq_bool (key y) k) l.
Proof.
  induction l as [| y r IH]; cbn [insert_desc].
  - cbn [filter]. reflexivity.
  - destruct (Qltb (key x) (key y)) eqn:L.
    + cbn [filter]. rewrite IH.
      destruct (Qeq_bool (key y) k) eqn:Ey; [| reflexivity].
      destruct (Qeq_bool (key x) k) eqn:Ex; [| reflexivity].
      apply Qltb_true in L.
      apply Qeq_bool_eq in Ex, Ey. lra.
    + cbn [filter]. reflexivity.
Qed.

Lemma sort_desc_filter (T : Type) (key : T -> Q) (k : Q) (l : list T) :
  filter (fun y => Qeq_bool (key y) k) (sort_desc key l)
  = filter (fun y => Qeq_bool (key y) k) l.
Proof.
  induction l as [| x r IH]; cbn [sort_desc]; [reflexivity |].
  rewrite insert_desc_filter. cbn [filter]. now rewrite IH.
Qed.

(** X8. The ranking is stable: the result is the sorted list of the
    scored products taken in input order, and for every score the
    entries with that score come in the result in the order of the
    input. *)
Theorem ties_keep_input_order (products : list product) (category : string) :
  exists scored_in_order,
    map (fun s => base (item s)) scored_in_order = products
    /\ Permutation (calculate_rdm_scores log products category) scored_in_order
    /\ forall k,
         filter (fun s => Qeq_bool (rdm_score s) k)
                (calculate_rdm_scores log products category)
         = filter (fun s => Qeq_bool (rdm_score s) k) scored_in_order.
Proof.
  destruct products as [| p r].
  - exists []. repeat split; constructor.
  - assert (NE : p :: r <> []) by discriminate.
    rewrite (calculate_eq log category NE).
    eexists. split; [apply scored_bases |]. split.
    + apply sort_desc_perm.
    + intros k. apply sort_desc_filter.
Qed.

Lemma round_half_even_between (x : Q) :
  (Qfloor x <= round_half_even x <= Qfloor x + 1)%Z.
Proof.
  unfold round_half_even.
  repeat match goal with
         | |- context [if ?b then _ else _] => destruct b
         end; lia.
Qed.

Lemma round_half_even_mono (x y : Q) :
  x <= y -> (round_half_even x <= round_half_even y)%Z.
Proof.
  intros H.
  pose proof (Qfloor_resp_le _ _ H) as F.
  destruct (Z.eq_dec (Qfloor x) (Qfloor y)) as [E | N].
  - unfold round_half_even. rewrite E.
    set (f := Qfloor y).
    assert (D : x - inject_Z f <= y - inject_Z f) by lra.
    destruct (Qltb (x - inject_Z f) (1 # 2)) eqn:X1;
      destruct (Qltb (y - inject_Z f) (1 # 2)) eqn:Y1;
      destruct (Qltb (1 # 2) (x - inject_Z f)) eqn:X2;
      destruct (Qltb (1 # 2) (y - inject_Z f)) eqn:Y2;
      destruct (Z.even f);
      try lia;
      repeat match goal with
             | K : Qltb _ _ = true |- _ => apply Qltb_true in K
             | K : Qltb _ _ = false |- _ => apply Qltb_false in K
             end; lra.
  - pose proof (round_half_even_between x).
    pose proof (round_half_even_between y). lia.
Qed.

Lemma round1_mono (x y : Q) : x <= y -> round1 x <= round1 y.
Proof.
  intros H. unfold round1.
  assert (M : (round_half_even (x * 10) <= round_half_even (y * 10))%Z)
    by (apply round_half_even_mono; lra).
  rewrite Zle_Qle in M.
  unfold Qdiv. apply Qmult_le_compat_r; [exact M | discriminate].
Qed.

Lemma in_calculate (products : list product) (category : string) (s : scored) :
  In s (calculate_rdm_scores log products category) ->
  let es := map (enrich category) products in
  let range := _safe_range (prices_of es) 1 2 in
  let valid := filter (fun r => (1 <=? r)%Z) (reviews_of es) in
  exists p,
    In p products
    /\ s = score_one log category (fst range) (snd range) (max_or_zero valid)
             (length valid) (build_ranges category es) (enrich category p).
Proof.
  intros I es range valid.
  destruct products as [| p0 r0]; [contradiction |].
  assert (NE : p0 :: r0 <> []) by discriminate.
  rewrite (calculate_eq log category NE) in I.
  apply (Permutation_in _ (sort_desc_perm rdm_score _)) in I.
  apply in_map_iff in I. destruct I as (e & <- & He).
  apply in_map_iff in He. destruct He as (p & <- & Hp).
  now exists p.
Qed.

(** X9. Within one result a cheaper product never has the lower price
    sub-score: for two entries, the one with the smaller [price_raw] has
    a price sub-score at least as high. *)
Theorem cheaper_scores_higher (products : list product) (category : string)
  (a b : scored) :
  In a (calculate_rdm_scores log products category) ->
  In b (calculate_rdm_scores log products category) ->
  (price_raw (base (item a)) <= price_raw (base (item b)))%Z ->
  price_score (rdm_breakdown b) <= price_score (rdm_breakdown a).
Proof.
  intros Ia Ib L.
  apply in_calculate in Ia, Ib.
  destruct Ia as (pa & _ & ->). destruct Ib as (pb & _ & ->).
  cbn [score_one rdm_breakdown price_score item base enrich] in *.
  set (range := _safe_range _ 1 2).
  rewrite (price_range_test_holds _ : Qltb (fst range) (snd range) = true).
  assert (D : fst range < snd range)
    by (apply safe_range_increasing; reflexivity).
  apply round1_mono.
  assert (P : inject_Z (price_raw pa) / 100 <= inject_Z (price_raw pb) / 100).
  { unfold Qdiv. apply Qmult_le_compat_r; [| discriminate].
    now rewrite <- Zle_Qle. }
  unfold Qdiv at 1 3. apply Qmult_le_compat_r.
  - lra.
  - apply Qinv_le_0_compat. lra.
Qed.


End EngineRanking.

Section EngineRankingExamples.
Import Rdm Props Examples.
Local Open Scope Q_scope.

Lemma cheaper_scores_higher_witness :
  (In (ranked_at 0) ranked
   /\ In (ranked_at 1) ranked
   /\ (price_raw (base (item (ranked_at 0)))
       <= price_raw (base (item (ranked_at 1))))%Z)
  /\ price_score (rdm_breakdown (ranked_at 1))
     <= price_score (rdm_breakdown (ranked_at 0)).
Proof.
  assert (N : length ranked = 2%nat) by (vm_compute; reflexivity).
  assert (I0 : In (ranked_at 0) ranked)
    by (apply (@nth_In _ 0 ranked no_score); rewrite N; lia).
  assert (I1 : In (ranked_at 1) ranked)
    by (apply (@nth_In _ 1 ranked no_score); rewrite N; lia).
  assert (L : (price_raw (base (item (ranked_at 0)))
               <= price_raw (base (item (ranked_at 1))))%Z)
    by (vm_compute; discriminate).
  split; [exact (conj I0 (conj I1 L)) |].
  exact (@cheaper_scores_higher (fun x => x) one_unpriced "laptop"
           (ranked_at 0) (ranked_at 1) I0 I1 L).
Defined.


End EngineRankingExamples.

(* ================================================================== *)
(** ** Further properties of the helpers and of the category detection *)
(* ================================================================== *)

Section HelperFacts.
Import PyStr Helpers Classifier Props.

Lemma lower_char_upper_char (c : ascii) :
  lower_char (upper_char c) = lower_char c.
Proof.
  destruct c as [b0 b1 b2 b3 b4 b5 b6 b7].
  destruct b0, b1, b2, b3, b4, b5, b6, b7; reflexivity.
Qed.

Lemma lower_char_lower_char (c : ascii) :
  lower_char (lower_char c) = lower_char c.
Proof.
  destruct c as [b0 b1 b2 b3 b4 b5 b6 b7].
  destruct b0, b1, b2, b3, b4, b5, b6, b7; reflexivity.
Qed.

Lemma lower_upper (s : string) : lower (upper s) = lower s.
Proof.
  induction s as [| c s IH]; simpl; [reflexivity |].
  now rewrite lower_char_upper_char, IH.
Qed.

Lemma lower_lower (s : string) : lower (lower s) = lower s.
Proof.
  induction s as [| c s IH]; simpl; [reflexivity |].
  now rewrite lower_char_lower_char, IH.
Qed.

(** X11. [extract_source] gives one of three tags; it gives "amazon" as
    soon as the URL mentions amazon, whatever else it mentions, and
    "unknown" exactly when the URL mentions none of amazon, amzn and
    flipkart; on a URL of ASCII characters it does not depend on the
    letter case. *)
Theorem extract_source_tags (url : string) :
  In (extract_source url) ["amazon"; "flipkart"; "unknown"]
  /\ (contains "amazon" (lower url) = true -> extract_source url = "amazon")
  /\ (extract_source url = "unknown" <->
      contains "amazon" (lower url) = false
      /\ contains "amzn" (lower url) = false
      /\ contains "flipkart" (lower url) = false)
  /\ (ascii_text url ->
      extract_source (upper url) = extract_source url
      /\ extract_source (lower url) = extract_source url).
Proof.
  unfold extract_source. rewrite lower_upper, lower_lower.
  destruct (contains "amazon" (lower url)), (contains "amzn" (lower url)),
    (contains "flipkart" (lower url)); simpl;
    repeat split; auto; try discriminate;
    intros H; try discriminate; destruct H as (? & ? & ?); discriminate.
Qed.

Lemma remove_prefix_cases (prefixes : list string) (t : string) :
  remove_prefix prefixes t = t
  \/ exists p, remove_prefix prefixes t = strip (drop (String.length p) t).
Proof.
  induction prefixes as [| p r IH]; simpl; [now left |].
  destruct (prefix p t); [right; now exists p | exact IH].
Qed.

(** X12. [extract_product_from_share_text] reports details exactly when
    it returns a title, that title has at least 20 characters, and a
    share text that is empty or blank gives no details. *)
Theorem share_text_title (share_text url : string) :
  let out := extract_product_from_share_text share_text url in
  (snd out = true -> 20 <= String.length (fst out))
  /\ (snd out = false -> fst out = EmptyString)
  /\ (snd out = true <-> fst out <> EmptyString)
  /\ (strip share_text = EmptyString -> out = (EmptyString, false)).
Proof.
  unfold extract_product_from_share_text.
  destruct ((String.length share_text =? 0)
            || (String.length (strip share_text) =? 0)) eqn:B.
  - cbn. split; [discriminate |]. split; [reflexivity |].
    split; [split; [discriminate | congruence] | reflexivity].
  - cbv zeta.
    remember (remove_prefix prefixes_to_remove
                (strip (remove_all url share_text))) as t eqn:T.
    clear T.
    destruct (Nat.leb_spec 20 (String.length t)) as [L | L]; cbn [fst snd].
    + split; [intros _; exact L |]. split; [discriminate |].
      split; [split |].
      * intros _ E. rewrite E in L. simpl in L. lia.
      * reflexivity.
      * intros E. rewrite E in B. simpl in B.
        rewrite orb_true_r in B. discriminate.
    + split; [discriminate |]. split; [reflexivity |].
      split; [split; [discriminate | congruence] | reflexivity].
Qed.

Ltac split_ifs :=
  repeat match goal with
         | |- context [if ?b then _ else _] => destruct b
         end.

(** X13. The category detection gives one of sixteen tags, whatever the
    title. *)
Theorem detect_category_closed (product_title : string) :
  In (detect_category product_title) all_categories.
Proof.
  unfold detect_category, category_of_lower. cbv beta zeta.
  split_ifs; simpl; auto 20.
Qed.

(** X14. On a title of ASCII characters the category detection does
    not depend on the letter case. *)
Theorem detect_category_ignores_case (product_title : string) :
  ascii_text product_title ->
  detect_category (upper product_title) = detect_category product_title
  /\ detect_category (lower product_title) = detect_category product_title.
Proof.
  intros _. unfold detect_category. now rewrite lower_upper, lower_lower.
Qed.

Lemma detect_category_ignores_case_witness :
  ascii_text "Laptop Stand"
  /\ detect_category (upper "Laptop Stand") = detect_category "Laptop Stand"
  /\ detect_category (lower "Laptop Stand") = detect_category "Laptop Stand".
Proof.
  assert (A : ascii_text "Laptop Stand")
    by (unfold ascii_text; repeat constructor).
  split; [exact A |].
  exact (@detect_category_ignores_case "Laptop Stand" A).
Defined.

(** X15. The tablet rule comes before every other device rule: a title
    with "tablet", "ipad" or "pad" in it gets an accessory category or
    "tablet", never laptop, keyboard, mouse, smartphone or a later
    one. *)
Theorem tablet_rule_comes_first (product_title : string) :
  any_in ["tablet"; "ipad"; "pad"] (lower product_title) = true ->
  In (detect_category product_title) (accessory_categories ++ ["tablet"]).
Proof.
  intros H. unfold detect_category, category_of_lower. cbv beta zeta.
  rewrite H. cbn [orb].
  split_ifs; simpl; auto 10.
Qed.

Lemma tablet_rule_comes_first_witness :
  any_in ["tablet"; "ipad"; "pad"] (lower "Gaming Mouse Pad") = true
  /\ In (detect_category "Gaming Mouse Pad") (accessory_categories ++ ["tablet"]).
Proof.
  assert (H : any_in ["tablet"; "ipad"; "pad"] (lower "Gaming Mouse Pad")
              = true) by (vm_compute; reflexivity).
  split; [exact H |].
  exact (@tablet_rule_comes_first "Gaming Mouse Pad" H).
Defined.

End HelperFacts.

(* ================================================================== *)
(** ** Further properties of the retry policy *)
(* ================================================================== *)

Section RetryMore.
Import PyStr Json Names Props Examples.

Variable n_keys : nat.
Variable generate_content : nat -> nat -> outcome.

Lemma retry_loop_key_bound (max_retries base_delay fuel : nat) :
  forall attempt key last tr,
    key < n_keys ->
    snd (fst (retry_loop n_keys generate_content max_retries base_delay
                fuel attempt key last tr)) < n_keys.
Proof.
  induction fuel as [| fuel IH]; intros attempt key last tr K;
    cbn [retry_loop].
  - exact K.
  - destruct (generate_content key attempt) as [r | msg]; [exact K |].
    destruct (is_quota msg && (key <? n_keys - 1)) eqn:Q.
    + apply IH. apply andb_true_iff in Q. destruct Q as [_ Q].
      apply Nat.ltb_lt in Q. lia.
    + destruct (negb (is_503 msg) || (attempt =? max_retries - 1));
        [exact K | now apply IH].
Qed.

(** X16. The key index never goes back and never leaves the list of
    keys: after the retries it is at least what it was and still below
    the number of keys. *)
Theorem key_index_stays_in_range (max_retries base_delay key : nat) :
  key < n_keys ->
  key <= snd (fst (retry_gemini_with_backoff n_keys generate_content
                     max_retries base_delay key))
  /\ snd (fst (retry_gemini_with_backoff n_keys generate_content
                 max_retries base_delay key)) < n_keys.
Proof.
  intros K. unfold retry_gemini_with_backoff. split.
  - apply retry_loop_key_monotone.
  - now apply retry_loop_key_bound.
Qed.

Lemma total_sleep_app (a b : list event) :
  total_sleep (a ++ b) = total_sleep a + total_sleep b.
Proof.
  induction a as [| e a IH]; simpl; [reflexivity |].
  destruct e; rewrite IH; lia.
Qed.

Lemma pow2_mono (a b : nat) : a <= b -> 2 ^ a <= 2 ^ b.
Proof. intros H. apply Nat.pow_le_mono_r; lia. Qed.

Lemma retry_loop_sleep (max_retries base_delay fuel : nat) :
  forall attempt key last tr,
    attempt + fuel = max_retries ->
    (fuel = 0 ->
     total_sleep (snd (retry_loop n_keys generate_content max_retries
                         base_delay fuel attempt key last tr))
     = total_sleep tr)
    /\ (0 < fuel ->
        total_sleep (snd (retry_loop n_keys generate_content max_retries
                            base_delay fuel attempt key last tr))
        + base_delay * 2 ^ attempt
        <= total_sleep tr + base_delay * 2 ^ (max_retries - 1)).
Proof.
  induction fuel as [| fuel IH]; intros attempt key last tr M.
  - split; [reflexivity | lia].
  - split; [discriminate |]. intros _. cbn [retry_loop].
    assert (P : base_delay * 2 ^ attempt
                <= base_delay * 2 ^ (max_retries - 1))
      by (apply Nat.mul_le_mono_l, pow2_mono; lia).
    assert (P2 : base_delay * 2 ^ attempt <= base_delay * 2 ^ S attempt)
      by (apply Nat.mul_le_mono_l, pow2_mono; lia).
    destruct (generate_content key attempt) as [r | msg].
    { cbn [snd]. rewrite total_sleep_app. simpl. lia. }
    destruct (is_quota msg && (key <? n_keys - 1)).
    { destruct (IH (S attempt) (S key) (Some msg)
                  ((tr ++ [Call attempt key]) ++ [Switch (S key)]))
        as [Z N]; [lia |].
      rewrite !total_sleep_app in Z, N. simpl in Z, N.
      destruct fuel as [| fuel'].
      - rewrite Z by reflexivity. lia.
      - specialize (N ltac:(lia)). lia. }
    destruct (negb (is_503 msg) || (attempt =? max_retries - 1)) eqn:L.
    { cbn [snd]. rewrite total_sleep_app. simpl. lia. }
    apply orb_false_iff in L. destruct L as [_ L].
    apply Nat.eqb_neq in L.
    destruct (IH (S attempt) key (Some msg)
                ((tr ++ [Call attempt key])
                 ++ [Sleep (base_delay * 2 ^ attempt)]))
      as [_ N]; [lia |].
    rewrite !total_sleep_app in N. simpl in N.
    specialize (N ltac:(lia)).
    assert (D : base_delay * 2 ^ S attempt
                = base_delay * 2 ^ attempt + base_delay * 2 ^ attempt)
      by (rewrite Nat.pow_succ_r'; lia).
    lia.
Qed.

(** X17. The delays of one call of the retry policy add up to at most
    [base_delay * (2 ^ (max_retries - 1) - 1)] seconds; with the values
    of the call site, 3 attempts and a base of 2 seconds, that is at
    most 6 seconds. *)
Theorem backoff_delay_is_bounded (max_retries base_delay key : nat) :
  total_sleep (snd (retry_gemini_with_backoff n_keys generate_content
                      max_retries base_delay key))
  + base_delay
  <= base_delay * 2 ^ (max_retries - 1)
  /\ total_sleep (snd (retry_gemini_with_backoff n_keys generate_content
                         3 2 key)) <= 6.
Proof.
  assert (G : forall m b,
             total_sleep (snd (retry_gemini_with_backoff n_keys
                                 generate_content m b key)) + b
             <= b * 2 ^ (m - 1)).
  { intros m b. unfold retry_gemini_with_backoff.
    destruct (@retry_loop_sleep m b m 0 key None []) as [Z N];
      [reflexivity |].
    destruct m as [| m'].
    - rewrite Z by reflexivity. simpl. lia.
    - specialize (N ltac:(lia)). simpl in N. simpl. lia. }
  split; [apply G |].
  specialize (G 3 2). simpl in G. lia.
Qed.

Lemma retry_loop_ok (max_retries base_delay fuel : nat) :
  forall attempt key last tr r,
    fst (fst (retry_loop n_keys generate_content max_retries base_delay
                fuel attempt key last tr)) = Ok r ->
    exists a,
      attempt <= a < attempt + fuel
      /\ generate_content
           (snd (fst (retry_loop n_keys generate_content max_retries
                        base_delay fuel attempt key last tr))) a
         = Responded r.
Proof.
  induction fuel as [| fuel IH]; intros attempt key last tr r;
    cbn [retry_loop].
  - discriminate.
  - destruct (generate_content key attempt) as [r' | msg] eqn:G.
    + cbn [fst snd]. intros H. injection H as <-.
      exists attempt. split; [lia | exact G].
    + destruct (is_quota msg && (key <? n_keys - 1)).
      * intros H. destruct (IH _ _ _ _ _ H) as (a & A & E).
        exists a. split; [lia | exact E].
      * destruct (negb (is_503 msg) || (attempt =? max_retries - 1));
          [discriminate |].
        intros H. destruct (IH _ _ _ _ _ H) as (a & A & E).
        exists a. split; [lia | exact E].
Qed.

(** X18. A response that the retry policy returns is what the provider
    answered, at one of the [max_retries] attempts, under the key that
    is current when the policy returns. *)
Theorem returned_response_is_the_providers (max_retries base_delay key : nat)
  (r : response) :
  fst (fst (retry_gemini_with_backoff n_keys generate_content max_retries
              base_delay key)) = Ok r ->
  exists attempt,
    attempt < max_retries
    /\ generate_content
         (snd (fst (retry_gemini_with_backoff n_keys generate_content
                      max_retries base_delay key))) attempt
       = Responded r.
Proof.
  unfold retry_gemini_with_backoff. intros H.
  destruct (retry_loop_ok _ _ _ _ _ _ _ H) as (a & A & E).
  exists a. split; [lia | exact E].
Qed.

End RetryMore.

Section RetryMoreExamples.
Import PyStr Json Names Props Examples.

Lemma key_index_stays_in_range_witness :
  0 < 3
  /\ 0 <= snd (fst (retry_gemini_with_backoff 3 quota_then_overload 3 2 0))
  /\ snd (fst (retry_gemini_with_backoff 3 quota_then_overload 3 2 0)) < 3.
Proof.
  assert (H : 0 < 3) by lia.
  split; [exact H |].
  exact (@key_index_stays_in_range 3 quota_then_overload 3 2 0 H).
Defined.

Lemma returned_response_is_the_providers_witness :
  fst (fst (retry_gemini_with_backoff 3 one_name 3 2 0))
  = Ok {| candidates := [{| finish_reason := Some STOP; parts := [] |}];
          text := Some (dq "{'product_names':['Acer Swift 3']}") |}
  /\ exists attempt,
       attempt < 3
       /\ one_name (snd (fst (retry_gemini_with_backoff 3 one_name 3 2 0)))
                   attempt
          = Responded
              {| candidates := [{| finish_reason := Some STOP; parts := [] |}];
                 text := Some (dq "{'product_names':['Acer Swift 3']}") |}.
Proof.
  assert (H : fst (fst (retry_gemini_with_backoff 3 one_name 3 2 0))
              = Ok {| candidates :=
                        [{| finish_reason := Some STOP; parts := [] |}];
                      text := Some (dq "{'product_names':['Acer Swift 3']}") |})
    by reflexivity.
  split; [exact H |].
  exact (@returned_response_is_the_providers 3 one_name 3 2 0 _ H).
Defined.

End RetryMoreExamples.

(* ================================================================== *)
(** ** Properties of the enrichment and of the endpoint *)
(* ================================================================== *)

Section EnhanceFacts.
Import PyStr Json Names Pipeline Props.

Variable decode_error : string -> string.
Variable unbound_error : string.

Lemma py_slice_length (v : json) (n : nat) (l : list json) :
  py_slice v n = Ok (JArr l) -> length l <= n.
Proof.
  destruct v as [| b | x | s | a | d]; cbn [py_slice]; try discriminate.
  - destruct (is_float_lexeme x); discriminate.
  - intros H. injection H as <-. rewrite length_firstn. lia.
Qed.

Lemma enhance_after_import (product_title category : string) :
  exists specs,
    enhance_except unbound_error ReBound product_title category
    = Ok (JArr (map JStr specs),
          JStr ("Quality " ++ category ++ " alternative to consider"))
    /\ 1 <= length specs <= 5
    /\ (fallback_specs_of product_title = [] ->
        specs = [(category ++ " product")%string]).
Proof.
  unfold enhance_except.
  destruct (fallback_specs_of product_title) as [| a r] eqn:F.
  - eexists. split; [reflexivity |]. split; [simpl; lia | reflexivity].
  - exists (firstn 5 (a :: r)). split; [reflexivity |].
    rewrite length_firstn. cbn [length].
    split; [lia | discriminate].
Qed.

(** X19. [enhance_product_with_gemini] falls back on the specs of the
    title only when its [try] block raised after the [import re]: then
    it returns one to five specs (the one spec "<category> product"
    when the title shows none) and the standard rationale.  When the
    call of the provider fails, or the answer has no text, it raises.
    A list of specifications that it returns has at most six items. *)
Theorem enhance_falls_back_only_after_the_import
  (product_title category : string) :
  (forall error_msg,
     enhance_product_with_gemini decode_error unbound_error product_title
       category (Failed error_msg)
     = Raise unbound_error)
  /\ (forall r,
        enhance_text r = None \/ enhance_text r = Some EmptyString ->
        enhance_product_with_gemini decode_error unbound_error product_title
          category (Responded r)
        = Raise unbound_error)
  /\ (forall o error_msg,
        enhance_try decode_error category o = Excepted ReBound error_msg ->
        exists specs,
          enhance_product_with_gemini decode_error unbound_error product_title
            category o
          = Ok (JArr (map JStr specs),
                JStr ("Quality " ++ category ++ " alternative to consider"))
          /\ 1 <= length specs <= 5
          /\ (fallback_specs_of product_title = [] ->
              specs = [(category ++ " product")%string]))
  /\ (forall o specifications why_pick,
        enhance_product_with_gemini decode_error unbound_error product_title
          category o
        = Ok (JArr specifications, why_pick) ->
        length specifications <= 6).
Proof.
  split; [reflexivity |].
  split.
  { intros r H. unfold enhance_product_with_gemini, enhance_try.
    destruct H as [-> | ->]; reflexivity. }
  split.
  { intros o m H. unfold enhance_product_with_gemini. rewrite H.
    apply enhance_after_import. }
  intros o sp w. unfold enhance_product_with_gemini.
  destruct (enhance_try decode_error category o) as [s1 w1 | [|] m] eqn:T.
  - intros H. injection H as -> ->.
    unfold enhance_try in T.
    destruct o as [r | m]; [| discriminate].
    destruct (enhance_text r) as [[| c t] |]; try discriminate.
    destruct (enhance_json_text (String c t)) as [jt | m]; cbn [bind] in T;
      [| discriminate].
    destruct (loads jt) as [data |]; cbn [bind] in T; [| discriminate].
    destruct data as [| b | x | s | a | d]; try discriminate.
    destruct (py_slice
                match dict_get "specifications" d with
                | Some v => v
                | None => JArr []
                end 6) as [v |m] eqn:S; cbn [bind] in T; [| discriminate].
    injection T as -> _. eapply py_slice_length; eassumption.
  - discriminate.
  - destruct (enhance_after_import product_title category)
      as (specs & E & L & _).
    rewrite E. intros H. injection H as <- _.
    rewrite length_map. lia.
Qed.

End EnhanceFacts.

Section BuildFacts.
Import PyStr Json Names Pipeline Helpers Build Props.

Variable paise_of : string -> Z.
Variable str_of : json -> string.
Variable coerce_str : json -> option string.
Variable coerce_strs : json -> option (list string).
Variable validation_error : json -> json -> json -> string -> string.
Variable enhance_content : nat -> outcome.
Variable search_result : nat -> search_slot.
Variable decode_error : string -> string.
Variable unbound_error : string.

Local Abbreviation make := (make_product coerce_str coerce_strs validation_error).
Local Abbreviation build_one :=
  (build_alternative paise_of str_of coerce_str coerce_strs validation_error
     enhance_content search_result decode_error unbound_error).
Local Abbreviation build :=
  (build_alternatives paise_of str_of coerce_str coerce_strs validation_error
     enhance_content search_result decode_error unbound_error).

(** What a [Product] that was built holds. *)
Lemma make_product_inv (i b : string) (m : json) (t im pe : string) (pr : Z)
  (ra : option Q) (rc : option Z) (sp : json) (co : list string) (w : json)
  (tr u site : string) (p : Product) :
  make i b m t im pe pr ra rc sp co w tr u site = Ok p ->
  id p = i /\ title p = t /\ image_url p = im /\ price_raw p = pr
  /\ source_url p = u /\ source_site p = site /\ valid_site site = true
  /\ as_str coerce_str m = Some (model p).
Proof.
  unfold make_product, valid_site.
  destruct (as_str coerce_str m) as [m' |]; [| discriminate].
  destruct (as_strs coerce_strs sp) as [sp' |]; [| discriminate].
  destruct (as_str coerce_str w) as [w' |]; [| discriminate].
  destruct (Rdm.in_list site ["amazon"; "flipkart"; "other"]);
    [| discriminate].
  intros H. injection H as <-. cbn. repeat split; reflexivity.
Qed.

Lemma search_url_is_a_search (source_site product_name : string) :
  (contains "/s?k=" (search_url_of source_site product_name)
   || contains "/search?" (search_url_of source_site product_name)) = true.
Proof.
  unfold search_url_of. destruct (String.eqb source_site "flipkart").
  - apply orb_true_iff. right.
    change ("https://www.flipkart.com/search?q="
            ++ replace_char " " "+" product_name)%string
      with ("https://www.flipkart.com"
            ++ ("/search?" ++ ("q=" ++ replace_char " " "+" product_name)))%string.
    apply contains_append_r, contains_of_prefix, prefix_append.
  - apply orb_true_iff. left.
    change ("https://www.amazon.in/s?k=" ++ replace_char " " "+" product_name)%string
      with ("https://www.amazon.in"
            ++ ("/s?k=" ++ replace_char " " "+" product_name))%string.
    apply contains_append_r, contains_of_prefix, prefix_append.
Qed.

Lemma url_ok_false (alt : Product) :
  (contains "/s?k=" (source_url alt) || contains "/search?" (source_url alt))
  = true ->
  url_ok alt = false.
Proof.
  unfold url_ok.
  destruct (contains "/s?k=" (source_url alt)),
           (contains "/search?" (source_url alt)); simpl; congruence.
Qed.

Lemma keep_needs_image_or_price (alt : Product) :
  image_url alt = EmptyString -> price_raw alt = 0%Z -> should_keep alt = false.
Proof.
  intros I P. unfold should_keep, has_image, has_price. rewrite I, P.
  reflexivity.
Qed.

(** The two branches without a search result. *)
Lemma after_failed_search_inv (site category : string) (idx : nat)
  (name : json) (alt : Product) :
  after_failed_search coerce_str coerce_strs validation_error site category
    idx name = Ok alt ->
  exists s, name = JStr s
    /\ id alt = str_of_nat (idx + 1) /\ image_url alt = EmptyString
    /\ price_raw alt = 0%Z /\ source_url alt = search_url_of site s
    /\ source_site alt = site /\ valid_site site = true
    /\ as_str coerce_str name = Some (model alt).
Proof.
  unfold after_failed_search.
  destruct name as [| b | x | s | a | d]; try discriminate.
  intros H. apply make_product_inv in H. exists s. intuition.
Qed.

Lemma without_search_result_inv (site category : string) (idx : nat)
  (name : json) (alt : Product) :
  without_search_result coerce_str coerce_strs validation_error enhance_content
    decode_error unbound_error site category idx name = Ok alt ->
  exists s, name = JStr s
    /\ id alt = str_of_nat (idx + 1) /\ image_url alt = EmptyString
    /\ price_raw alt = 0%Z /\ source_url alt = search_url_of site s
    /\ source_site alt = site /\ valid_site site = true
    /\ as_str coerce_str name = Some (model alt).
Proof.
  unfold without_search_result.
  destruct name as [| b | x | s | a | d]; try discriminate.
  destruct (gemini_result enhance_content decode_error unbound_error category
              idx s) as [[sp w] | m];
    intros H; apply make_product_inv in H; exists s; intuition.
Qed.

Lemma from_search_result_inv (site category : string) (idx : nat)
  (name : json) (sr : SearchResult) (alt : Product) :
  from_search_result paise_of str_of coerce_str coerce_strs validation_error
    enhance_content decode_error unbound_error site category idx name sr
  = Ok alt ->
  id alt = str_of_nat (idx + 1)
  /\ source_site alt = site /\ valid_site site = true
  /\ as_str coerce_str name = Some (model alt)
  /\ image_url alt = get_or (sr_image_url sr) EmptyString
  /\ price_raw alt = price_raw_of paise_of (get_or (sr_price sr) rupee_zero)
  /\ (if is_direct_link (get_or (sr_url sr) EmptyString)
      then source_url alt = get_or (sr_url sr) EmptyString
      else contains "/s?k=" (source_url alt) = true).
Proof.
  unfold from_search_result.
  destruct (match sr_title sr with
            | Some t => JStr t
            | None => name
            end) as [| b | x | t | a | d]; try discriminate.
  destruct (is_direct_link (get_or (sr_url sr) EmptyString)); cbn [bind].
  - destruct (gemini_result enhance_content decode_error unbound_error
                category idx t) as [[sp w] | m];
      intros H; apply make_product_inv in H; intuition.
  - destruct name as [| b | x | s | a | d]; cbn [bind]; try discriminate.
    destruct (gemini_result enhance_content decode_error unbound_error
                category idx t) as [[sp w] | m];
      intros H; apply make_product_inv in H;
      destruct H as (H1 & H2 & H3 & H4 & H5 & H6 & H7 & H8);
      repeat split; try assumption.
    all: rewrite H5; apply contains_append_r, contains_append_r.
    all: change (".in/s?k=" ++ replace_char " " "+" s)%string
           with (".in" ++ ("/s?k=" ++ replace_char " " "+" s))%string.
    all: apply contains_append_r, contains_of_prefix, prefix_append.
Qed.

Lemma build_alternative_inv (site category : string) (idx : nat)
  (name : json) (alt : Product) :
  build_one site category idx name = Ok alt ->
  id alt = str_of_nat (idx + 1)
  /\ source_site alt = site /\ valid_site site = true
  /\ as_str coerce_str name = Some (model alt).
Proof.
  unfold build_alternative.
  destruct (search_result idx) as [m | | sr];
    [| | destruct (sr_truthy sr)]; intros H.
  - apply after_failed_search_inv in H. destruct H as (s & H). intuition.
  - apply without_search_result_inv in H. destruct H as (s & H). intuition.
  - apply from_search_result_inv in H. intuition.
  - apply without_search_result_inv in H. destruct H as (s & H). intuition.
Qed.

Lemma build_alternative_without_result (site category : string) (idx : nat)
  (name : json) (alt : Product) :
  without_result (search_result idx) ->
  build_one site category idx name = Ok alt ->
  exists s, name = JStr s
    /\ image_url alt = EmptyString /\ price_raw alt = 0%Z
    /\ source_url alt = search_url_of site s.
Proof.
  unfold build_alternative, without_result.
  destruct (search_result idx) as [m | | sr]; intros W H.
  - apply after_failed_search_inv in H. destruct H as (s & H).
    exists s. intuition.
  - apply without_search_result_inv in H. destruct H as (s & H).
    exists s. intuition.
  - rewrite W in H.
    apply without_search_result_inv in H. destruct H as (s & H).
    exists s. intuition.
Qed.

Lemma build_alternatives_inv (site category : string) (names : list json) :
  forall (idx : nat) (alts : list Product),
    build site category idx names = Ok alts ->
    length alts = length names
    /\ map id alts = map (fun i => str_of_nat (i + 1)) (seq idx (length names))
    /\ Forall (fun a => source_site a = site) alts
    /\ Forall2 (fun name a => as_str coerce_str name = Some (model a))
         names alts
    /\ (names <> [] -> valid_site site = true).
Proof.
  induction names as [| name names IH]; intros idx alts; cbn [build_alternatives].
  - intros H. injection H as <-. repeat split; auto; congruence.
  - destruct (build_one site category idx name) as [alt | m] eqn:B;
      cbn [bind]; [| discriminate].
    destruct (build site category (S idx) names) as [rest | m] eqn:R;
      cbn [bind]; [| discriminate].
    intros H. injection H as <-.
    apply build_alternative_inv in B. destruct B as (I & St & V & M).
    destruct (IH (S idx) rest R) as (L & Ids & Sites & Ms & _).
    cbn [length map seq]. repeat split.
    + now rewrite L.
    + now rewrite I, Ids.
    + now constructor.
    + now constructor.
    + intros _. exact V.
Qed.

(** X21. A candidate whose search gave no result (it raised, or it
    returned [None] or an empty dictionary) has no image, no price and
    a search link; the quality filter discards it, whatever its other
    signals are. *)
Theorem candidate_without_result_is_discarded (source_site category : string)
  (idx : nat) (product_name : json) (alt : Product) :
  without_result (search_result idx) ->
  build_one source_site category idx product_name = Ok alt ->
  image_url alt = EmptyString
  /\ price_raw alt = 0%Z
  /\ url_ok alt = false
  /\ should_keep alt = false.
Proof.
  intros W H.
  destruct (@build_alternative_without_result _ _ _ _ _ W H)
    as (s & _ & I & P & U).
  repeat split; try assumption.
  - apply url_ok_false. rewrite U. apply search_url_is_a_search.
  - now apply keep_needs_image_or_price.
Qed.


(** X24. The candidates follow the names: when step 5 goes through,
    there is one candidate per name, in the order of the names, with
    the position (from 1) as its id, the name as its model and the site
    tag of the request. *)
Theorem alternatives_follow_the_names (source_site category : string)
  (product_names : list json) (alternatives : list Product) :
  build source_site category 0 product_names = Ok alternatives ->
  length alternatives = length product_names
  /\ map id alternatives
     = map (fun i => str_of_nat (i + 1)) (seq 0 (length product_names))
  /\ Forall (fun a => Pipeline.source_site a = source_site) alternatives
  /\ Forall2 (fun name a =>
                as_str coerce_str name = Some (model a)
                /\ forall s, name = JStr s -> model a = s)
       product_names alternatives.
Proof.
  intros B. apply build_alternatives_inv in B.
  destruct B as (L & I & S & M & _).
  repeat split; try assumption.
  clear -M. induction M as [| name a names alts H M IH]; constructor; auto.
  split; [exact H |]. intros s ->. simpl in H. congruence.
Qed.

(** X25. A candidate passes the link test of the quality filter only
    with the link of its search result, and only when that is a direct
    product link; every other candidate gets a search link. *)
Theorem direct_link_comes_from_the_search (source_site category : string)
  (idx : nat) (product_name : json) (alt : Product) :
  build_one source_site category idx product_name = Ok alt ->
  url_ok alt = true ->
  exists sr,
    search_result idx = SearchFound sr
    /\ is_direct_link (get_or (sr_url sr) EmptyString) = true
    /\ source_url alt = get_or (sr_url sr) EmptyString.
Proof.
  intros B U.
  destruct (search_result idx) as [m | | sr] eqn:S.
  - assert (W : without_result (search_result idx)) by (rewrite S; exact I).
    destruct (@build_alternative_without_result _ _ _ _ _ W B)
      as (s & _ & _ & _ & E).
    rewrite url_ok_false in U; [discriminate |].
    rewrite E. apply search_url_is_a_search.
  - assert (W : without_result (search_result idx)) by (rewrite S; exact I).
    destruct (@build_alternative_without_result _ _ _ _ _ W B)
      as (s & _ & _ & _ & E).
    rewrite url_ok_false in U; [discriminate |].
    rewrite E. apply search_url_is_a_search.
  - destruct (sr_truthy sr) eqn:T.
    + unfold build_alternative in B. rewrite S, T in B.
      apply from_search_result_inv in B.
      destruct B as (_ & _ & _ & _ & _ & _ & D).
      destruct (is_direct_link (get_or (sr_url sr) EmptyString)) eqn:DL.
      * exists sr. split; [reflexivity |]. split; [exact DL | exact D].
      * rewrite url_ok_false in U; [discriminate |].
        rewrite D. reflexivity.
    + assert (W : without_result (search_result idx))
        by (rewrite S; exact T).
      destruct (@build_alternative_without_result _ _ _ _ _ W B)
        as (s & _ & _ & _ & E).
      rewrite url_ok_false in U; [discriminate |].
      rewrite E. apply search_url_is_a_search.
Qed.

End BuildFacts.

Section EndpointFacts.
Import PyStr Json Names Pipeline Helpers Build Props.

Variable paise_of : string -> Z.
Variable str_of : json -> string.
Variable coerce_str : json -> option string.
Variable coerce_strs : json -> option (list string).
Variable validation_error : json -> json -> json -> string -> string.
Variable enhance_content : nat -> outcome.
Variable search_result : nat -> search_slot.
Variable n_keys : nat.
Variable generate_content : nat -> nat -> outcome.
Variable decode_error : string -> string.
Variable unbound_error : string.

Local Abbreviation build_one :=
  (build_alternative paise_of str_of coerce_str coerce_strs validation_error
     enhance_content search_result decode_error unbound_error).
Local Abbreviation build :=
  (build_alternatives paise_of str_of coerce_str coerce_strs validation_error
     enhance_content search_result decode_error unbound_error).
Local Abbreviation run :=
  (recommend paise_of str_of coerce_str coerce_strs validation_error
     enhance_content search_result n_keys generate_content decode_error
     unbound_error).
Local Abbreviation endpoint :=
  (get_recommendations paise_of str_of coerce_str coerce_strs validation_error
     enhance_content search_result n_keys generate_content decode_error
     unbound_error).

Lemma extract_source_site (url : string) :
  In (extract_source url) ["amazon"; "flipkart"; "unknown"].
Proof.
  unfold extract_source.
  destruct (contains "amazon" (lower url) || contains "amzn" (lower url));
    [simpl; auto |].
  destruct (contains "flipkart" (lower url)); simpl; auto.
Qed.

Lemma http_error_status (error_msg : string) :
  fst (http_error error_msg) = 503.
Proof. unfold http_error. now destruct (is_quota_error error_msg). Qed.

Lemma endpoint_raises (url_str product_title : string) (key : nat)
  (error_msg : string) :
  fst (fst (run url_str product_title key)) = Raise error_msg ->
  exists detail, endpoint url_str product_title key = HTTPException 503 detail.
Proof.
  intros H. unfold get_recommendations. rewrite H.
  rewrite http_error_status. now eexists.
Qed.

(** The [try] block, once the names stage is done. *)
Lemma run_unfold (url_str product_title : string) (key : nat) :
  exists category names,
    3 <= length names <= 6
    /\ fst (fst (run url_str product_title key))
       = (alternatives <- build (extract_source url_str) category 0 names ;;
          filter_and_validate alternatives).
Proof.
  destruct (@candidate_names_ok n_keys generate_content decode_error
              product_title key) as (c & n & names & E & L & B).
  exists c, names. split; [lia |].
  unfold recommend.
  destruct (candidate_names n_keys generate_content decode_error product_title
              key) as [[r key'] tr].
  cbn [fst] in *. subst r. reflexivity.
Qed.

(** X20. A request for a page that is neither of Amazon nor of Flipkart
    never gets recommendations: its site tag "unknown" is not a value
    that [Product] accepts, so the first candidate raises and the
    endpoint answers with an error 503, whatever the provider, the
    searches and the enrichments do. *)
Theorem unknown_site_gets_no_answer (url_str product_title : string)
  (key : nat) :
  extract_source url_str = "unknown" ->
  exists detail, endpoint url_str product_title key = HTTPException 503 detail.
Proof.
  intros U.
  destruct (run_unfold url_str product_title key) as (c & names & L & E).
  rewrite U in E.
  destruct (build "unknown" c 0 names) as [alts | m] eqn:B.
  - apply build_alternatives_inv in B. destruct B as (_ & _ & _ & _ & V).
    assert (N : names <> []) by (destruct names; [simpl in L; lia | discriminate]).
    specialize (V N). discriminate V.
  - cbn [bind] in E. eapply endpoint_raises; eassumption.
Qed.


(** X23. What the endpoint returns when it answers: one to six
    alternatives, each of which passed the quality filter and carries
    the site tag of the request, which is then "amazon" or "flipkart";
    the ids are those of the positions of the names, so they are all
    different; and there are at most two warnings. *)
Theorem returned_alternatives (url_str product_title : string) (key : nat)
  (alternatives : list Product) (warnings : list string) :
  endpoint url_str product_title key = Response alternatives warnings ->
  1 <= length alternatives <= 6
  /\ Forall (fun a => should_keep a = true
                      /\ source_site a = extract_source url_str) alternatives
  /\ In (extract_source url_str) ["amazon"; "flipkart"]
  /\ (exists positions,
        map id alternatives = map (fun i => str_of_nat (i + 1)) positions
        /\ NoDup positions /\ Forall (fun i => i < 6) positions)
  /\ length warnings <= 2.
Proof.
  unfold get_recommendations.
  destruct (run_unfold url_str product_title key) as (c & names & L & E).
  rewrite E.
  destruct (build (extract_source url_str) c 0 names) as [alts | m] eqn:B;
    cbn [bind]; [| discriminate].
  pose proof B as B'. apply build_alternatives_inv in B'.
  destruct B' as (BL & Ids & Sites & _ & V).
  unfold filter_and_validate. rewrite quality_filter_acc.
  cbn [app Nat.add]. unfold validate.
  destruct (length (filter should_keep alts) <? 1) eqn:N; [discriminate |].
  intros H.
  assert (A : alternatives = filter should_keep alts) by congruence.
  assert (Wn : length warnings <= 2).
  { assert (Wn : warnings
                 = ((if length (filter should_keep alts) <? 3
                     then [] ++ [("Only "
                                  ++ str_of_nat (length (filter should_keep alts))
                                  ++ " alternatives found")%string]
                     else [])
                    ++ (if 0 <? length (filter (fun a => negb (should_keep a)) alts)
                        then [("Filtered out "
                               ++ str_of_nat
                                    (length (filter (fun a => negb (should_keep a))
                                               alts))
                               ++ " low-quality results")%string]
                        else []))).
    { destruct (length (filter should_keep alts) <? 3),
               (0 <? length (filter (fun a => negb (should_keep a)) alts));
        cbn in H |- *; congruence. }
    rewrite Wn.
    destruct (length (filter should_keep alts) <? 3),
             (0 <? length (filter (fun a => negb (should_keep a)) alts));
      simpl; lia. }
  clear H. subst alternatives.
  apply Nat.ltb_ge in N.
  pose proof (filter_lengths should_keep alts) as F.
  assert (NE : names <> []) by (destruct names; [simpl in L; lia | discriminate]).
  specialize (V NE).
  split; [lia |].
  split.
  { apply Forall_forall. intros a I. apply filter_In in I.
    destruct I as (I & K). split; [exact K |].
    rewrite Forall_forall in Sites. now apply Sites. }
  split.
  { pose proof (extract_source_site url_str) as T.
    unfold valid_site in V.
    destruct T as [T | [T | [T | []]]]; rewrite <- T in V |- *.
    - now left.
    - right. now left.
    - discriminate V. }
  split; [| exact Wn].
  exists (map snd (filter (fun p => should_keep (fst p))
                     (combine alts (seq 0 (length names))))).
  assert (G : forall (l : list Product) (start : nat) (n : nat),
             length l = n ->
             map id l = map (fun i => str_of_nat (i + 1)) (seq start n) ->
             map id (filter should_keep l)
             = map (fun i => str_of_nat (i + 1))
                 (map snd (filter (fun p => should_keep (fst p))
                             (combine l (seq start n))))
             /\ forall i, In i (map snd (filter (fun p => should_keep (fst p))
                                           (combine l (seq start n)))) ->
                          In i (seq start n)).
  { induction l as [| a l IHl]; intros start n Ln Hm.
    - split; [reflexivity | intros i []].
    - destruct n as [| n]; [discriminate |].
      cbn [seq combine filter fst map] in *.
      injection Ln as Ln. injection Hm as Ha Hm.
      destruct (IHl (S start) n Ln Hm) as (G1 & G2).
      destruct (should_keep a); cbn [map snd].
      + split; [now rewrite Ha, G1 |].
        intros i [<- | I]; [now left | right; now apply G2].
      + split; [exact G1 | intros i I; right; now apply G2]. }
  destruct (G alts 0 (length names) BL Ids) as (G1 & G2).
  split; [exact G1 |]. split.
  - assert (ND : forall (l : list Product) (start n : nat),
               NoDup (map snd (filter (fun p => should_keep (fst p))
                                 (combine l (seq start n))))).
    { induction l as [| a l IHl]; intros start n; [constructor |].
      destruct n as [| n]; [constructor |].
      cbn [seq combine filter fst].
      destruct (should_keep a); cbn [map snd]; [| apply IHl].
      constructor; [| apply IHl].
      intros I.
      assert (I' : In start (map snd (combine l (seq (S start) n)))).
      { apply in_map_iff in I. destruct I as (p & Ep & Ip).
        apply filter_In in Ip. apply in_map_iff. exists p. tauto. }
      apply in_map_iff in I'. destruct I' as ((x, y) & Ep & Ip).
      apply in_combine_r in Ip. apply in_seq in Ip. simpl in Ep. lia. }
    apply ND.
  - apply Forall_forall. intros i I. apply G2 in I. apply in_seq in I. lia.
Qed.

End EndpointFacts.

Section EndpointWitnesses.
Import PyStr Json Names Pipeline Helpers Build Props Examples.

Local Abbreviation unbound :=
  "local variable 're' referenced before assignment".

Lemma unknown_site_gets_no_answer_witness :
  extract_source "https://www.croma.com/laptops/p/274601" = "unknown"
  /\ exists detail,
       get_recommendations paise text_of no_str no_strs invalid overloaded
         found 3 outage (fun t => t) unbound
         "https://www.croma.com/laptops/p/274601" "Acer Aspire Laptop" 0
       = HTTPException 503 detail.
Proof.
  assert (H : extract_source "https://www.croma.com/laptops/p/274601"
              = "unknown") by (vm_compute; reflexivity).
  split; [exact H |].
  exact (@unknown_site_gets_no_answer paise text_of no_str no_strs invalid
           overloaded found 3 outage (fun t => t) unbound
           "https://www.croma.com/laptops/p/274601" "Acer Aspire Laptop" 0 H).
Defined.

Lemma candidate_without_result_is_discarded_witness :
  without_result (timed_out 0)
  /\ exists alt,
       build_alternative paise text_of no_str no_strs invalid overloaded
         timed_out (fun t => t) unbound "amazon" "laptop" 0
         (JStr "HP Pavilion 15")
       = Ok alt
       /\ image_url alt = EmptyString
       /\ price_raw alt = 0%Z
       /\ url_ok alt = false
       /\ should_keep alt = false.
Proof.
  assert (W : without_result (timed_out 0)) by exact I.
  split; [exact W |].
  eexists. split; [vm_compute; reflexivity |].
  apply (@candidate_without_result_is_discarded paise text_of no_str no_strs
           invalid overloaded timed_out (fun t => t) unbound "amazon" "laptop"
           0 (JStr "HP Pavilion 15") _ W).
  vm_compute. reflexivity.
Defined.


Lemma returned_alternatives_witness :
  exists alternatives warnings,
    get_recommendations paise text_of no_str no_strs invalid overloaded
      found 3 outage (fun t => t) unbound
      "https://www.amazon.in/dp/B0C7654321" "Acer Aspire Laptop" 0
    = Response alternatives warnings
    /\ 1 <= length alternatives <= 6
    /\ Forall (fun a => should_keep a = true
                        /\ source_site a
                           = extract_source "https://www.amazon.in/dp/B0C7654321")
         alternatives
    /\ In (extract_source "https://www.amazon.in/dp/B0C7654321")
         ["amazon"; "flipkart"]
    /\ (exists positions,
          map id alternatives = map (fun i => str_of_nat (i + 1)) positions
          /\ NoDup positions /\ Forall (fun i => i < 6) positions)
    /\ length warnings <= 2.
Proof.
  eexists. eexists. split; [vm_compute; reflexivity |].
  apply (@returned_alternatives paise text_of no_str no_strs invalid
           overloaded found 3 outage (fun t => t) unbound
           "https://www.amazon.in/dp/B0C7654321" "Acer Aspire Laptop" 0).
  vm_compute. reflexivity.
Defined.

Lemma alternatives_follow_the_names_witness :
  exists alternatives,
    build_alternatives paise text_of no_str no_strs invalid overloaded
      found (fun t => t) unbound "amazon" "laptop" 0
      [JStr "HP Pavilion 15"; JStr "Dell Inspiron 15"]
    = Ok alternatives
    /\ length alternatives = 2
    /\ map id alternatives = ["1"; "2"]
    /\ Forall (fun a => source_site a = "amazon") alternatives
    /\ Forall2 (fun name a =>
                  as_str no_str name = Some (model a)
                  /\ forall s, name = JStr s -> model a = s)
         [JStr "HP Pavilion 15"; JStr "Dell Inspiron 15"] alternatives.
Proof.
  eexists. split; [vm_compute; reflexivity |].
  apply (@alternatives_follow_the_names paise text_of no_str no_strs invalid
           overloaded found (fun t => t) unbound "amazon" "laptop"
           [JStr "HP Pavilion 15"; JStr "Dell Inspiron 15"]).
  vm_compute. reflexivity.
Defined.

Lemma direct_link_comes_from_the_search_witness :
  exists alt,
    build_alternative paise text_of no_str no_strs invalid overloaded found
      (fun t => t) unbound "amazon" "laptop" 0 (JStr "HP Pavilion 15")
    = Ok alt
    /\ url_ok alt = true
    /\ exists sr,
         found 0 = SearchFound sr
         /\ is_direct_link (get_or (sr_url sr) EmptyString) = true
         /\ source_url alt = get_or (sr_url sr) EmptyString.
Proof.
  eexists. split; [vm_compute; reflexivity |].
  split; [vm_compute; reflexivity |].
  apply (@direct_link_comes_from_the_search paise text_of no_str no_strs
           invalid overloaded found (fun t => t) unbound "amazon" "laptop" 0
           (JStr "HP Pavilion 15"));
    vm_compute; reflexivity.
Defined.

End EndpointWitnesses.

(* ================================================================== *)
(** ** The repair of a truncated answer *)
(* ================================================================== *)

Section ParserMore.
Import PyStr Json Names.

Lemma count_char_app (c : ascii) (a b : string) :
  count_char c (a ++ b) = count_char c a + count_char c b.
Proof.
  induction a as [| d a IH]; simpl; [reflexivity |]. rewrite IH. lia.
Qed.

Lemma count_char_repeat (c : ascii) (n : nat) :
  count_char c (repeat_char c n) = n
  /\ forall d, Ascii.eqb d c = false -> count_char d (repeat_char c n) = 0.
Proof.
  induction n as [| n [IH1 IH2]]; simpl; [auto |].
  rewrite Ascii.eqb_refl, IH1. split; [reflexivity |].
  intros d E. rewrite E. now apply IH2.
Qed.

(** X26. The repair of a text that did not parse only appends closing
    characters, and only when closing braces are missing: the repaired
    text is the text, then at most one closing bracket, then one closing
    brace per missing one, so that it has as many closing as opening
    braces. *)
Theorem complete_json_only_closes (json_text : string) :
  (complete_json json_text = None
   <-> count_char "{" json_text <= count_char "}" json_text)
  /\ forall completed_json,
       complete_json json_text = Some completed_json ->
       exists bracket,
         (bracket = EmptyString \/ bracket = "]")
         /\ completed_json
            = (json_text ++ bracket
               ++ repeat_char "}" (count_char "{" json_text
                                   - count_char "}" json_text))%string
         /\ count_char "{" completed_json = count_char "}" completed_json.
Proof.
  unfold complete_json.
  destruct (Nat.ltb_spec (count_char "}" json_text) (count_char "{" json_text))
    as [L | L].
  - split; [split; [discriminate | lia] |].
    intros c H. injection H as <-.
    destruct (count_char_repeat "}"
                (count_char "{" json_text - count_char "}" json_text))
      as (R1 & R2).
    destruct (contains (dq "'alternatives': [") json_text
              && (count_char "]" json_text <? count_char "[" json_text)).
    + exists "]". split; [now right |]. split.
      * now rewrite append_assoc.
      * rewrite !count_char_app, R1, (R2 "{"%char eq_refl). simpl. lia.
    + exists EmptyString. split; [now left |]. split; [reflexivity |].
      rewrite !count_char_app, R1, (R2 "{"%char eq_refl). lia.
  - split; [split; [intros _; exact L | reflexivity] |].
    discriminate.
Qed.

End ParserMore.
